(** * TWtab persistence layer (dataPersistence.js): shallow embedding

    The four record managers of dataPersistence.js are embedded over an
    explicit model of their host: JSON values, the browser's localStorage
    (a string-keyed map of strings whose [setItem] may raise when the quota
    is exceeded), the clock, and the timer queue used by [autoSave]. *)

From Stdlib Require Import Ascii.
From stdpp Require Import gmap strings list fin_maps pretty countable.

#[local] Set Warnings "-register-all".

(** ** JSON values

    The values that [JSON.parse] can produce. Objects are finite maps from
    property names to values, so two objects with the same own properties
    are equal (property order is not modelled). Numbers are modelled by
    integers: the only number the managers build is [Date.now()]. A JS
    string is a sequence of 8-bit units here. The JS value [null] is
    [VNull]; [undefined] is the [None] of an [option value]. *)

Inductive value : Type :=
  | VNull
  | VBool (b : bool)
  | VNum (n : Z)
  | VStr (s : string)
  | VArr (l : list value)
  | VObj (m : gmap string value).

(** Size of a value, the measure for induction over nested values. *)
Fixpoint vsize (v : value) : nat :=
  match v with
  | VArr l => S (foldr (λ x n, vsize x + n) 0 l)
  | VObj m => S (map_fold (λ _ x n, vsize x + n) 0 m)
  | _ => 1
  end.

(** ** Completions: a JS expression returns normally or throws. *)

Inductive error : Type := TypeError | SyntaxError | QuotaExceededError.

Inductive completion (A : Type) : Type :=
  | Normal (a : A)
  | Abrupt (e : error).
Arguments Normal {A} a.
Arguments Abrupt {A} e.

#[global] Instance completion_ret : MRet completion := λ A a, Normal a.
#[global] Instance completion_bind : MBind completion := λ A B f c,
  match c with
  | Normal a => f a
  | Abrupt e => Abrupt e
  end.

(** ** The fragment of the JS semantics the managers use *)

(** ToBoolean of a value: [null], [false], [0] and the empty string are
    falsy, every object and array is truthy. *)
Definition truthy (v : value) : bool :=
  match v with
  | VNull => false
  | VBool b => b
  | VNum n => negb (n =? 0)%Z
  | VStr s => negb (String.eqb s "")
  | VArr _ | VObj _ => true
  end.

(** ToBoolean of what [getItem] returns: [null] or a string. *)
Definition truthy_item (data : option string) : bool :=
  match data with
  | None => false
  | Some s => negb (String.eqb s "")
  end.

Definition char_props (s : string) : list (string * value) :=
  imap (λ i c, (pretty i, VStr (String c EmptyString))) (String.list_ascii_of_string s).

Definition index_props (l : list value) : list (string * value) :=
  imap (λ i x, (pretty i, x)) l.

(** The own enumerable properties that object spread [{...v}] copies: the
    fields of an object, the indexed elements of an array, the indexed
    characters of a string, nothing for [null], booleans and numbers. *)
Definition own_props (v : value) : gmap string value :=
  match v with
  | VObj m => m
  | VArr l => list_to_map (index_props l)
  | VStr s => list_to_map (char_props s)
  | VNull | VBool _ | VNum _ => ∅
  end.

(** [{...a, ...b}]: the properties of [b] override those of [a]. *)
Definition spread2 (a b : value) : value := VObj (own_props b ∪ own_props a).

(** Property read [v.k] for a name [k] that no built-in prototype defines
    (the managers read [username] and [password]): reading a property of
    [null] throws a TypeError, a missing property is [undefined]. *)
Definition get_prop (v : value) (k : string) : completion (option value) :=
  match v with
  | VNull => Abrupt TypeError
  | VObj m => Normal (m !! k)
  | VArr l =>
      Normal (if String.eqb k "length" then Some (VNum (Z.of_nat (length l)))
              else own_props v !! k)
  | VStr s =>
      Normal (if String.eqb k "length" then Some (VNum (Z.of_nat (String.length s)))
              else own_props v !! k)
  | VBool _ | VNum _ => Normal None
  end.

(** Strict equality [a === b] between a freshly decoded value and a value
    of the caller: primitives are compared by value, two objects or arrays
    are never the same reference. *)
Definition strict_eq (a b : option value) : bool :=
  match a, b with
  | None, None => true
  | Some VNull, Some VNull => true
  | Some (VBool x), Some (VBool y) => bool_decide (x = y)
  | Some (VNum x), Some (VNum y) => bool_decide (x = y)
  | Some (VStr x), Some (VStr y) => bool_decide (x = y)
  | _, _ => false
  end.

(** Calling an Array.prototype method on [v]: a TypeError unless [v] is an
    array. *)
Definition as_array (v : value) : completion (list value) :=
  match v with
  | VArr l => Normal l
  | _ => Abrupt TypeError
  end.

(** [Array.prototype.findIndex]: the index of the first element on which
    the callback returns true, [-1] when there is none. *)
Fixpoint findIndex_from (p : value → completion bool) (l : list value) (i : Z)
    : completion Z :=
  match l with
  | [] => Normal (-1)%Z
  | u :: l' =>
      b ← p u;
      if (b : bool) then Normal i else findIndex_from p l' (i + 1)%Z
  end.

Definition findIndex (p : value → completion bool) (l : list value) : completion Z :=
  findIndex_from p l 0%Z.

(** [Array.prototype.find]: the first element on which the callback returns
    true, [undefined] when there is none. *)
Fixpoint find (p : value → completion bool) (l : list value)
    : completion (option value) :=
  match l with
  | [] => Normal None
  | u :: l' =>
      b ← p u;
      if (b : bool) then Normal (Some u) else find p l'
  end.

(** [x || null] for [x] a value or [undefined]. *)
Definition or_null (x : option value) : value :=
  match x with
  | Some v => if truthy v then v else VNull
  | None => VNull
  end.

(** ** The host

    [JSON.stringify], [JSON.parse] ([None] when it throws a SyntaxError),
    [Date.prototype.toISOString] on a time in milliseconds, and the quota
    policy of localStorage: [quota st k v] tells whether [setItem(k, v)] is
    accepted on contents [st]. *)
Class Host : Type := {
  JSON_stringify : value → string;
  JSON_parse : string → option value;
  toISOString : Z → string;
  quota : gmap string string → string → string → bool;
}.

(** What the managers rely on: decoding an encoded value gives it back (the
    numbers of the model being integers that the host represents exactly),
    and the empty string is not a JSON text. *)
Class JsonLaws (H : Host) : Prop := {
  parse_stringify : ∀ v, JSON_parse (JSON_stringify v) = Some v;
  parse_empty : JSON_parse "" = None;
}.

(** ** Programs over localStorage: state passing with exceptions *)

Definition js (A : Type) : Type :=
  gmap string string → completion A * gmap string string.

#[global] Instance js_ret : MRet js := λ A a st, (Normal a, st).
#[global] Instance js_bind : MBind js := λ A B f c st,
  match c st with
  | (Normal a, st') => f a st'
  | (Abrupt e, st') => (Abrupt e, st')
  end.

Definition lift {A} (c : completion A) : js A := λ st, (c, st).

(** [try { body } catch (error) { handler }]. *)
Definition try_catch {A} (body : js A) (handler : error → js A) : js A := λ st,
  match body st with
  | (Normal a, st') => (Normal a, st')
  | (Abrupt e, st') => handler e st'
  end.

Module localStorage.
Definition getItem (k : string) : js (option string) := λ st, (Normal (st !! k), st).

Definition setItem `{Host} (k v : string) : js unit := λ st,
  if quota st k v then (Normal (), <[k:=v]> st)
  else (Abrupt QuotaExceededError, st).

Definition removeItem (k : string) : js unit := λ st, (Normal (), delete k st).
End localStorage.

Definition parse `{Host} (data : string) : js value :=
  lift (match JSON_parse data with
        | Some v => Normal v
        | None => Abrupt SyntaxError
        end).

Module STORAGE_KEYS.
Definition GAME_STATE : string := "tab_game_state".
Definition USER_DATA : string := "tab_user_data".
Definition GAME_HISTORY : string := "tab_game_history".
Definition SETTINGS : string := "tab_settings".
End STORAGE_KEYS.

(** ** UserManager *)

Module UserManager.
Section with_host.
Context `{Host}.

Definition getAllUsers : js value :=
  try_catch
    (data ← localStorage.getItem STORAGE_KEYS.USER_DATA;
     if truthy_item data then parse (default "" data) else mret (VArr []))
    (λ _, mret (VArr [])).

(** The callback [u => u.username === userData.username]. *)
Definition same_username (userData u : value) : completion bool :=
  a ← get_prop u "username";
  b ← get_prop userData "username";
  mret (strict_eq a b).

Definition saveUser (userData : value) : js bool :=
  try_catch
    (users ← getAllUsers;
     arr ← lift (as_array users);
     existingIndex ← lift (findIndex (same_username userData) arr);
     let users' :=
       if (0 <=? existingIndex)%Z then
         <[Z.to_nat existingIndex :=
             spread2 (default VNull (arr !! Z.to_nat existingIndex)) userData]> arr
       else arr ++ [userData] in
     localStorage.setItem STORAGE_KEYS.USER_DATA (JSON_stringify (VArr users'));;
     mret true)
    (λ _, mret false).

(** The callback [u => u.username === username]. *)
Definition has_username (username : string) (u : value) : completion bool :=
  a ← get_prop u "username";
  mret (strict_eq a (Some (VStr username))).

Definition getUser (username : string) : js value :=
  users ← getAllUsers;
  arr ← lift (as_array users);
  found ← lift (find (has_username username) arr);
  mret (or_null found).

Definition authenticate (username password : string) : js value :=
  user ← getUser username;
  if truthy user then
    p ← lift (get_prop user "password");
    if strict_eq p (Some (VStr password)) then mret user else mret VNull
  else mret VNull.
End with_host.
End UserManager.


(** ** The timer queue of the host

    The pending timeouts of the window: a handle (a positive number, so
    always truthy) maps to the time at which the callback is due and to the
    game state its closure captured. [timeout] is the variable of the
    closure around [autoSave]; [autosaved] records each run of the
    [autoSave] callback: the time, the captured state and what
    [saveGameState] returned. Timer deadlines and [new Date()] read the same
    clock, in milliseconds. *)

Record Timer : Type := mkTimer {
  deadline : Z;
  captured : value;
}.

Record World : Type := mkWorld {
  clock : Z;
  storage : gmap string string;
  timers : gmap positive Timer;
  next_handle : positive;
  timeout : option positive;
  autosaved : list (Z * value * bool);
}.

Definition set_storage (st : gmap string string) (w : World) : World :=
  mkWorld (clock w) st (timers w) (next_handle w) (timeout w) (autosaved w).

Definition set_clock (t : Z) (w : World) : World :=
  mkWorld t (storage w) (timers w) (next_handle w) (timeout w) (autosaved w).

Definition clearTimeout (h : positive) (w : World) : World :=
  mkWorld (clock w) (storage w) (delete h (timers w)) (next_handle w) (timeout w)
    (autosaved w).

Definition setTimeout (g : value) (delay : Z) (w : World) : positive * World :=
  (next_handle w,
   mkWorld (clock w) (storage w)
     (<[next_handle w := mkTimer (clock w + delay) g]> (timers w))
     (Pos.succ (next_handle w)) (timeout w) (autosaved w)).

(** The page as loaded: no timer pending, [let timeout = null]. *)
Definition boot (t0 : Z) (st : gmap string string) : World :=
  mkWorld t0 st ∅ 1%positive None [].

(** ** GameStateManager *)

Module GameStateManager.
Section with_host.
Context `{Host}.

Definition stateToSave (now : Z) (gameState : value) : value :=
  VObj (<["version" := VStr "1.0"]>
          (<["timestamp" := VStr (toISOString now)]> (own_props gameState))).

Definition saveGameState (now : Z) (gameState : value) : js bool :=
  try_catch
    (localStorage.setItem STORAGE_KEYS.GAME_STATE
       (JSON_stringify (stateToSave now gameState));;
     mret true)
    (λ _, mret false).

Definition loadGameState : js value :=
  try_catch
    (data ← localStorage.getItem STORAGE_KEYS.GAME_STATE;
     if truthy_item data then
       state ← parse (default "" data);
       mret state
     else mret VNull)
    (λ _, mret VNull).

Definition hasSavedGame : js bool :=
  data ← localStorage.getItem STORAGE_KEYS.GAME_STATE;
  mret (bool_decide (data ≠ None)).

Definition clearGameState : js unit :=
  localStorage.removeItem STORAGE_KEYS.GAME_STATE.

Definition autoSave (gameState : value) (w : World) : World :=
  let w1 :=
    match timeout w with
    | Some h => clearTimeout h w
    | None => w
    end in
  let '(h, w2) := setTimeout gameState 2000 w1 in
  mkWorld (clock w2) (storage w2) (timers w2) (next_handle w2) (Some h) (autosaved w2).

(** The callback [() => { GameStateManager.saveGameState(gameState); }] run
    by the host at the current time. *)
Definition autoSave_callback (gameState : value) (w : World) : World :=
  let res := saveGameState (clock w) gameState (storage w) in
  let ok := match res.1 with Normal b => b | Abrupt _ => false end in
  mkWorld (clock w) res.2 (timers w) (next_handle w) (timeout w)
    (autosaved w ++ [(clock w, gameState, ok)]).
End with_host.
End GameStateManager.

(** ** The event loop

    Time passes in [elapse]: every pending timer whose deadline falls within
    the interval is run at its deadline, the earliest first (the lower
    handle first among equal deadlines), and is removed from the queue. *)

Section event_loop.
Context `{Host}.

Definition earlier (a b : positive * Timer) : bool :=
  (deadline a.2 <? deadline b.2)%Z
  || ((deadline a.2 =? deadline b.2)%Z && (a.1 <? b.1)%positive).

Definition next_due (target : Z) (ts : gmap positive Timer) : option (positive * Timer) :=
  map_fold (λ h tm best,
      if (deadline tm <=? target)%Z then
        match best with
        | None => Some (h, tm)
        | Some b => if earlier (h, tm) b then Some (h, tm) else best
        end
      else best)
    None ts.

Definition fire (h : positive) (tm : Timer) (w : World) : World :=
  GameStateManager.autoSave_callback (captured tm)
    (set_clock (Z.max (clock w) (deadline tm)) (clearTimeout h w)).

Fixpoint fire_due (fuel : nat) (target : Z) (w : World) : World :=
  match fuel with
  | O => w
  | S fuel' =>
      match next_due target (timers w) with
      | None => w
      | Some (h, tm) => fire_due fuel' target (fire h tm w)
      end
  end.

Definition elapse (dt : Z) (w : World) : World :=
  let target := (clock w + Z.max 0 dt)%Z in
  set_clock target (fire_due (size (timers w)) target w).

(** What can happen to the page: a call of the GameStateManager, other
    synchronous code rewriting the store, or time passing. *)
Inductive action : Type :=
  | AutoSave (gameState : value)
  | SaveGameState (gameState : value)
  | ClearGameState
  | OtherCode (f : gmap string string → gmap string string)
  | Elapse (dt : Z).

Definition step (w : World) (a : action) : World :=
  match a with
  | AutoSave g => GameStateManager.autoSave g w
  | SaveGameState g =>
      set_storage (GameStateManager.saveGameState (clock w) g (storage w)).2 w
  | ClearGameState => set_storage (GameStateManager.clearGameState (storage w)).2 w
  | OtherCode f => set_storage (f (storage w)) w
  | Elapse dt => elapse dt w
  end.

Definition run (w : World) (acts : list action) : World := foldl step w acts.
End event_loop.

(** ** GameHistoryManager *)

Module GameHistoryManager.
Section with_host.
Context `{Host}.

Definition getHistory : js value :=
  try_catch
    (data ← localStorage.getItem STORAGE_KEYS.GAME_HISTORY;
     if truthy_item data then parse (default "" data) else mret (VArr []))
    (λ _, mret (VArr [])).

(** [{...gameData, completedAt: new Date().toISOString(), id: Date.now()}];
    the clock is read twice. *)
Definition gameRecord (now1 now2 : Z) (gameData : value) : value :=
  VObj (<["id" := VNum now2]>
          (<["completedAt" := VStr (toISOString now1)]> (own_props gameData))).

Definition addGameToHistory (now1 now2 : Z) (gameData : value) : js unit :=
  try_catch
    (history ← getHistory;
     arr ← lift (as_array history);
     let history1 := gameRecord now1 now2 gameData :: arr in
     let history2 :=
       if (50 <? length history1)%nat then take 50 history1 else history1 in
     localStorage.setItem STORAGE_KEYS.GAME_HISTORY (JSON_stringify (VArr history2)))
    (λ _, mret ()).

Definition clearHistory : js unit :=
  localStorage.removeItem STORAGE_KEYS.GAME_HISTORY.
End with_host.
End GameHistoryManager.

(** ** SettingsManager *)

Module SettingsManager.
Section with_host.
Context `{Host}.

Definition defaults : value :=
  VObj (<["difficulty" := VStr "medium"]>
          (<["autoSave" := VBool true]> (<["soundEnabled" := VBool true]> ∅))).

Definition saveSettings (settings : value) : js unit :=
  try_catch
    (localStorage.setItem STORAGE_KEYS.SETTINGS (JSON_stringify settings))
    (λ _, mret ()).

Definition loadSettings : js value :=
  try_catch
    (data ← localStorage.getItem STORAGE_KEYS.SETTINGS;
     if truthy_item data then
       stored ← parse (default "" data);
       mret (spread2 defaults stored)
     else mret defaults)
    (λ _, mret defaults).
End with_host.
End SettingsManager.

(** ** A reference host

    A host that satisfies [JsonLaws], used to run the managers on concrete
    inputs: values are encoded through their tree of constructors as a
    string of binary digits behind a one-letter tag, and the store accepts
    every write. *)

Module RefHost.
Abbreviation leaf := (bool + Z + string)%type.

Fixpoint to_tree (v : value) : gen_tree leaf :=
  match v with
  | VNull => GenNode 0 []
  | VBool b => GenLeaf (inl (inl b))
  | VNum n => GenLeaf (inl (inr n))
  | VStr s => GenLeaf (inr s)
  | VArr l => GenNode 1 (map to_tree l)
  | VObj m =>
      GenNode 2 (map_fold (λ k x acc, GenLeaf (inr k) :: to_tree x :: acc) [] m)
  end.

Section lists_of_trees.
Variable of_tree : gen_tree leaf → option value.

Fixpoint elems (ts : list (gen_tree leaf)) : option (list value) :=
  match ts with
  | [] => Some []
  | t :: ts' =>
      match of_tree t, elems ts' with
      | Some v, Some l => Some (v :: l)
      | _, _ => None
      end
  end.

Fixpoint fields (ts : list (gen_tree leaf)) : option (gmap string value) :=
  match ts with
  | [] => Some ∅
  | GenLeaf (inr k) :: t :: ts' =>
      match of_tree t, fields ts' with
      | Some v, Some m => Some (<[k:=v]> m)
      | _, _ => None
      end
  | _ => None
  end.
End lists_of_trees.

Fixpoint of_tree (t : gen_tree leaf) : option value :=
  match t with
  | GenLeaf (inl (inl b)) => Some (VBool b)
  | GenLeaf (inl (inr n)) => Some (VNum n)
  | GenLeaf (inr s) => Some (VStr s)
  | GenNode 0 [] => Some VNull
  | GenNode 1 ts => VArr <$> elems of_tree ts
  | GenNode 2 ts => VObj <$> fields of_tree ts
  | _ => None
  end.

Fixpoint bits_of_pos (p : positive) : string :=
  match p with
  | xH => ""
  | xO p' => String "0"%char (bits_of_pos p')
  | xI p' => String "1"%char (bits_of_pos p')
  end.

Fixpoint pos_of_bits (s : string) : option positive :=
  match s with
  | EmptyString => Some xH
  | String c s' =>
      if Ascii.eqb c "0"%char then xO <$> pos_of_bits s'
      else if Ascii.eqb c "1"%char then xI <$> pos_of_bits s'
      else None
  end.

Definition stringify (v : value) : string :=
  String "J"%char (bits_of_pos (encode (to_tree v))).

Definition parse (s : string) : option value :=
  match s with
  | String c s' =>
      if Ascii.eqb c "J"%char then
        p ← pos_of_bits s'; t ← decode p; of_tree t
      else None
  | EmptyString => None
  end.

Fixpoint zeros (n : nat) : string :=
  match n with
  | O => ""
  | S n' => String "0"%char (zeros n')
  end.

(** [n] in decimal, padded with zeros to [width] digits. *)
Definition pad (width : nat) (n : Z) : string :=
  let digits := pretty (Z.to_N n) in
  zeros (width - String.length digits) +:+ digits.

(** Year, month and day of the proleptic Gregorian calendar for a number
    of days since 1970-01-01. *)
Definition civil_from_days (days : Z) : Z * Z * Z :=
  let z := (days + 719468)%Z in
  let era := (z / 146097)%Z in
  let doe := (z - era * 146097)%Z in
  let yoe := ((doe - doe / 1460 + doe / 36524 - doe / 146096) / 365)%Z in
  let doy := (doe - (365 * yoe + yoe / 4 - yoe / 100))%Z in
  let mp := ((5 * doy + 2) / 153)%Z in
  let d := (doy - (153 * mp + 2) / 5 + 1)%Z in
  let m := (if (mp <? 10)%Z then mp + 3 else mp - 9)%Z in
  let y := (yoe + era * 400 + (if (m <=? 2)%Z then 1 else 0))%Z in
  (y, m, d).

(** [new Date(t).toISOString()] for [t] in milliseconds since the epoch. *)
Definition iso_string (t : Z) : string :=
  let '(y, m, d) := civil_from_days (t / 86400000) in
  let ms := (t mod 86400000)%Z in
  let year :=
    if ((0 <=? y) && (y <=? 9999))%Z then pad 4 y
    else (if (y <? 0)%Z then "-" else "+") +:+ pad 6 (Z.abs y) in
  year +:+ "-" +:+ pad 2 m +:+ "-" +:+ pad 2 d +:+ "T"
    +:+ pad 2 (ms / 3600000) +:+ ":" +:+ pad 2 (ms / 60000 mod 60) +:+ ":"
    +:+ pad 2 (ms / 1000 mod 60) +:+ "." +:+ pad 3 (ms mod 1000) +:+ "Z".

#[global] Instance host : Host := {|
  JSON_stringify := stringify;
  JSON_parse := parse;
  toISOString := iso_string;
  quota := λ _ _ _, true;
|}.

(** The same host with a store that is full: every write is refused. *)
Definition full_host : Host := {|
  JSON_stringify := stringify;
  JSON_parse := parse;
  toISOString := iso_string;
  quota := λ _ _ _, false;
|}.
End RefHost.

(** ** Notions used to state the properties *)

(** What [getAllUsers] and [getHistory] make of partition [k]: the decoded
    payload, or the empty array when the key is absent, the payload is the
    empty string or it cannot be decoded. *)
Definition decode_or_empty `{Host} (k : string) (st : gmap string string) : value :=
  match st !! k with
  | Some d => if String.eqb d "" then VArr [] else default (VArr []) (JSON_parse d)
  | None => VArr []
  end.

(** Position of the first element on which a callback returns true. *)
Fixpoint first_index (p : value → completion bool) (l : list value)
    : completion (option nat) :=
  match l with
  | [] => Normal None
  | u :: l' =>
      b ← p u;
      if (b : bool) then Normal (Some 0)
      else o ← first_index p l'; Normal (option_map S o)
  end.

(** A user record as stored: an object. *)
Definition is_record (u : value) : Prop := ∃ m, u = VObj m.

(** The record [u] carries exactly this username and this password. *)
Definition has_credentials (username password : string) (u : value) : Prop :=
  ∃ m, u = VObj m ∧ m !! "username" = Some (VStr username)
       ∧ m !! "password" = Some (VStr password).

(** The invariant of the user store: a sequence of records with at most one
    record per username. *)
Definition UserStore (l : list value) : Prop :=
  Forall is_record l ∧
  ∀ i j u v name, l !! i = Some u → l !! j = Some v →
    get_prop u "username" = Normal (Some (VStr name)) →
    get_prop v "username" = Normal (Some (VStr name)) → i = j.

(** The comparison [u.username === userData.username], stated on its own:
    both reads succeed and the usernames are, or are not, strictly equal; or
    one of the reads throws, which a property read does on [null] only. *)
Definition same_name (userData u : value) : Prop :=
  ∃ a b, get_prop u "username" = Normal a ∧ get_prop userData "username" = Normal b
         ∧ strict_eq a b = true.

Definition other_name (userData u : value) : Prop :=
  ∃ a b, get_prop u "username" = Normal a ∧ get_prop userData "username" = Normal b
         ∧ strict_eq a b = false.

Definition unreadable (userData u : value) : Prop := u = VNull ∨ userData = VNull.

(** The scan of the stored sequence for the username of [userData] throws:
    it reaches an entry on which the comparison throws, no earlier entry
    having that username. *)
Definition scan_raises (userData : value) (arr : list value) : Prop :=
  ∃ n u, arr !! n = Some u ∧ unreadable userData u
         ∧ ∀ j v, j < n → arr !! j = Some v → other_name userData v.

(** The sequence that [saveUser] is to store: the first entry with the
    username of [userData] replaced by its merge with [userData], every
    other entry in place; or [userData] appended when no entry has that
    username. *)
Definition updated_users (userData : value) (arr l : list value) : Prop :=
  (∃ n old, arr !! n = Some old ∧ same_name userData old
            ∧ (∀ j v, j < n → arr !! j = Some v → other_name userData v)
            ∧ l = <[n := spread2 old userData]> arr)
  ∨ (Forall (other_name userData) arr ∧ l = arr ++ [userData]).

(** One call [addGameToHistory(gameData)]: the two clock readings and the
    argument. *)
Record history_call : Type := mkCall {
  call_now1 : Z;
  call_now2 : Z;
  call_data : value;
}.

(** The store after a sequence of [addGameToHistory] calls. *)
Definition add_games `{Host} (calls : list history_call) (st : gmap string string)
    : gmap string string :=
  foldl (λ st c,
      (GameHistoryManager.addGameToHistory (call_now1 c) (call_now2 c) (call_data c) st).2)
    st calls.

(** The entry that a call builds. *)
Definition entry_of `{Host} (c : history_call) : value :=
  GameHistoryManager.gameRecord (call_now1 c) (call_now2 c) (call_data c).

(** The invariant of the history: [getHistory] gives a sequence of at most
    50 entries. *)
Definition history_bounded `{Host} (st : gmap string string) : Prop :=
  ∃ l, GameHistoryManager.getHistory st = (Normal (VArr l), st) ∧ length l ≤ 50.

(** At most the timer whose handle is in [timeout] is pending. *)
Definition one_slot (w : World) : Prop :=
  ∀ h, is_Some (timers w !! h) → timeout w = Some h.

(** ** Sample data, run on the reference host *)

Module Sample.
Definition ana : gmap string value :=
  {[ "username" := VStr "ana"; "password" := VStr "pw";
     "stats" := VObj {[ "wins" := VNum 2 ]} ]}.

Definition ana_patch : gmap string value :=
  {[ "username" := VStr "ana"; "password" := VStr "new" ]}.

Definition bob : gmap string value :=
  {[ "username" := VStr "bob"; "password" := VStr "hunter2" ]}.

(** A payload that is not JSON. *)
Definition garbage : string := "{oops".

Definition two_users : gmap string string :=
  (UserManager.saveUser (VObj bob) (UserManager.saveUser (VObj ana) ∅).2).2.

Definition undecodable_users : gmap string string :=
  {[ STORAGE_KEYS.USER_DATA := garbage ]}.

Definition undecodable_history : gmap string string :=
  {[ STORAGE_KEYS.GAME_HISTORY := garbage ]}.

Definition game (n : Z) : value := VObj {[ "winner" := VStr "ana"; "round" := VNum n ]}.

Definition call (n : Z) : history_call := mkCall (1000 + n) (1000 + n) (game n).

Definition sixty_calls : list history_call := call <$> seqZ 1 60.

Definition board : gmap string value :=
  {[ "turn" := VNum 7; "dice" := VArr [VNum 3; VNum 5] ]}.

Definition s1 : value := VObj {[ "turn" := VNum 1 ]}.
Definition s2 : value := VObj {[ "turn" := VNum 2 ]}.
End Sample.

(** ** UserManager.updateStats *)

(** The assignment [user.k = x] on what [getUser] returned. That value is
    [null] or an object, as is proved below, and the assignment
    is only reached for a truthy one, so only the object case is ever run;
    on a primitive the assignment of non-strict code changes nothing. *)
Definition set_prop (user : value) (k : string) (x : value) : value :=
  match user with
  | VObj m => VObj (<[k := x]> m)
  | _ => user
  end.

(** [{...a, ...b}] where [a] may be [undefined]. *)
Definition spread_undefined (a : option value) (b : value) : value :=
  VObj (own_props b ∪ from_option own_props ∅ a).

(** [UserManager.updateStats]: the result of [saveUser] is dropped. *)
Definition updateStats `{Host} (username : string) (stats : value) : js unit :=
  user ← UserManager.getUser username;
  if truthy user then
    old ← lift (get_prop user "stats");
    UserManager.saveUser (set_prop user "stats" (spread_undefined old stats));;
    mret ()
  else mret ().

(** A burst of [autoSave] calls, each followed by some time. *)
Definition burst (calls : list (value * Z)) : list action :=
  calls ≫= λ c, [AutoSave c.1; Elapse c.2].

(** The time a burst takes. *)
Definition burst_duration (calls : list (value * Z)) : Z :=
  foldr (λ c t, (Z.max 0 c.2 + t)%Z) 0%Z calls.

(** ** saveLoadButtons.js: the save and load buttons

    The part of the page the handlers read and write: the display of the
    save indicator and the text of the message, each absent when the page
    has no such element, the [disabled] flag of the roll button, the alerts
    shown so far, and the pending timeouts in the order in which they will
    fire (by deadline, then by creation). The element matched by
    ['.message p'] is taken to be the same one throughout. The game logic
    behind [window.gameLogic] is not part of this file: its methods are
    parameters, functions on the page. *)

Module SaveLoadButtons.

(** The closures given to [setTimeout]. *)
Inductive callback : Type :=
  | HideIndicator
  | RestoreMessage (currentText : string).

Record Page : Type := mkPage {
  page_clock : Z;
  saveIndicator : option string;
  messageText : option string;
  rollDisabled : option bool;
  alerts : list string;
  pending : list (positive * Z * callback);
  next_id : positive;
  autoSaveTimeout : option positive;
}.

(** [window.gameLogic], when it is loaded. *)
Record GameLogic : Type := mkGameLogic {
  gameActive : bool;
  saveGame : Page → bool * Page;
  hasSavedGame : Page → bool * Page;
  loadGame : Page → bool * Page;
  autoSaveGame : Page → Page;
}.

Definition alert (msg : string) (p : Page) : Page :=
  mkPage (page_clock p) (saveIndicator p) (messageText p) (rollDisabled p)
    (alerts p ++ [msg]) (pending p) (next_id p) (autoSaveTimeout p).

Definition set_display (d : string) (p : Page) : Page :=
  mkPage (page_clock p) (Some d) (messageText p) (rollDisabled p)
    (alerts p) (pending p) (next_id p) (autoSaveTimeout p).

Definition set_textContent (t : string) (p : Page) : Page :=
  mkPage (page_clock p) (saveIndicator p) (Some t) (rollDisabled p)
    (alerts p) (pending p) (next_id p) (autoSaveTimeout p).

Definition enable_roll (p : Page) : Page :=
  mkPage (page_clock p) (saveIndicator p) (messageText p)
    (match rollDisabled p with Some _ => Some false | None => None end)
    (alerts p) (pending p) (next_id p) (autoSaveTimeout p).

(** A new timer goes behind the pending ones that are due no later. *)
Fixpoint enqueue (t : positive * Z * callback) (q : list (positive * Z * callback))
    : list (positive * Z * callback) :=
  match q with
  | [] => [t]
  | t' :: q' => if (t'.1.2 <=? t.1.2)%Z then t' :: enqueue t q' else t :: q
  end.

Definition setTimeout (cb : callback) (delay : Z) (p : Page) : positive * Page :=
  (next_id p,
   mkPage (page_clock p) (saveIndicator p) (messageText p) (rollDisabled p) (alerts p)
     (enqueue (next_id p, (page_clock p + delay)%Z, cb) (pending p))
     (Pos.succ (next_id p)) (autoSaveTimeout p)).

Definition clearTimeout (h : positive) (p : Page) : Page :=
  mkPage (page_clock p) (saveIndicator p) (messageText p) (rollDisabled p) (alerts p)
    (filter (λ t, t.1.1 ≠ h) (pending p)) (next_id p) (autoSaveTimeout p).

Definition saved_text : string := "💾 Jogo salvo com sucesso!".
Definition loaded_text : string := "📂 Jogo carregado com sucesso!".

(** The common end of both handlers: show [text] in the message, if there
    is one, and put the previous text back 2000 ms later. *)
Definition flash_message (text : string) (p : Page) : Page :=
  match messageText p with
  | Some currentText =>
      (setTimeout (RestoreMessage currentText) 2000 (set_textContent text p)).2
  | None => p
  end.

(** The click handler of the save button. *)
Definition click_save (gameLogic : option GameLogic) (p : Page) : Page :=
  match gameLogic with
  | None => alert "Sistema de jogo não carregado." p
  | Some gl =>
      if negb (gameActive gl) then alert "Nenhum jogo ativo para salvar." p
      else
        let '(success, p1) := saveGame gl p in
        if (success : bool) then
          let p2 :=
            match saveIndicator p1 with
            | Some _ => (setTimeout HideIndicator 3000 (set_display "block" p1)).2
            | None => p1
            end in
          flash_message saved_text p2
        else alert "Erro ao salvar o jogo." p1
  end.

(** The click handler of the load button; [confirmed] is the answer to
    [confirm], asked only when a game is active. *)
Definition click_load (gameLogic : option GameLogic) (confirmed : bool) (p : Page) : Page :=
  match gameLogic with
  | None => alert "Sistema de jogo não carregado." p
  | Some gl =>
      let '(saved, p0) := hasSavedGame gl p in
      if negb saved then alert "Nenhum jogo salvo encontrado." p0
      else if gameActive gl && negb confirmed then p0
      else
        let '(success, p1) := loadGame gl p0 in
        if (success : bool) then flash_message loaded_text (enable_roll p1)
        else alert "Erro ao carregar o jogo." p1
  end.

(** The function that [setupAutoSaveIndicator] puts in place of
    [gameLogic.autoSaveGame]. *)
Definition autoSaveGame_wrapped (gl : GameLogic) (p : Page) : Page :=
  let p1 := autoSaveGame gl p in
  match saveIndicator p1 with
  | Some _ =>
      let p2 :=
        match autoSaveTimeout p1 with
        | Some h => clearTimeout h p1
        | None => p1
        end in
      let '(h, p3) := setTimeout HideIndicator 2000 (set_display "block" p2) in
      mkPage (page_clock p3) (saveIndicator p3) (messageText p3) (rollDisabled p3)
        (alerts p3) (pending p3) (next_id p3) (Some h)
  | None => p1
  end.

Definition run_callback (cb : callback) (p : Page) : Page :=
  match cb with
  | HideIndicator => set_display "none" p
  | RestoreMessage currentText => set_textContent currentText p
  end.

(** Run, in order, the pending timers that are due by [target]. *)
Fixpoint fire_pending (target : Z) (q : list (positive * Z * callback)) (p : Page) : Page :=
  match q with
  | [] =>
      mkPage (page_clock p) (saveIndicator p) (messageText p) (rollDisabled p)
        (alerts p) [] (next_id p) (autoSaveTimeout p)
  | t :: q' =>
      if (t.1.2 <=? target)%Z then
        fire_pending target q'
          (run_callback t.2
             (mkPage (Z.max (page_clock p) t.1.2) (saveIndicator p) (messageText p)
                (rollDisabled p) (alerts p) q' (next_id p) (autoSaveTimeout p)))
      else
        mkPage (page_clock p) (saveIndicator p) (messageText p) (rollDisabled p)
          (alerts p) q (next_id p) (autoSaveTimeout p)
  end.

Definition elapse (dt : Z) (p : Page) : Page :=
  let target := (page_clock p + Z.max 0 dt)%Z in
  let p' := fire_pending target (pending p) p in
  mkPage target (saveIndicator p') (messageText p') (rollDisabled p')
    (alerts p') (pending p') (next_id p') (autoSaveTimeout p').
End SaveLoadButtons.

(** What the timers of a queue that are due by [target] leave in the
    message and in the indicator, and the timers that stay pending. *)
Fixpoint message_after (target : Z) (q : list (positive * Z * SaveLoadButtons.callback))
    (m : option string) : option string :=
  match q with
  | [] => m
  | t :: q' =>
      if (t.1.2 <=? target)%Z then
        message_after target q'
          match t.2 with
          | SaveLoadButtons.RestoreMessage x => Some x
          | SaveLoadButtons.HideIndicator => m
          end
      else m
  end.

Fixpoint display_after (target : Z) (q : list (positive * Z * SaveLoadButtons.callback))
    (d : option string) : option string :=
  match q with
  | [] => d
  | t :: q' =>
      if (t.1.2 <=? target)%Z then
        display_after target q'
          match t.2 with
          | SaveLoadButtons.RestoreMessage _ => d
          | SaveLoadButtons.HideIndicator => Some "none"
          end
      else d
  end.

Fixpoint still_pending (target : Z) (q : list (positive * Z * SaveLoadButtons.callback))
    : list (positive * Z * SaveLoadButtons.callback) :=
  match q with
  | [] => []
  | t :: q' => if (t.1.2 <=? target)%Z then still_pending target q' else q
  end.

(** ** More sample data *)

Module Sample2.
(** A user partition and a history partition that hold JSON which is not an
    array. *)
Definition users_null : gmap string string :=
  {[ STORAGE_KEYS.USER_DATA := RefHost.stringify VNull ]}.

Definition history_object : gmap string string :=
  {[ STORAGE_KEYS.GAME_HISTORY := RefHost.stringify (VObj ∅) ]}.

Definition no_name1 : gmap string value := {[ "wins" := VNum 1 ]}.
Definition no_name2 : gmap string value := {[ "losses" := VNum 2 ]}.

Definition patch : value := VObj {[ "losses" := VNum 1 ]}.

Definition hard : gmap string value := {[ "difficulty" := VStr "hard" ]}.

Definition board2 : gmap string value := {[ "turn" := VNum 8 ]}.
End Sample2.

Module Sample3.
(** A page with all three elements, the indicator hidden and no timer
    pending, and a game logic whose methods all succeed and leave the page
    alone. *)
Definition page : SaveLoadButtons.Page :=
  SaveLoadButtons.mkPage 0 (Some "none") (Some "Sua vez") (Some true) [] [] 1 None.

Definition logic : SaveLoadButtons.GameLogic :=
  SaveLoadButtons.mkGameLogic true (λ p, (true, p)) (λ p, (true, p)) (λ p, (true, p))
    (λ p, p).
End Sample3.

(** * Properties *)

(** ** The reference host is lawful *)

Lemma vsize_field (m : gmap string value) k x :
  m !! k = Some x → vsize x < vsize (VObj m).
Proof.
  simpl. revert k x.
  apply (map_fold_weak_ind
    (λ n (m' : gmap string value), ∀ k x, m' !! k = Some x → vsize x < S n)).
  - intros k x. by rewrite lookup_empty.
  - intros i y m' r Hi IH k x. rewrite lookup_insert.
    case_decide; intros Hk; simplify_eq; [lia|].
    specialize (IH _ _ Hk). lia.
Qed.

Lemma vsize_elem (l : list value) x : x ∈ l → vsize x < vsize (VArr l).
Proof.
  simpl. induction 1 as [x l|x y l _ IH]; simpl; lia.
Qed.

Lemma value_size_ind (P : value → Prop) :
  (∀ v, (∀ x, vsize x < vsize v → P x) → P v) → ∀ v, P v.
Proof.
  intros Hstep v. remember (vsize v) as n eqn:Hn. revert v Hn.
  induction n as [n IH] using lt_wf_ind. intros v ->.
  apply Hstep. intros x Hx. by apply (IH (vsize x)).
Qed.

Lemma of_tree_to_tree v : RefHost.of_tree (RefHost.to_tree v) = Some v.
Proof.
  induction v as [v IH] using value_size_ind.
  destruct v as [|b|n|s|l|m]; try done.
  - cbn [RefHost.to_tree RefHost.of_tree].
    assert (Hl : ∀ x, x ∈ l → RefHost.of_tree (RefHost.to_tree x) = Some x).
    { intros x Hx. apply IH. by apply vsize_elem. }
    clear IH.
    assert (RefHost.elems RefHost.of_tree (map RefHost.to_tree l) = Some l) as ->;
      [|done].
    induction l as [|x l IHl]; [done|].
    cbn [map RefHost.elems]. rewrite Hl by left.
    rewrite IHl; [done|]. intros y Hy. apply Hl. by right.
  - cbn [RefHost.to_tree RefHost.of_tree].
    assert (Hm : ∀ k x, m !! k = Some x →
                   RefHost.of_tree (RefHost.to_tree x) = Some x).
    { intros k x Hx. apply IH. by eapply vsize_field. }
    clear IH.
    match goal with |- _ <$> RefHost.fields _ ?ts = _ =>
      assert (RefHost.fields RefHost.of_tree ts = Some m) as ->; [|done] end.
    revert Hm.
    apply (map_fold_weak_ind (λ ts (m' : gmap string value),
      (∀ k x, m' !! k = Some x → RefHost.of_tree (RefHost.to_tree x) = Some x) →
      RefHost.fields RefHost.of_tree ts = Some m')).
    + done.
    + intros i x m' r Hi IHm Hm.
      cbn [RefHost.fields].
      rewrite (Hm i x) by apply lookup_insert_eq.
      rewrite IHm; [done|].
      intros k y Hy. apply (Hm k). rewrite lookup_insert_ne; [done|]. congruence.
Qed.

Lemma pos_of_bits_of_pos p : RefHost.pos_of_bits (RefHost.bits_of_pos p) = Some p.
Proof. induction p as [p IH|p IH|]; simpl; by rewrite ?IH. Qed.

#[global] Instance ref_host_laws : JsonLaws RefHost.host.
Proof.
  split; [|done]. intros v. simpl. unfold RefHost.parse, RefHost.stringify.
  simpl. rewrite pos_of_bits_of_pos. simpl.
  rewrite decode_encode. simpl. apply of_tree_to_tree.
Qed.

Example iso_string_epoch : RefHost.iso_string 0 = "1970-01-01T00:00:00.000Z".
Proof. reflexivity. Qed.

Example iso_string_leap_day :
  RefHost.iso_string 951782400000 = "2000-02-29T00:00:00.000Z".
Proof. reflexivity. Qed.

Example iso_string_sample :
  RefHost.iso_string 1700000000123 = "2023-11-14T22:13:20.123Z".
Proof. reflexivity. Qed.

Example iso_string_before_epoch :
  RefHost.iso_string (-1) = "1969-12-31T23:59:59.999Z".
Proof. reflexivity. Qed.

Lemma full_host_laws : JsonLaws RefHost.full_host.
Proof.
  split; [|done]. intros v. apply (parse_stringify (H:=RefHost.host)).
Qed.

(** ** The store readers never fail *)

Section readers.
Context `{H : Host}.

Lemma getAllUsers_eq st :
  UserManager.getAllUsers st = (Normal (decode_or_empty STORAGE_KEYS.USER_DATA st), st).
Proof.
  unfold UserManager.getAllUsers, decode_or_empty, try_catch, mbind, js_bind,
    localStorage.getItem, truthy_item, parse, lift.
  destruct (st !! STORAGE_KEYS.USER_DATA) as [d|]; simpl; [|done].
  destruct (String.eqb d ""); simpl; [done|].
  by destruct (JSON_parse d).
Qed.

Lemma getHistory_eq st :
  GameHistoryManager.getHistory st
  = (Normal (decode_or_empty STORAGE_KEYS.GAME_HISTORY st), st).
Proof.
  unfold GameHistoryManager.getHistory, decode_or_empty, try_catch, mbind, js_bind,
    localStorage.getItem, truthy_item, parse, lift.
  destruct (st !! STORAGE_KEYS.GAME_HISTORY) as [d|]; simpl; [|done].
  destruct (String.eqb d ""); simpl; [done|].
  by destruct (JSON_parse d).
Qed.

Lemma decode_or_empty_undecodable k st d :
  st !! k = Some d → JSON_parse d = None → decode_or_empty k st = VArr [].
Proof.
  intros Hd Hp. unfold decode_or_empty. rewrite Hd, Hp. by destruct (String.eqb d "").
Qed.

Lemma decode_or_empty_absent k st : st !! k = None → decode_or_empty k st = VArr [].
Proof. intros Hd. unfold decode_or_empty. by rewrite Hd. Qed.

Lemma stringify_nonempty `{!JsonLaws H} v : String.eqb (JSON_stringify v) "" = false.
Proof.
  destruct (String.eqb_spec (JSON_stringify v) "") as [Heq|]; [|done].
  pose proof (parse_stringify v) as Hp. rewrite Heq, parse_empty in Hp. done.
Qed.

Lemma decode_or_empty_insert `{!JsonLaws H} k v st :
  decode_or_empty k (<[k := JSON_stringify v]> st) = v.
Proof.
  unfold decode_or_empty. rewrite lookup_insert_eq, stringify_nonempty.
  by rewrite parse_stringify.
Qed.
End readers.

(** ** Scanning a list with a callback that may throw *)

Section scanning.
Implicit Types (p : value → completion bool) (l : list value).

Lemma findIndex_from_first_index p l i0 :
  findIndex_from p l i0 =
  o ← first_index p l;
  Normal (match o with Some n => (i0 + Z.of_nat n)%Z | None => (-1)%Z end).
Proof.
  revert i0. induction l as [|u l IH]; intros i0; simpl; [done|].
  destruct (p u) as [[]|e]; simpl; [f_equal; lia| |done].
  rewrite IH. destruct (first_index p l) as [[n|]|e]; simpl; [f_equal; lia|done..].
Qed.

Lemma find_first_index p l :
  find p l = o ← first_index p l; Normal (o ≫= λ n, l !! n).
Proof.
  induction l as [|u l IH]; simpl; [done|].
  destruct (p u) as [[]|e]; simpl; [done| |done].
  rewrite IH. by destruct (first_index p l) as [[n|]|e].
Qed.

Lemma first_index_ext p q l :
  (∀ u, p u = q u) → first_index p l = first_index q l.
Proof.
  intros Hpq. induction l as [|u l IH]; simpl; [done|]. by rewrite Hpq, IH.
Qed.

Lemma first_index_Some p l n :
  first_index p l = Normal (Some n) →
  ∃ u, l !! n = Some u ∧ p u = Normal true
       ∧ ∀ x, p x = Normal true → first_index p (<[n:=x]> l) = Normal (Some n).
Proof.
  revert n. induction l as [|u l IH]; intros n; simpl; [done|].
  destruct (p u) as [[]|e] eqn:Hu; simpl; [| |done].
  - intros [= <-]. exists u. split_and!; [done..|]. intros x Hx. simpl. by rewrite Hx.
  - destruct (first_index p l) as [[k|]|e] eqn:Hl; simpl; [|done..].
    intros [= <-]. destruct (IH k eq_refl) as (v & Hv & Hpv & Hins).
    exists v. split_and!; [done..|]. intros x Hx. simpl.
    by rewrite Hu, (Hins x Hx).
Qed.

Lemma first_index_None p l x :
  first_index p l = Normal None → p x = Normal true →
  first_index p (l ++ [x]) = Normal (Some (length l)).
Proof.
  intros Hl Hx. induction l as [|u l IH]; simpl in *; [by rewrite Hx|].
  destruct (p u) as [[]|e]; simpl in *; [done| |done].
  destruct (first_index p l) as [[k|]|e]; simpl in *; [done| |done].
  by rewrite IH.
Qed.

Lemma first_index_None_Forall p l :
  first_index p l = Normal None → Forall (λ u, p u = Normal false) l.
Proof.
  induction l as [|u l IH]; simpl; [constructor|].
  destruct (p u) as [[]|e] eqn:Hu; simpl; [done| |done].
  destruct (first_index p l) as [[k|]|e]; simpl; [done| |done].
  intros _. constructor; [done|]. by apply IH.
Qed.

(** What the three outcomes of a scan say about the sequence. *)
Lemma first_index_Some_iff p l n :
  first_index p l = Normal (Some n) ↔
  ∃ u, l !! n = Some u ∧ p u = Normal true
       ∧ ∀ j v, j < n → l !! j = Some v → p v = Normal false.
Proof.
  revert n. induction l as [|u l IH]; intros n; simpl.
  { split; [done|]. by intros (u & Hu & _). }
  destruct (p u) as [[]|e] eqn:Hu; simpl.
  - split.
    + intros [= <-]. exists u. split_and!; [done..|]. intros; lia.
    + intros (v & Hv & Hpv & Hbefore). destruct n as [|n]; [done|].
      specialize (Hbefore 0 u ltac:(lia) eq_refl). congruence.
  - destruct n as [|n].
    + split.
      * by destruct (first_index p l) as [[k|]|].
      * intros (v & [= <-] & Hpv & _). congruence.
    + split.
      * destruct (first_index p l) as [[k|]|e'] eqn:Hl; simpl; [|done..].
        intros [= ->]. destruct (proj1 (IH n) eq_refl) as (v & Hv & Hpv & Hbefore).
        exists v. split_and!; [done..|].
        intros [|j] w Hj Hw; simpl in Hw; [by injection Hw as <-|].
        apply (Hbefore j w); [lia|done].
      * intros (v & Hv & Hpv & Hbefore). simpl in Hv.
        assert (first_index p l = Normal (Some n)) as ->; [|done].
        apply IH. exists v. split_and!; [done..|].
        intros j w Hj Hw. apply (Hbefore (S j) w); [lia|done].
  - split; [done|]. intros (v & Hv & Hpv & Hbefore). destruct n as [|n].
    + injection Hv as <-. congruence.
    + specialize (Hbefore 0 u ltac:(lia) eq_refl). congruence.
Qed.

Lemma first_index_None_iff p l :
  first_index p l = Normal None ↔ Forall (λ u, p u = Normal false) l.
Proof.
  split; [apply first_index_None_Forall|].
  induction 1 as [|u l Hu _ IH]; simpl; [done|]. by rewrite Hu, IH.
Qed.

Lemma first_index_Abrupt_iff p l :
  (∃ e, first_index p l = Abrupt e) ↔
  ∃ n u e, l !! n = Some u ∧ p u = Abrupt e
           ∧ ∀ j v, j < n → l !! j = Some v → p v = Normal false.
Proof.
  induction l as [|u l IH]; simpl.
  { split; [by intros [e He]|]. by intros (n & u & e & Hu & _). }
  destruct (p u) as [[]|e] eqn:Hu; simpl.
  - split; [by intros [e He]|]. intros (n & v & e & Hv & Hpv & Hbefore).
    destruct n as [|n]; [injection Hv as <-; congruence|].
    specialize (Hbefore 0 u ltac:(lia) eq_refl). congruence.
  - split.
    + intros [e He]. destruct (first_index p l) as [[k|]|e'] eqn:Hl; simpl in He; [done..|].
      destruct (proj1 IH (ex_intro _ e' eq_refl)) as (n & v & e'' & Hv & Hpv & Hbefore).
      exists (S n), v, e''. split_and!; [done..|].
      intros [|j] w Hj Hw; simpl in Hw; [by injection Hw as <-|].
      apply (Hbefore j w); [lia|done].
    + intros (n & v & e & Hv & Hpv & Hbefore).
      destruct n as [|n]; [injection Hv as <-; congruence|]. simpl in Hv.
      destruct (proj2 IH) as [e' ->]; [|by exists e'].
      exists n, v, e. split_and!; [done..|].
      intros j w Hj Hw. apply (Hbefore (S j) w); [lia|done].
  - split; [intros _|by exists e]. exists 0, u, e. split_and!; [done..|]. intros; lia.
Qed.

End scanning.

(** ** UserManager *)

Section user_manager.
Context `{H : Host}.

(** The list [saveUser] is about to write, from what [getAllUsers] gave. *)
Lemma saveUser_eq userData st :
  UserManager.saveUser userData st =
  match
    arr ← as_array (decode_or_empty STORAGE_KEYS.USER_DATA st);
    o ← first_index (UserManager.same_username userData) arr;
    Normal (match o with
            | Some n => <[n := spread2 (default VNull (arr !! n)) userData]> arr
            | None => arr ++ [userData]
            end)
  with
  | Normal l =>
      if quota st STORAGE_KEYS.USER_DATA (JSON_stringify (VArr l))
      then (Normal true, <[STORAGE_KEYS.USER_DATA := JSON_stringify (VArr l)]> st)
      else (Normal false, st)
  | Abrupt _ => (Normal false, st)
  end.
Proof.
  unfold UserManager.saveUser, try_catch.
  unfold mbind at 1, js_bind. rewrite getAllUsers_eq.
  destruct (decode_or_empty STORAGE_KEYS.USER_DATA st) as [| | | |arr|]; try done.
  unfold mbind at 1, js_bind, lift, as_array.
  unfold mbind at 1, js_bind, findIndex. rewrite findIndex_from_first_index.
  cbn [mbind completion_bind].
  destruct (first_index _ arr) as [[n|]|e]; cbn [mbind completion_bind]; [| |done].
  - rewrite Z.add_0_l, Nat2Z.id.
    assert ((0 <=? Z.of_nat n)%Z = true) as -> by (apply Z.leb_le; lia).
    unfold mbind, js_bind, localStorage.setItem.
    by destruct (quota _ _ _).
  - cbn [Z.leb Z.compare]. unfold mbind, js_bind, localStorage.setItem.
    by destruct (quota _ _ _).
Qed.

Lemma getUser_eq username st :
  UserManager.getUser username st =
  match
    arr ← as_array (decode_or_empty STORAGE_KEYS.USER_DATA st);
    o ← first_index (UserManager.has_username username) arr;
    Normal (or_null (o ≫= λ n, arr !! n))
  with
  | Normal r => (Normal r, st)
  | Abrupt e => (Abrupt e, st)
  end.
Proof.
  unfold UserManager.getUser. unfold mbind at 1, js_bind. rewrite getAllUsers_eq.
  destruct (decode_or_empty STORAGE_KEYS.USER_DATA st) as [| | | |arr|]; try done.
  unfold mbind at 1, js_bind, lift, as_array.
  unfold mbind at 1, js_bind. rewrite find_first_index.
  cbn [mbind completion_bind].
  by destruct (first_index _ arr) as [[n|]|e].
Qed.
End user_manager.

Section user_manager_claims.
Context `{H : Host}.

Lemma strict_eq_str (a : option value) (s : string) :
  strict_eq a (Some (VStr s)) = true ↔ a = Some (VStr s).
Proof.
  destruct a as [[]|]; simpl; try (split; [done|intros [=]]).
  rewrite bool_decide_eq_true. split; [by intros ->|by intros [= ->]].
Qed.

Lemma same_username_has_username (r : gmap string value) name u :
  r !! "username" = Some (VStr name) →
  UserManager.same_username (VObj r) u = UserManager.has_username name u.
Proof.
  intros Hr. unfold UserManager.same_username, UserManager.has_username.
  destruct (get_prop u "username") as [a|e]; simpl; [|done]. by rewrite Hr.
Qed.

Lemma has_username_true_truthy name u :
  UserManager.has_username name u = Normal true → truthy u = true.
Proof.
  destruct u as [|b|n|s|l|m]; try done.
  destruct s as [|c s]; [|done]. by vm_compute.
Qed.

Lemma has_username_true_get_prop name u :
  UserManager.has_username name u = Normal true ↔
  get_prop u "username" = Normal (Some (VStr name)).
Proof.
  unfold UserManager.has_username.
  destruct (get_prop u "username") as [a|e]; simpl; [|done].
  split.
  - intros [= Ha%strict_eq_str]. by subst.
  - intros [= ->]. f_equal. by apply strict_eq_str.
Qed.

(** Scanning a sequence of records for a username never throws, and finds
    the first record that carries it. *)
Lemma first_index_records name l :
  Forall is_record l →
  ∃ o, first_index (UserManager.has_username name) l = Normal o ∧
       match o with
       | Some n => ∃ m, l !! n = Some (VObj m) ∧ m !! "username" = Some (VStr name)
       | None => ∀ m, VObj m ∈ l → m !! "username" ≠ Some (VStr name)
       end.
Proof.
  induction 1 as [|u l [m ->] _ (o & Ho & IH)]; simpl.
  { exists None. split; [done|]. intros m Hm. by apply elem_of_nil in Hm. }
  destruct (strict_eq (m !! "username") (Some (VStr name))) eqn:Hm; simpl.
  - exists (Some 0). split; [done|]. exists m. split; [done|]. by apply strict_eq_str.
  - rewrite Ho. simpl. exists (option_map S o). split; [done|].
    destruct o as [n|]; simpl; [done|].
    intros m' [[= ->]|Hin]%elem_of_cons.
    + intros Heq%strict_eq_str. congruence.
    + by apply IH.
Qed.

(** The callback of [saveUser] against the declarative comparison. *)
Lemma same_username_true userData u :
  UserManager.same_username userData u = Normal true ↔ same_name userData u.
Proof.
  unfold UserManager.same_username, same_name. split.
  - destruct (get_prop u "username") as [a|] eqn:Ha; simpl; [|done].
    destruct (get_prop userData "username") as [b|] eqn:Hb; simpl; [|done].
    intros [= Heq]. by exists a, b.
  - intros (a & b & -> & -> & Heq). simpl. by rewrite Heq.
Qed.

Lemma same_username_false userData u :
  UserManager.same_username userData u = Normal false ↔ other_name userData u.
Proof.
  unfold UserManager.same_username, other_name. split.
  - destruct (get_prop u "username") as [a|] eqn:Ha; simpl; [|done].
    destruct (get_prop userData "username") as [b|] eqn:Hb; simpl; [|done].
    intros [= Heq]. by exists a, b.
  - intros (a & b & -> & -> & Heq). simpl. by rewrite Heq.
Qed.

Lemma same_username_Abrupt userData u :
  (∃ e, UserManager.same_username userData u = Abrupt e) ↔ unreadable userData u.
Proof.
  unfold UserManager.same_username, unreadable. split.
  - intros [e He]. destruct u; simpl in He; try (by left);
      destruct userData; simpl in He; try done; by right.
  - intros [->| ->]; [by exists TypeError|].
    destruct u; simpl; by exists TypeError.
Qed.

Lemma scan_raises_first_index userData arr :
  scan_raises userData arr ↔
  ∃ e, first_index (UserManager.same_username userData) arr = Abrupt e.
Proof.
  rewrite first_index_Abrupt_iff. unfold scan_raises. split.
  - intros (n & u & Hu & [e He]%same_username_Abrupt & Hbefore).
    exists n, u, e. split_and!; [done..|].
    intros j v Hj Hv. apply same_username_false. by apply (Hbefore j v).
  - intros (n & u & e & Hu & He & Hbefore). exists n, u. split_and!; [done| |].
    + apply same_username_Abrupt. by exists e.
    + intros j v Hj Hv. apply same_username_false. by apply (Hbefore j v).
Qed.

Lemma updated_users_first_index userData arr l :
  updated_users userData arr l ↔
  ∃ o, first_index (UserManager.same_username userData) arr = Normal o
       ∧ l = match o with
             | Some n => <[n := spread2 (default VNull (arr !! n)) userData]> arr
             | None => arr ++ [userData]
             end.
Proof.
  unfold updated_users. split.
  - intros [(n & old & Hn & Hsame & Hbefore & ->)|[Hall ->]].
    + exists (Some n). rewrite Hn. split; [|done].
      apply first_index_Some_iff. exists old. split_and!; [done| |].
      * by apply same_username_true.
      * intros j v Hj Hv. apply same_username_false. by apply (Hbefore j v).
    + exists None. split; [|done]. apply first_index_None_iff.
      eapply Forall_impl; [|exact Hall]. intros u Hu. by apply same_username_false.
  - intros ([n|] & Ho & ->).
    + apply first_index_Some_iff in Ho as (old & Hn & Hsame & Hbefore).
      left. exists n, old. rewrite Hn. split_and!; [done| | |done].
      * by apply same_username_true.
      * intros j v Hj Hv. apply same_username_false. by apply (Hbefore j v).
    + right. split; [|done]. apply first_index_None_iff in Ho.
      eapply Forall_impl; [|exact Ho]. intros u Hu. by apply same_username_false.
Qed.

(** C1 (amended). [saveUser] always returns a boolean and never raises, and
    whenever it returns false the store is left as it was (no partial
    write). With [users] what [getAllUsers] returns, that is the decoded
    payload, or the empty sequence when there is no payload, when it is
    empty or when it cannot be decoded, the result is fixed in every case:
    false when [users] is not an array; false when the scan for the
    username throws; and otherwise true exactly when the store accepts the
    write of the updated sequence, which is then what the partition holds,
    every other key staying as it was. One of these cases always applies.
    Stored data that cannot be decoded is therefore not a failure:
    [saveUser] then stores the one-record sequence and returns true exactly
    when the store accepts that write. *)
Theorem saveUser_boolean_no_partial_write (userData : value) (st : gmap string string) :
  let users := decode_or_empty STORAGE_KEYS.USER_DATA st in
  ∃ b st', UserManager.saveUser userData st = (Normal b, st') ∧
    UserManager.getAllUsers st = (Normal users, st) ∧
    (b = false → st' = st) ∧
    ((∀ arr, users ≠ VArr arr) → b = false) ∧
    (∀ arr, users = VArr arr → scan_raises userData arr → b = false) ∧
    (∀ arr l, users = VArr arr → updated_users userData arr l →
       b = quota st STORAGE_KEYS.USER_DATA (JSON_stringify (VArr l)) ∧
       (b = true → st' = <[STORAGE_KEYS.USER_DATA := JSON_stringify (VArr l)]> st)) ∧
    ((∀ arr, users ≠ VArr arr)
     ∨ ∃ arr, users = VArr arr
              ∧ (scan_raises userData arr ∨ ∃ l, updated_users userData arr l)) ∧
    (∀ d, st !! STORAGE_KEYS.USER_DATA = Some d → JSON_parse d = None →
       users = VArr [] ∧
       b = quota st STORAGE_KEYS.USER_DATA (JSON_stringify (VArr [userData])) ∧
       (b = true →
        st' = <[STORAGE_KEYS.USER_DATA := JSON_stringify (VArr [userData])]> st)).
Proof.
  intros users. rewrite saveUser_eq, getAllUsers_eq. fold users.
  destruct users as [| | | |arr|] eqn:Hdec; cbn [as_array mbind completion_bind].
  1-4,6: exists false, st; split_and!; try done;
    [by left|intros d Hd Hp; subst users;
             by rewrite (decode_or_empty_undecodable _ _ _ Hd Hp) in Hdec].
  destruct (first_index (UserManager.same_username userData) arr) as [o|e] eqn:Ho;
    cbn [mbind completion_bind].
  - set (l := match o with Some n => _ | None => _ end).
    assert (Hl : updated_users userData arr l).
    { apply updated_users_first_index. by exists o. }
    assert (Huniq : ∀ arr' l', VArr arr = VArr arr' → updated_users userData arr' l' →
                      l' = l).
    { intros arr' l' [= <-] (o' & Ho' & ->)%updated_users_first_index.
      rewrite Ho in Ho'. by injection Ho' as <-. }
    assert (Hund : ∀ d, st !! STORAGE_KEYS.USER_DATA = Some d → JSON_parse d = None →
                     arr = [] ∧ l = [userData]).
    { intros d Hd Hp. subst users.
      rewrite (decode_or_empty_undecodable _ _ _ Hd Hp) in Hdec.
      injection Hdec as <-. simpl in Ho. injection Ho as <-. done. }
    destruct (quota st STORAGE_KEYS.USER_DATA (JSON_stringify (VArr l))) eqn:Hq.
    + eexists true, _; split_and!; try done.
      * intros Hnot. by destruct (Hnot arr).
      * intros arr' [= <-] [e He]%scan_raises_first_index. congruence.
      * intros arr' l' Harr Hl'. rewrite (Huniq arr' l' Harr Hl'). by rewrite Hq.
      * right. exists arr. split; [done|]. right. by exists l.
      * intros d Hd Hp. destruct (Hund d Hd Hp) as [-> Hone].
        rewrite <-Hone. by rewrite Hq.
    + exists false, st; split_and!; try done.
      * intros arr' l' Harr Hl'. rewrite (Huniq arr' l' Harr Hl'). by rewrite Hq.
      * right. exists arr. split; [done|]. right. by exists l.
      * intros d Hd Hp. destruct (Hund d Hd Hp) as [-> Hone].
        rewrite <-Hone. by rewrite Hq.
  - exists false, st; split_and!; try done.
    + intros arr' l' [= <-] (o' & Ho' & _)%updated_users_first_index. congruence.
    + right. exists arr. split; [done|]. left. apply scan_raises_first_index. by exists e.
    + intros d Hd Hp. subst users.
      rewrite (decode_or_empty_undecodable _ _ _ Hd Hp) in Hdec.
      injection Hdec as <-. done.
Qed.

Lemma authenticate_eq username password st :
  UserManager.authenticate username password st =
  match UserManager.getUser username st with
  | (Normal user, st') =>
      if truthy user then
        match get_prop user "password" with
        | Normal p =>
            (Normal (if strict_eq p (Some (VStr password)) then user else VNull), st')
        | Abrupt e => (Abrupt e, st')
        end
      else (Normal VNull, st')
  | (Abrupt e, st') => (Abrupt e, st')
  end.
Proof.
  unfold UserManager.authenticate. unfold mbind at 1, js_bind.
  destruct (UserManager.getUser username st) as [[user|e] st']; [|done].
  destruct (truthy user); [|done].
  unfold mbind, js_bind, lift.
  destruct (get_prop user "password") as [p|e]; [|done].
  by destruct (strict_eq p (Some (VStr password))).
Qed.

(** What [authenticate] returns on a store of records: the first record
    with the username when its password matches, [null] otherwise. *)
Lemma authenticate_records username password st l :
  UserManager.getAllUsers st = (Normal (VArr l), st) → Forall is_record l →
  ∃ o, first_index (UserManager.has_username username) l = Normal o ∧
    UserManager.authenticate username password st =
    (Normal match o ≫= (λ n, l !! n) with
            | Some (VObj m) =>
                if strict_eq (m !! "password") (Some (VStr password))
                then VObj m else VNull
            | _ => VNull
            end, st).
Proof.
  intros Hall Hrec. rewrite getAllUsers_eq in Hall. injection Hall as Hdec.
  destruct (first_index_records username l Hrec) as (o & Ho & Hfound).
  exists o. split; [done|].
  rewrite authenticate_eq, getUser_eq, Hdec. cbn [as_array mbind completion_bind].
  rewrite Ho. cbn [mbind completion_bind].
  destruct o as [n|]; simpl; [|done].
  destruct Hfound as (m & -> & _). simpl.
  by destruct (strict_eq (m !! "password") (Some (VStr password))).
Qed.

(** C7. On a user store (records, at most one per username),
    [authenticate username password] returns a stored record exactly when
    that record carries this username and this password, and returns [null]
    exactly when no stored record does; so with a different password, or
    with a different username, the record is not returned. *)
Theorem authenticate_iff_credentials_match
    (username password : string) (st : gmap string string) (l : list value) :
  UserManager.getAllUsers st = (Normal (VArr l), st) →
  UserStore l →
  ∃ r, UserManager.authenticate username password st = (Normal r, st) ∧
    (∀ u, r = u ∧ u ≠ VNull ↔ u ∈ l ∧ has_credentials username password u) ∧
    (r = VNull ↔ ¬ ∃ u, u ∈ l ∧ has_credentials username password u) ∧
    (∀ password', password' ≠ password → r ≠ VNull →
       UserManager.authenticate username password' st = (Normal VNull, st)) ∧
    (∀ username', username' ≠ username → r ≠ VNull →
       UserManager.authenticate username' password st ≠ (Normal r, st)).
Proof.
  intros Hall [Hrec Hindex].
  assert (Huniq : ∀ u v name, u ∈ l → v ∈ l →
            get_prop u "username" = Normal (Some (VStr name)) →
            get_prop v "username" = Normal (Some (VStr name)) → u = v).
  { intros u v name [i Hi]%list_elem_of_lookup_1 [j Hj]%list_elem_of_lookup_1 Hu Hv.
    assert (i = j) as -> by eauto. congruence. }
  clear Hindex.
  destruct (authenticate_records username password st l Hall Hrec) as (o & Ho & ->).
  destruct (first_index_records username l Hrec) as (o' & Ho' & Hfound).
  rewrite Ho in Ho'. injection Ho' as <-.
  assert (Hcases :
    (∃ m, o ≫= (λ n, l !! n) = Some (VObj m) ∧ VObj m ∈ l
          ∧ m !! "username" = Some (VStr username)) ∨
    (o ≫= (λ n, l !! n) = None
     ∧ ∀ m, VObj m ∈ l → m !! "username" ≠ Some (VStr username))).
  { destruct o as [n|]; simpl.
    - destruct Hfound as (m & Hn & Hm). left. exists m. split_and!; [done| |done].
      by eapply list_elem_of_lookup_2.
    - by right. }
  clear Ho Hfound.
  destruct Hcases as [(m & -> & Hin & Hname)|[-> Hnone]].
  - assert (Hsame : ∀ u pw, u ∈ l → has_credentials username pw u → u = VObj m).
    { intros u pw Hu (m' & -> & Hn' & _).
      apply (Huniq _ _ username); simpl; [done|done|by f_equal..]. }
    destruct (strict_eq (m !! "password") (Some (VStr password))) eqn:Hpw.
    + apply strict_eq_str in Hpw.
      eexists; split; [done|]. split_and!.
      * intros u. split.
        -- intros [<- _]. split; [done|]. by exists m.
        -- intros [Hu Hc]. by rewrite (Hsame u password Hu Hc).
      * split; [done|]. intros Hno. destruct Hno. exists (VObj m). split; [done|].
        by exists m.
      * intros password' Hne _.
        destruct (authenticate_records username password' st l Hall Hrec)
          as (o2 & Ho2 & ->).
        destruct (first_index_records username l Hrec) as (o3 & Ho3 & Hf3).
        rewrite Ho2 in Ho3. injection Ho3 as <-.
        destruct o2 as [n2|]; simpl; [|done].
        destruct Hf3 as (m2 & Hn2 & Hm2). rewrite Hn2.
        assert (VObj m2 = VObj m) as [= ->].
        { apply (Huniq _ _ username); simpl; [|done|by f_equal..].
          by eapply list_elem_of_lookup_2. }
        destruct (strict_eq (m !! "password") _) eqn:Hpw'; [|done].
        apply strict_eq_str in Hpw'. congruence.
      * intros username' Hne _.
        destruct (authenticate_records username' password st l Hall Hrec)
          as (o2 & Ho2 & ->).
        destruct (first_index_records username' l Hrec) as (o3 & Ho3 & Hf3).
        rewrite Ho2 in Ho3. injection Ho3 as <-.
        destruct o2 as [n2|]; simpl; [|done].
        destruct Hf3 as (m2 & -> & Hm2).
        destruct (strict_eq (m2 !! "password") _); [|done].
        intros [= ->]. congruence.
    + eexists; split; [done|]. split_and!; try done.
      * intros u. split; [by intros [<- ?]|].
        intros [Hu Hc]. pose proof (Hsame u password Hu Hc) as ->.
        destruct Hc as (m' & [= <-] & _ & Hp). apply strict_eq_str in Hp. congruence.
      * split; [|done]. intros _ (u & Hu & Hc). pose proof (Hsame u password Hu Hc) as ->.
        destruct Hc as (m' & [= <-] & _ & Hp). apply strict_eq_str in Hp. congruence.
  - eexists; split; [done|]. split_and!; try done.
    + intros u. split; [by intros [<- ?]|].
      intros [Hu (m & -> & Hn & _)]. by destruct (Hnone m Hu).
    + split; [|done]. intros _ (u & Hu & (m & -> & Hn & _)). by destruct (Hnone m Hu).
Qed.

Section merge.
Context `{!JsonLaws H}.
Variables (r : gmap string value) (name : string).
Hypothesis r_username : r !! "username" = Some (VStr name).

Lemma same_username_merged u :
  UserManager.same_username (VObj r) (spread2 u (VObj r)) = Normal true.
Proof using r_username.
  rewrite (same_username_has_username r name) by done.
  apply has_username_true_get_prop. simpl. f_equal.
  by apply lookup_union_Some_l.
Qed.

Lemma same_username_self :
  UserManager.same_username (VObj r) (VObj r) = Normal true.
Proof using r_username.
  rewrite (same_username_has_username r name) by done.
  apply has_username_true_get_prop. simpl. by f_equal.
Qed.

(** The list written by [saveUser (VObj r)] is a fixed point of a second
    [saveUser (VObj r)]. *)
Lemma updated_list_stable arr o :
  first_index (UserManager.same_username (VObj r)) arr = Normal o →
  let l := match o with
           | Some n => <[n := spread2 (default VNull (arr !! n)) (VObj r)]> arr
           | None => arr ++ [VObj r]
           end in
  ∃ n x, first_index (UserManager.same_username (VObj r)) l = Normal (Some n)
         ∧ l !! n = Some x
         ∧ x = VObj (r ∪ own_props (or_null (o ≫= λ n, arr !! n)))
         ∧ <[n := spread2 x (VObj r)]> l = l.
Proof using r_username.
  intros Ho. destruct o as [n|]; simpl.
  - destruct (first_index_Some _ _ _ Ho) as (u & Hu & Hpu & Hins).
    rewrite Hu. simpl.
    assert (Hlt : n < length arr) by by eapply lookup_lt_Some.
    exists n, (spread2 u (VObj r)). split_and!.
    + apply Hins, same_username_merged.
    + by apply list_lookup_insert_eq.
    + rewrite (same_username_has_username r name) in Hpu by done.
      by rewrite (has_username_true_truthy _ _ Hpu).
    + rewrite list_insert_insert_eq. f_equal. unfold spread2. simpl. f_equal.
      by rewrite (assoc_L (∪)), (idemp_L (∪)).
  - exists (length arr), (VObj r). split_and!.
    + apply first_index_None; [done|apply same_username_self].
    + by apply list_lookup_middle.
    + simpl. by rewrite map_union_empty.
    + unfold spread2. simpl. rewrite (idemp_L (∪)).
      apply list_insert_id. by apply list_lookup_middle.
Qed.

(** [saveUser] keeps the invariant of the user store. *)
Lemma updated_list_UserStore arr o :
  UserStore arr →
  first_index (UserManager.same_username (VObj r)) arr = Normal o →
  UserStore match o with
            | Some n => <[n := spread2 (default VNull (arr !! n)) (VObj r)]> arr
            | None => arr ++ [VObj r]
            end.
Proof using r_username.
  intros [Hrec Hindex] Ho.
  assert (Hp : ∀ u, UserManager.same_username (VObj r) u = Normal true ↔
                    get_prop u "username" = Normal (Some (VStr name))).
  { intros u. rewrite (same_username_has_username r name) by done.
    apply has_username_true_get_prop. }
  destruct o as [n|].
  - destruct (first_index_Some _ _ _ Ho) as (u & Hu & Hpu%Hp & _).
    rewrite Hu. cbn [default from_option id].
    assert (Hlt : n < length arr) by by eapply lookup_lt_Some.
    assert (Hx : get_prop (spread2 u (VObj r)) "username"
                 = Normal (Some (VStr name))).
    { apply Hp, same_username_merged. }
    split.
    + apply Forall_insert; [done|]. by eexists.
    + intros i j u' v' nm Hi Hj Hu' Hv'.
      destruct (decide (i = n)) as [->|Hin], (decide (j = n)) as [->|Hjn]; [done|..].
      * rewrite list_lookup_insert_eq in Hi by done. injection Hi as <-.
        rewrite list_lookup_insert_ne in Hj by done.
        rewrite Hx in Hu'. injection Hu' as <-. by apply (Hindex n j u v' name).
      * rewrite list_lookup_insert_eq in Hj by done. injection Hj as <-.
        rewrite list_lookup_insert_ne in Hi by done.
        rewrite Hx in Hv'. injection Hv' as <-. by apply (Hindex i n u' u name).
      * rewrite list_lookup_insert_ne in Hi, Hj by done. by apply (Hindex i j u' v' nm).
  - pose proof (first_index_None_Forall _ _ Ho) as Hnone.
    assert (Hfresh : ∀ i u, arr !! i = Some u →
              get_prop u "username" ≠ Normal (Some (VStr name))).
    { intros i u Hi Hu%Hp.
      pose proof (proj1 (Forall_lookup _ _) Hnone i u Hi) as Hfalse. simpl in Hfalse.
      congruence. }
    split.
    + apply Forall_app. split; [done|]. repeat constructor. by eexists.
    + intros i j u' v' nm Hi Hj Hu' Hv'.
      apply lookup_app_Some in Hi as [Hi|[Hilen Hi]];
        apply lookup_app_Some in Hj as [Hj|[Hjlen Hj]].
      * by apply (Hindex i j u' v' nm).
      * apply list_lookup_singleton_Some in Hj as [_ <-].
        simpl in Hv'. rewrite r_username in Hv'. injection Hv' as <-.
        by destruct (Hfresh i u' Hi).
      * apply list_lookup_singleton_Some in Hi as [_ <-].
        simpl in Hu'. rewrite r_username in Hu'. injection Hu' as <-.
        by destruct (Hfresh j v' Hj).
      * apply list_lookup_singleton_Some in Hi as [Hi0 _].
        apply list_lookup_singleton_Some in Hj as [Hj0 _]. lia.
Qed.

(** X3. [saveUser] of a record with a string username keeps the invariant
    of the user store: from a store of records with at most one record per
    username it leaves such a store, whether or not the write goes
    through. *)
Lemma saveUser_preserves_UserStore st l :
  UserManager.getAllUsers st = (Normal (VArr l), st) → UserStore l →
  ∃ l', UserManager.getAllUsers (UserManager.saveUser (VObj r) st).2
        = (Normal (VArr l'), (UserManager.saveUser (VObj r) st).2)
        ∧ UserStore l'.
Proof using r_username JsonLaws0.
  intros Hall Hstore. pose proof Hall as Hdec.
  rewrite getAllUsers_eq in Hdec. injection Hdec as Hdec.
  rewrite saveUser_eq, Hdec. cbn [as_array mbind completion_bind].
  destruct (first_index_records name l (proj1 Hstore)) as (o & Ho & _).
  rewrite <-(first_index_ext _ _ _
    (λ u, same_username_has_username r name u r_username)) in Ho.
  rewrite Ho. cbn [mbind completion_bind].
  destruct (quota _ _ _); cbn [snd].
  - eexists. rewrite getAllUsers_eq, decode_or_empty_insert. split; [done|].
    by apply updated_list_UserStore.
  - by exists l.
Qed.

(** C4. For a record [r] with a string username, a successful
    [saveUser r] followed by [getUser] of that username returns the shallow
    merge of [r] over the record previously returned for that username
    ([null] when there was none): every field of [r] has the value [r]
    gives it, every other field keeps its previous value. Saving [r] a
    second time leaves the store as the first save left it. *)
Theorem saveUser_getUser_merge_idempotent (st : gmap string string) :
  let st' := (UserManager.saveUser (VObj r) st).2 in
  ((UserManager.saveUser (VObj r) st).1 = Normal true →
   ∃ old merged,
     UserManager.getUser name st = (Normal old, st) ∧
     UserManager.getUser name st' = (Normal (VObj merged), st') ∧
     merged = r ∪ own_props old ∧
     (∀ k x, r !! k = Some x → merged !! k = Some x) ∧
     (∀ k, r !! k = None → merged !! k = own_props old !! k)) ∧
  (UserManager.saveUser (VObj r) st').2 = st'.
Proof using r_username JsonLaws0.
  intros st'. subst st'. rewrite saveUser_eq.
  destruct (decode_or_empty STORAGE_KEYS.USER_DATA st) as [| | | |arr|] eqn:Hdec;
    cbn [as_array mbind completion_bind fst snd];
    try (split; [done|]; rewrite saveUser_eq, Hdec; done).
  destruct (first_index (UserManager.same_username (VObj r)) arr) as [o|e] eqn:Ho;
    cbn [mbind completion_bind fst snd];
    [|split; [done|]; rewrite saveUser_eq, Hdec; simpl; by rewrite Ho].
  destruct (updated_list_stable arr o Ho) as (n & x & Hidx & Hx & Hxeq & Hfix).
  set (l := match o with Some n => _ | None => _ end) in *.
  destruct (quota st STORAGE_KEYS.USER_DATA (JSON_stringify (VArr l))) eqn:Hq;
    cbn [fst snd];
    [|split; [done|]; rewrite saveUser_eq, Hdec; simpl; rewrite Ho; simpl;
      fold l; by rewrite Hq].
  split.
  - intros _. exists (or_null (o ≫= λ n, arr !! n)), (r ∪ own_props (or_null (o ≫= λ n, arr !! n))).
    split_and!.
    + rewrite getUser_eq, Hdec. cbn [as_array mbind completion_bind].
      rewrite <-(first_index_ext _ _ _
        (λ u, same_username_has_username r name u r_username)).
      by rewrite Ho.
    + rewrite getUser_eq, decode_or_empty_insert. cbn [as_array mbind completion_bind].
      rewrite <-(first_index_ext _ _ _
        (λ u, same_username_has_username r name u r_username)).
      rewrite Hidx. cbn [mbind completion_bind option_bind]. rewrite Hx, Hxeq. done.
    + done.
    + intros k y Hk. by apply lookup_union_Some_l.
    + intros k Hk. by apply lookup_union_r.
  - rewrite saveUser_eq, decode_or_empty_insert. cbn [as_array mbind completion_bind].
    rewrite Hidx. cbn [mbind completion_bind]. rewrite Hx. cbn [default from_option id].
    rewrite Hfix.
    destruct (quota (<[_:=_]> st) _ _); cbn [snd]; [|done].
    apply insert_insert_eq.
Qed.
End merge.
End user_manager_claims.

(** ** GameStateManager: the snapshot *)

Section game_state.
Context `{H : Host}.

Lemma saveGameState_eq now gameState st :
  GameStateManager.saveGameState now gameState st =
  let payload := JSON_stringify (GameStateManager.stateToSave now gameState) in
  if quota st STORAGE_KEYS.GAME_STATE payload
  then (Normal true, <[STORAGE_KEYS.GAME_STATE := payload]> st)
  else (Normal false, st).
Proof.
  unfold GameStateManager.saveGameState, try_catch, mbind, js_bind,
    localStorage.setItem. simpl.
  by destruct (quota _ _ _).
Qed.

Lemma loadGameState_eq st :
  GameStateManager.loadGameState st =
  (Normal match st !! STORAGE_KEYS.GAME_STATE with
          | Some d => if String.eqb d "" then VNull else default VNull (JSON_parse d)
          | None => VNull
          end, st).
Proof.
  unfold GameStateManager.loadGameState, try_catch, mbind, js_bind,
    localStorage.getItem, truthy_item, parse, lift.
  destruct (st !! STORAGE_KEYS.GAME_STATE) as [d|]; simpl; [|done].
  destruct (String.eqb d ""); simpl; [done|].
  by destruct (JSON_parse d).
Qed.

(** C5. A successful [saveGameState(s)] at time [now] followed by
    [loadGameState()] returns [s] extended with [timestamp] (the ISO string of
    [now]) and [version] ("1.0"), and [hasSavedGame()] is then true;
    [hasSavedGame()] is false on a store in which no snapshot was saved. *)
Theorem saveGameState_loadGameState_roundtrip `{!JsonLaws H}
    (s : gmap string value) (now : Z) (st st' : gmap string string) :
  GameStateManager.saveGameState now (VObj s) st = (Normal true, st') →
  GameStateManager.loadGameState st'
  = (Normal (VObj (<["version" := VStr "1.0"]>
                     (<["timestamp" := VStr (toISOString now)]> s))), st')
  ∧ GameStateManager.hasSavedGame st' = (Normal true, st')
  ∧ (∀ st0 : gmap string string, st0 !! STORAGE_KEYS.GAME_STATE = None →
       GameStateManager.hasSavedGame st0 = (Normal false, st0))
  ∧ GameStateManager.hasSavedGame (∅ : gmap string string) = (Normal false, ∅).
Proof.
  rewrite saveGameState_eq. cbn zeta.
  destruct (quota _ _ _); [|done]. intros [= <-]. split_and!.
  - rewrite loadGameState_eq, lookup_insert_eq, stringify_nonempty.
    by rewrite parse_stringify.
  - unfold GameStateManager.hasSavedGame, mbind, js_bind, localStorage.getItem.
    by rewrite lookup_insert_eq.
  - intros st0 Hst0.
    unfold GameStateManager.hasSavedGame, mbind, js_bind, localStorage.getItem.
    by rewrite Hst0.
  - done.
Qed.
End game_state.

(** ** Clearing a partition *)

(** C8. [clearGameState] and [clearHistory] never raise, leave their
    partition key absent, and a second call in a row changes nothing: the
    store after two calls is the store after one. *)
Theorem clear_idempotent (st : gmap string string) :
  let st1 := (GameStateManager.clearGameState st).2 in
  let st2 := (GameHistoryManager.clearHistory st).2 in
  GameStateManager.clearGameState st = (Normal (), st1)
  ∧ GameStateManager.clearGameState st1 = (Normal (), st1)
  ∧ st1 !! STORAGE_KEYS.GAME_STATE = None
  ∧ GameHistoryManager.clearHistory st = (Normal (), st2)
  ∧ GameHistoryManager.clearHistory st2 = (Normal (), st2)
  ∧ st2 !! STORAGE_KEYS.GAME_HISTORY = None.
Proof.
  unfold GameStateManager.clearGameState, GameHistoryManager.clearHistory,
    localStorage.removeItem. cbn [snd].
  split_and!; try done.
  - f_equal. apply delete_delete_eq.
  - apply lookup_delete_eq.
  - f_equal. apply delete_delete_eq.
  - apply lookup_delete_eq.
Qed.

(** ** SettingsManager *)

Section settings.
Context `{H : Host}.

Lemma loadSettings_eq st :
  SettingsManager.loadSettings st =
  (Normal match st !! STORAGE_KEYS.SETTINGS with
          | Some d =>
              if String.eqb d "" then SettingsManager.defaults
              else match JSON_parse d with
                   | Some stored => spread2 SettingsManager.defaults stored
                   | None => SettingsManager.defaults
                   end
          | None => SettingsManager.defaults
          end, st).
Proof.
  unfold SettingsManager.loadSettings, try_catch, mbind, js_bind,
    localStorage.getItem, truthy_item, parse, lift.
  destruct (st !! STORAGE_KEYS.SETTINGS) as [d|]; simpl; [|done].
  destruct (String.eqb d ""); simpl; [done|].
  by destruct (JSON_parse d).
Qed.

Lemma saveSettings_eq settings st :
  SettingsManager.saveSettings settings st =
  (Normal (),
   if quota st STORAGE_KEYS.SETTINGS (JSON_stringify settings)
   then <[STORAGE_KEYS.SETTINGS := JSON_stringify settings]> st else st).
Proof.
  unfold SettingsManager.saveSettings, try_catch, localStorage.setItem.
  by destruct (quota _ _ _).
Qed.

(** C6. [loadSettings] returns exactly the default record when the settings
    key is absent and when the stored payload cannot be decoded; when a
    payload [stored] was decoded it returns the shallow merge of [stored]
    over the defaults: each stored field has its stored value, each other
    field its default. The result always carries the three known fields.
    After an accepted [saveSettings({difficulty: "hard"})] it is
    [{soundEnabled: true, autoSave: true, difficulty: "hard"}]. *)
Theorem loadSettings_defaults_merge `{!JsonLaws H} (st : gmap string string) :
  (st !! STORAGE_KEYS.SETTINGS = None →
     SettingsManager.loadSettings st
     = (Normal (VObj {[ "soundEnabled" := VBool true; "autoSave" := VBool true;
                        "difficulty" := VStr "medium" ]}), st))
  ∧ (∀ d, st !! STORAGE_KEYS.SETTINGS = Some d → JSON_parse d = None →
       SettingsManager.loadSettings st = (Normal SettingsManager.defaults, st))
  ∧ (∀ d stored, st !! STORAGE_KEYS.SETTINGS = Some d → d ≠ "" →
       JSON_parse d = Some stored →
       ∃ m, SettingsManager.loadSettings st = (Normal (VObj m), st)
            ∧ m = own_props stored ∪ own_props SettingsManager.defaults
            ∧ (∀ k x, own_props stored !! k = Some x → m !! k = Some x)
            ∧ (∀ k, own_props stored !! k = None →
                 m !! k = own_props SettingsManager.defaults !! k))
  ∧ (∃ m, SettingsManager.loadSettings st = (Normal (VObj m), st)
          ∧ is_Some (m !! "soundEnabled") ∧ is_Some (m !! "autoSave")
          ∧ is_Some (m !! "difficulty"))
  ∧ (let hard := VObj {[ "difficulty" := VStr "hard" ]} in
     quota st STORAGE_KEYS.SETTINGS (JSON_stringify hard) = true →
     SettingsManager.loadSettings (SettingsManager.saveSettings hard st).2
     = (Normal (VObj {[ "soundEnabled" := VBool true; "autoSave" := VBool true;
                        "difficulty" := VStr "hard" ]}),
        (SettingsManager.saveSettings hard st).2)).
Proof.
  split_and!.
  - intros Hst. rewrite loadSettings_eq, Hst. do 2 f_equal.
  - intros d Hd Hp. rewrite loadSettings_eq, Hd, Hp. by destruct (String.eqb d "").
  - intros d stored Hd Hne Hp. rewrite loadSettings_eq, Hd, Hp.
    destruct (String.eqb_spec d ""); [done|].
    eexists. split_and!; [done..| |].
    + intros k x Hk. by apply lookup_union_Some_l.
    + intros k Hk. by apply lookup_union_r.
  - rewrite loadSettings_eq.
    assert (Hdef : ∀ k, is_Some (own_props SettingsManager.defaults !! k) →
              ∀ stored, is_Some ((own_props stored ∪ own_props SettingsManager.defaults) !! k)).
    { intros k [x Hx] stored.
      destruct (own_props stored !! k) as [y|] eqn:Hy.
      - exists y. by apply lookup_union_Some_l.
      - exists x. by rewrite lookup_union_r. }
    assert (Hd1 : is_Some (own_props SettingsManager.defaults !! "soundEnabled"))
      by by eexists.
    assert (Hd2 : is_Some (own_props SettingsManager.defaults !! "autoSave"))
      by by eexists.
    assert (Hd3 : is_Some (own_props SettingsManager.defaults !! "difficulty"))
      by by eexists.
    destruct (st !! STORAGE_KEYS.SETTINGS) as [d|]; [|by eexists].
    destruct (String.eqb d ""); [by eexists|].
    destruct (JSON_parse d) as [stored|]; [|by eexists].
    eexists. split; [done|]. split_and!; by apply Hdef.
  - intros hard Hq. rewrite saveSettings_eq, Hq. cbn [snd].
    rewrite loadSettings_eq, lookup_insert_eq, stringify_nonempty, parse_stringify.
    do 2 f_equal.
Qed.
End settings.

(** ** GameHistoryManager *)

Section game_history.
Context `{H : Host}.

Lemma addGameToHistory_eq now1 now2 gameData st :
  GameHistoryManager.addGameToHistory now1 now2 gameData st =
  (Normal (),
   match decode_or_empty STORAGE_KEYS.GAME_HISTORY st with
   | VArr arr =>
       let payload :=
         JSON_stringify
           (VArr (take 50 (GameHistoryManager.gameRecord now1 now2 gameData :: arr))) in
       if quota st STORAGE_KEYS.GAME_HISTORY payload
       then <[STORAGE_KEYS.GAME_HISTORY := payload]> st else st
   | _ => st
   end).
Proof.
  unfold GameHistoryManager.addGameToHistory, try_catch.
  unfold mbind at 1, js_bind. rewrite getHistory_eq.
  destruct (decode_or_empty STORAGE_KEYS.GAME_HISTORY st) as [| | | |arr|]; try done.
  unfold mbind, js_bind, lift, as_array, localStorage.setItem. cbn zeta.
  assert ((if (50 <? length (GameHistoryManager.gameRecord now1 now2 gameData :: arr))%nat
           then take 50 (GameHistoryManager.gameRecord now1 now2 gameData :: arr)
           else GameHistoryManager.gameRecord now1 now2 gameData :: arr)
          = take 50 (GameHistoryManager.gameRecord now1 now2 gameData :: arr)) as ->.
  { destruct (Nat.ltb_spec 50 (length (GameHistoryManager.gameRecord now1 now2 gameData :: arr)));
      [done|]. by rewrite take_ge. }
  by destruct (quota _ _ _).
Qed.

(** C9. When the stored history payload cannot be decoded, [getHistory]
    returns the empty sequence, and the next [addGameToHistory], whose write
    the store accepts, replaces the whole partition by the one-entry list of
    the new entry; the call returns normally, reporting nothing. *)
Theorem addGameToHistory_replaces_undecodable
    (now1 now2 : Z) (gameData : value) (st : gmap string string) (d : string) :
  st !! STORAGE_KEYS.GAME_HISTORY = Some d →
  JSON_parse d = None →
  let entry := GameHistoryManager.gameRecord now1 now2 gameData in
  quota st STORAGE_KEYS.GAME_HISTORY (JSON_stringify (VArr [entry])) = true →
  GameHistoryManager.getHistory st = (Normal (VArr []), st)
  ∧ GameHistoryManager.addGameToHistory now1 now2 gameData st
    = (Normal (), <[STORAGE_KEYS.GAME_HISTORY := JSON_stringify (VArr [entry])]> st)
  ∧ (JsonLaws H →
     GameHistoryManager.getHistory
       (GameHistoryManager.addGameToHistory now1 now2 gameData st).2
     = (Normal (VArr [entry]),
        (GameHistoryManager.addGameToHistory now1 now2 gameData st).2)).
Proof.
  intros Hd Hp entry Hq.
  assert (Hadd : GameHistoryManager.addGameToHistory now1 now2 gameData st
    = (Normal (), <[STORAGE_KEYS.GAME_HISTORY := JSON_stringify (VArr [entry])]> st)).
  { rewrite addGameToHistory_eq, (decode_or_empty_undecodable _ _ _ Hd Hp).
    cbn zeta. cbn [take]. fold entry. by rewrite Hq. }
  split_and!.
  - by rewrite getHistory_eq, (decode_or_empty_undecodable _ _ _ Hd Hp).
  - done.
  - intros Hlaws. rewrite Hadd. cbn [snd].
    by rewrite getHistory_eq, decode_or_empty_insert.
Qed.

Section bounded.
Context `{!JsonLaws H}.

Lemma add_games_snoc calls c st :
  add_games (calls ++ [c]) st =
  (GameHistoryManager.addGameToHistory (call_now1 c) (call_now2 c) (call_data c)
     (add_games calls st)).2.
Proof. unfold add_games. by rewrite foldl_app. Qed.

Lemma addGameToHistory_bounded now1 now2 gameData st :
  history_bounded st →
  history_bounded (GameHistoryManager.addGameToHistory now1 now2 gameData st).2.
Proof using JsonLaws0.
  intros (l & Hl & Hlen). rewrite getHistory_eq in Hl. injection Hl as Hl.
  rewrite addGameToHistory_eq, Hl. cbn zeta. cbn [snd].
  destruct (quota _ _ _).
  - eexists. rewrite getHistory_eq, decode_or_empty_insert. split; [done|].
    rewrite length_take. lia.
  - exists l. by rewrite getHistory_eq, Hl.
Qed.

Lemma add_games_bounded calls st :
  history_bounded st → history_bounded (add_games calls st).
Proof using JsonLaws0.
  intros Hst. induction calls as [|c calls IH] using rev_ind; [done|].
  rewrite add_games_snoc. by apply addGameToHistory_bounded.
Qed.

Lemma take_cons_take (x : value) (l : list value) n :
  take (S n) (x :: take (S n) l) = take (S n) (x :: l).
Proof. cbn [take]. f_equal. rewrite take_take. f_equal. lia. Qed.

Lemma add_games_accepted calls st l0 :
  (∀ s k v, quota s k v = true) →
  GameHistoryManager.getHistory st = (Normal (VArr l0), st) →
  length l0 ≤ 50 →
  GameHistoryManager.getHistory (add_games calls st)
  = (Normal (VArr (take 50 (reverse (entry_of <$> calls) ++ l0))), add_games calls st).
Proof using JsonLaws0.
  intros Hq Hl0 Hlen. induction calls as [|c calls IH] using rev_ind.
  - simpl. rewrite Hl0. by rewrite take_ge.
  - rewrite add_games_snoc, addGameToHistory_eq.
    rewrite getHistory_eq in IH. injection IH as ->.
    cbn zeta. rewrite Hq. cbn [snd].
    rewrite getHistory_eq, decode_or_empty_insert.
    rewrite fmap_app, reverse_app. cbn [fmap list_fmap reverse app].
    rewrite reverse_singleton. cbn [app].
    by rewrite take_cons_take.
Qed.

(** C2. From a store whose history satisfies the invariant, after any
    sequence of [addGameToHistory] calls [getHistory] returns a sequence of
    at most 50 entries. When the store accepts the writes that sequence is
    the entries added, newest first, followed by the initial entries, cut
    after the first 50: each call puts its entry at index 0. In particular
    60 calls on a store without history leave exactly 50 entries, the first
    of which is the entry of the 60th call. *)
Theorem history_bounded_newest_first
    (calls : list history_call) (st : gmap string string) (l0 : list value) :
  GameHistoryManager.getHistory st = (Normal (VArr l0), st) →
  length l0 ≤ 50 →
  history_bounded (add_games calls st)
  ∧ ((∀ s k v, quota s k v = true) →
     GameHistoryManager.getHistory (add_games calls st)
     = (Normal (VArr (take 50 (reverse (entry_of <$> calls) ++ l0))),
        add_games calls st)
     ∧ (∀ c, list.last calls = Some c →
          take 50 (reverse (entry_of <$> calls) ++ l0) !! 0 = Some (entry_of c))
     ∧ (∀ calls60 c60 (st0 : gmap string string),
          st0 !! STORAGE_KEYS.GAME_HISTORY = None →
          length calls60 = 60 → list.last calls60 = Some c60 →
          ∃ l, GameHistoryManager.getHistory (add_games calls60 st0)
               = (Normal (VArr l), add_games calls60 st0)
               ∧ length l = 50 ∧ l !! 0 = Some (entry_of c60))).
Proof using JsonLaws0.
  intros Hl0 Hlen. split.
  { apply add_games_bounded. by exists l0. }
  intros Hq.
  assert (Hhead : ∀ (cs : list history_call) c l, list.last cs = Some c →
            take 50 (reverse (entry_of <$> cs) ++ l) !! 0 = Some (entry_of c)).
  { intros cs c l Hlast. destruct cs as [|c' cs] using rev_ind; [done|].
    rewrite last_snoc in Hlast. injection Hlast as ->.
    by rewrite fmap_app, reverse_app. }
  split_and!.
  - by apply add_games_accepted.
  - intros c. apply Hhead.
  - intros calls60 c60 st0 Hst0 Hlen60 Hlast.
    eexists. split; [|split].
    + apply (add_games_accepted _ _ []); [done| |simpl; lia].
      by rewrite getHistory_eq, (decode_or_empty_absent _ _ Hst0).
    + rewrite length_take, length_app, length_reverse, length_fmap, Hlen60.
      simpl. lia.
    + by apply Hhead.
Qed.
End bounded.
End game_history.

(** ** The debounced auto-save *)

Section auto_save.
Context `{H : Host}.

Lemma one_slot_cases w :
  one_slot w →
  timers w = ∅ ∨ ∃ h tm, timers w = {[h := tm]} ∧ timeout w = Some h.
Proof.
  intros Hinv. destruct (timeout w) as [h|] eqn:Hto.
  - destruct (timers w !! h) as [tm|] eqn:Hh.
    + right. exists h, tm. split; [|done]. apply map_eq. intros h'.
      destruct (decide (h = h')) as [<-|Hne].
      * by rewrite lookup_singleton_eq.
      * rewrite lookup_singleton_ne by done.
        destruct (timers w !! h') eqn:Hh'; [|done].
        assert (Some h = Some h') by (rewrite <-Hto; apply Hinv; by eexists).
        congruence.
    + left. apply map_eq. intros h'. rewrite lookup_empty.
      destruct (timers w !! h') eqn:Hh'; [|done].
      assert (Some h = Some h') by (rewrite <-Hto; apply Hinv; by eexists).
      congruence.
  - left. apply map_eq. intros h'. rewrite lookup_empty.
    destruct (timers w !! h') eqn:Hh'; [|done].
    assert (timeout w = Some h') by (apply Hinv; by eexists). congruence.
Qed.

Lemma one_slot_size w : one_slot w → size (timers w) ≤ 1.
Proof.
  intros [->|(h & tm & -> & _)]%one_slot_cases.
  - rewrite map_size_empty. lia.
  - rewrite map_size_singleton. lia.
Qed.

Lemma one_slot_boot t0 st0 : one_slot (boot t0 st0).
Proof. intros h. simpl. rewrite lookup_empty. by intros [? ?]. Qed.

(** [autoSave] leaves exactly the timer it schedules. *)
Lemma autoSave_timers g w :
  one_slot w →
  timers (GameStateManager.autoSave g w)
  = {[next_handle w := mkTimer (clock w + 2000) g]}
  ∧ timeout (GameStateManager.autoSave g w) = Some (next_handle w).
Proof.
  intros Hinv. unfold GameStateManager.autoSave.
  destruct (one_slot_cases w Hinv) as [Hempty|(h & tm & Hone & Hto)].
  - destruct (timeout w) as [h|]; simpl; rewrite Hempty.
    + by rewrite delete_empty, insert_empty.
    + by rewrite insert_empty.
  - rewrite Hto. simpl. rewrite Hone.
    by rewrite delete_singleton_eq, insert_empty.
Qed.

Lemma one_slot_autoSave g w : one_slot w → one_slot (GameStateManager.autoSave g w).
Proof.
  intros Hinv h. destruct (autoSave_timers g w Hinv) as [-> ->].
  intros [tm [-> _]%lookup_singleton_Some]. done.
Qed.

Lemma one_slot_fire h tm w : one_slot w → one_slot (fire h tm w).
Proof.
  intros Hinv h'. simpl. intros [tm' [_ Hh']%lookup_delete_Some].
  apply Hinv. by eexists.
Qed.

Lemma one_slot_fire_due fuel target w :
  one_slot w → one_slot (fire_due fuel target w).
Proof.
  revert w. induction fuel as [|fuel IH]; intros w Hinv; simpl; [done|].
  destruct (next_due target (timers w)) as [[h tm]|]; [|done].
  by apply IH, one_slot_fire.
Qed.

Lemma one_slot_step w a : one_slot w → one_slot (step w a).
Proof.
  intros Hinv. destruct a as [g|g| |f|dt]; simpl.
  - by apply one_slot_autoSave.
  - done.
  - done.
  - done.
  - intros h. simpl. by apply one_slot_fire_due.
Qed.

Lemma one_slot_run w acts : one_slot w → one_slot (run w acts).
Proof.
  revert w. induction acts as [|a acts IH]; intros w Hinv; simpl; [done|].
  by apply IH, one_slot_step.
Qed.

Lemma next_due_singleton target h tm :
  next_due target {[h := tm]}
  = if (deadline tm <=? target)%Z then Some (h, tm) else None.
Proof. unfold next_due. by rewrite map_fold_singleton. Qed.

(** Time passing over a single pending timer: nothing happens before its
    deadline; from the deadline on, its callback has run once, at the
    deadline. *)
Lemma elapse_single dt w h tm :
  timers w = {[h := tm]} → (clock w ≤ deadline tm)%Z →
  if (deadline tm <=? clock w + Z.max 0 dt)%Z then
    let res := GameStateManager.saveGameState (deadline tm) (captured tm) (storage w) in
    timers (elapse dt w) = ∅
    ∧ storage (elapse dt w) = res.2
    ∧ autosaved (elapse dt w)
      = autosaved w ++ [(deadline tm, captured tm,
                         match res.1 with Normal b => b | Abrupt _ => false end)]
    ∧ timeout (elapse dt w) = timeout w
    ∧ clock (elapse dt w) = (clock w + Z.max 0 dt)%Z
  else
    timers (elapse dt w) = timers w
    ∧ storage (elapse dt w) = storage w
    ∧ autosaved (elapse dt w) = autosaved w
    ∧ timeout (elapse dt w) = timeout w
    ∧ clock (elapse dt w) = (clock w + Z.max 0 dt)%Z.
Proof.
  intros Hone Hclock. unfold elapse. rewrite Hone, map_size_singleton.
  cbn [fire_due]. rewrite Hone, next_due_singleton.
  destruct (deadline tm <=? clock w + Z.max 0 dt)%Z; [|by rewrite <-Hone].
  cbn -[GameStateManager.saveGameState]. rewrite Hone, delete_singleton_eq.
  by rewrite Z.max_r by done.
Qed.

Lemma autoSave_frame g w :
  storage (GameStateManager.autoSave g w) = storage w
  ∧ autosaved (GameStateManager.autoSave g w) = autosaved w
  ∧ clock (GameStateManager.autoSave g w) = clock w.
Proof. unfold GameStateManager.autoSave. by destruct (timeout w). Qed.

Lemma saveGameState_normal now g st :
  ∃ ok, GameStateManager.saveGameState now g st
        = (Normal ok, (GameStateManager.saveGameState now g st).2)
        ∧ (GameStateManager.saveGameState now g st).1 = Normal ok.
Proof.
  rewrite saveGameState_eq. cbn zeta. destruct (quota _ _ _); by eexists.
Qed.

(** Before the quiet interval has elapsed nothing is written. *)
Lemma autoSave_quiet g w dt :
  one_slot w → (dt < 2000)%Z →
  let w' := elapse dt (GameStateManager.autoSave g w) in
  autosaved w' = autosaved w ∧ storage w' = storage w
  ∧ timers w' = timers (GameStateManager.autoSave g w)
  ∧ timeout w' = timeout (GameStateManager.autoSave g w)
  ∧ clock w' = (clock w + Z.max 0 dt)%Z.
Proof.
  intros Hinv Hdt. destruct (autoSave_timers g w Hinv) as [Hone Hto].
  destruct (autoSave_frame g w) as (Hst & Hlog & Hclock).
  pose proof (elapse_single dt _ _ _ Hone) as Hel.
  rewrite Hclock in Hel. cbn [deadline captured] in Hel.
  destruct (Z.leb_spec (clock w + 2000) (clock w + Z.max 0 dt)); [lia|].
  destruct Hel as (Ht & Hs & Hl & Hto' & Hc); [lia|]. cbn zeta.
  by rewrite Ht, Hs, Hl, Hto', Hc, Hst, Hlog.
Qed.

(** Once the interval has elapsed the callback has run exactly once, at the
    deadline, on the state of this call. *)
Lemma autoSave_fires g w dt :
  one_slot w → (2000 ≤ dt)%Z →
  let w' := elapse dt (GameStateManager.autoSave g w) in
  ∃ ok,
    GameStateManager.saveGameState (clock w + 2000) g (storage w)
    = (Normal ok, storage w')
    ∧ autosaved w' = autosaved w ++ [((clock w + 2000)%Z, g, ok)]
    ∧ timers w' = ∅
    ∧ clock w' = (clock w + dt)%Z.
Proof.
  intros Hinv Hdt. destruct (autoSave_timers g w Hinv) as [Hone Hto].
  destruct (autoSave_frame g w) as (Hst & Hlog & Hclock).
  pose proof (elapse_single dt _ _ _ Hone) as Hel.
  rewrite Hclock, Hst, Hlog in Hel. cbn [deadline captured] in Hel.
  destruct (Z.leb_spec (clock w + 2000) (clock w + Z.max 0 dt)); [|lia].
  destruct Hel as (Ht & Hs & Hl & _ & Hc); [lia|].
  destruct (saveGameState_normal (clock w + 2000) g (storage w)) as (ok & Heq & Hok).
  exists ok. cbn zeta. rewrite Ht, Hs, Hl, Hc, Hok. split_and!; [done..|lia].
Qed.

(** C3. In every state the page can reach at most one [autoSave] timer is
    pending. A call [autoSave(g)] replaces whatever was pending by a single
    timer due 2000 ms later that holds [g], and writes nothing itself. While
    less than 2000 ms have passed since that call nothing is written; once
    2000 ms have passed the callback has run exactly once, at the deadline,
    as [saveGameState(g)]. So [autoSave(s1)], 500 ms, [autoSave(s2)], 2100 ms
    performs exactly one write, of [s2], 2000 ms after the second call. *)
Theorem autoSave_trailing_debounce
    (t0 : Z) (st0 : gmap string string) (acts : list action) (g s1 s2 : value)
    (dt : Z) :
  let w := run (boot t0 st0) acts in
  let w1 := GameStateManager.autoSave g w in
  size (timers w) ≤ 1
  ∧ (∃ h, timers w1 = {[h := mkTimer (clock w + 2000) g]} ∧ timeout w1 = Some h)
  ∧ (storage w1 = storage w ∧ autosaved w1 = autosaved w)
  ∧ ((dt < 2000)%Z →
     autosaved (elapse dt w1) = autosaved w ∧ storage (elapse dt w1) = storage w
     ∧ timers (elapse dt w1) = timers w1)
  ∧ ((2000 ≤ dt)%Z →
     ∃ ok, GameStateManager.saveGameState (clock w + 2000) g (storage w)
           = (Normal ok, storage (elapse dt w1))
           ∧ autosaved (elapse dt w1) = autosaved w ++ [((clock w + 2000)%Z, g, ok)]
           ∧ timers (elapse dt w1) = ∅)
  ∧ (let w3 := run w [AutoSave s1; Elapse 500; AutoSave s2] in
     let w4 := step w3 (Elapse 2100) in
     ∃ ok, autosaved w3 = autosaved w ∧ storage w3 = storage w
           ∧ ((dt < 2000)%Z → autosaved (step w3 (Elapse dt)) = autosaved w
                               ∧ storage (step w3 (Elapse dt)) = storage w)
           ∧ GameStateManager.saveGameState (clock w + 2500) s2 (storage w)
             = (Normal ok, storage w4)
           ∧ autosaved w4 = autosaved w ++ [((clock w + 2500)%Z, s2, ok)]
           ∧ timers w4 = ∅
           ∧ (let payload :=
                JSON_stringify (GameStateManager.stateToSave (clock w + 2500) s2) in
              quota (storage w) STORAGE_KEYS.GAME_STATE payload = true →
              ok = true
              ∧ storage w4 = <[STORAGE_KEYS.GAME_STATE := payload]> (storage w))).
Proof.
  intros w w1.
  assert (Hinv : one_slot w) by apply one_slot_run, one_slot_boot.
  split_and!.
  - by apply one_slot_size.
  - destruct (autoSave_timers g w Hinv) as [? ?]. by eexists.
  - by destruct (autoSave_frame g w) as (? & ? & ?).
  - by destruct (autoSave_frame g w) as (? & ? & ?).
  - intros Hdt. by destruct (autoSave_quiet g w dt Hinv Hdt) as (? & ? & ? & _).
  - intros Hdt. destruct (autoSave_fires g w dt Hinv Hdt) as (ok & ? & ? & ? & _).
    by exists ok.
  - cbn [run foldl step].
    set (wa := GameStateManager.autoSave s1 w).
    set (wb := elapse 500 wa).
    assert (Hb : one_slot wb) by by apply (one_slot_step wa (Elapse 500)), one_slot_autoSave.
    destruct (autoSave_quiet s1 w 500 Hinv) as (Hlogb & Hstb & _ & _ & Hclockb); [lia|].
    fold wa wb in Hlogb, Hstb, Hclockb.
    destruct (autoSave_frame s2 wb) as (Hstc & Hlogc & _).
    destruct (autoSave_fires s2 wb 2100 Hb) as (ok & Hsave & Hlog & Htimers & _); [lia|].
    assert (Hdue : (clock wb + 2000 = clock w + 2500)%Z) by (rewrite Hclockb; lia).
    rewrite Hdue, Hstb in Hsave. rewrite Hdue, Hlogb in Hlog.
    exists ok. rewrite Hstc, Hlogc, Hstb, Hlogb.
    split_and!; [done..| |done|done|done|].
    + intros Hdt. destruct (autoSave_quiet s2 wb dt Hb Hdt) as (Hl & Hs & _).
      by rewrite Hl, Hs, Hstb, Hlogb.
    + intros Hq. rewrite saveGameState_eq in Hsave. cbn zeta in Hsave.
      rewrite Hq in Hsave. injection Hsave as Hok Hst.
      split; [exact (eq_sym Hok)|exact (eq_sym Hst)].
Qed.

Lemma hasSavedGame_eq st :
  GameStateManager.hasSavedGame st
  = (Normal (bool_decide (st !! STORAGE_KEYS.GAME_STATE ≠ None)), st).
Proof. done. Qed.

(** Apart from [autoSave], no action removes a pending timer without
    running its callback. *)
Lemma pending_kept_or_run w a h tm :
  one_slot w → (∀ g, a ≠ AutoSave g) →
  timers w !! h = Some tm →
  timers (step w a) !! h = Some tm
  ∨ ∃ t ok, autosaved (step w a) = autosaved w ++ [(t, captured tm, ok)].
Proof.
  intros Hinv Hnot Hh. destruct a as [g|g| |f|dt]; simpl; try by left.
  { by destruct (Hnot g). }
  destruct (one_slot_cases w Hinv) as [Hempty|(h' & tm' & Hone & _)].
  { by rewrite Hempty, lookup_empty in Hh. }
  rewrite Hone in Hh. apply lookup_singleton_Some in Hh as [-> ->].
  unfold elapse. rewrite Hone, map_size_singleton. cbn [fire_due].
  rewrite Hone, next_due_singleton.
  destruct (deadline tm <=? clock w + Z.max 0 dt)%Z.
  - right. cbn -[GameStateManager.saveGameState]. by eexists _, _.
  - left. cbn. by rewrite Hone, lookup_singleton_eq.
Qed.

(** C10. A pending [autoSave] timer survives [clearGameState]: after
    [autoSave(g)], less than 2000 ms, and [clearGameState()], no snapshot
    is stored and the timer is still pending; when the 2000 ms have passed
    its write, which the store accepts, has created the snapshot again, so
    [hasSavedGame()] is true. No action other than [autoSave] removes a
    pending timer without running its callback. *)
Theorem autoSave_survives_clearGameState
    (t0 : Z) (st0 : gmap string string) (acts : list action) (g : value)
    (dt1 dt2 : Z) :
  let w := run (boot t0 st0) acts in
  let w1 := run w [AutoSave g; Elapse dt1; ClearGameState] in
  let w2 := step w1 (Elapse dt2) in
  let payload :=
    JSON_stringify (GameStateManager.stateToSave (clock w + 2000) g) in
  (0 ≤ dt1 < 2000)%Z → (2000 ≤ dt1 + dt2)%Z →
  quota (storage w1) STORAGE_KEYS.GAME_STATE payload = true →
  GameStateManager.hasSavedGame (storage w1) = (Normal false, storage w1)
  ∧ (∃ h, timers w1 = {[h := mkTimer (clock w + 2000) g]})
  ∧ storage w2 = <[STORAGE_KEYS.GAME_STATE := payload]> (storage w1)
  ∧ GameStateManager.hasSavedGame (storage w2) = (Normal true, storage w2)
  ∧ autosaved w2 = autosaved w ++ [((clock w + 2000)%Z, g, true)]
  ∧ (∀ acts' a h tm,
       let w' := run (boot t0 st0) acts' in
       (∀ g', a ≠ AutoSave g') → timers w' !! h = Some tm →
       timers (step w' a) !! h = Some tm
       ∨ ∃ t ok, autosaved (step w' a) = autosaved w' ++ [(t, captured tm, ok)]).
Proof.
  intros w w1 w2 payload Hdt1 Hdt2.
  assert (Hinv : one_slot w) by apply one_slot_run, one_slot_boot.
  subst w1 w2. cbn [run foldl]. cbn [step].
  set (wa := GameStateManager.autoSave g w).
  set (wb := elapse dt1 wa).
  destruct (autoSave_timers g w Hinv) as [Hone _].
  destruct (autoSave_quiet g w dt1 Hinv) as (Hlogb & Hstb & Htb & _ & Hclockb); [lia|].
  fold wa wb in Hlogb, Hstb, Htb, Hclockb. fold wa in Hone.
  set (wc := set_storage _ wb).
  assert (Htc : timers wc = {[next_handle w := mkTimer (clock w + 2000) g]}).
  { subst wc. unfold set_storage. cbn [timers]. by rewrite Htb, Hone. }
  assert (Hstc : storage wc = delete STORAGE_KEYS.GAME_STATE (storage w)).
  { subst wc. unfold set_storage, GameStateManager.clearGameState,
      localStorage.removeItem. cbn [storage snd]. by rewrite Hstb. }
  assert (Hclockc : clock wc = (clock w + Z.max 0 dt1)%Z).
  { subst wc. unfold set_storage. cbn [clock]. done. }
  assert (Hlogc : autosaved wc = autosaved w).
  { subst wc. unfold set_storage. cbn [autosaved]. done. }
  intros Hq.
  pose proof (elapse_single dt2 wc _ _ Htc) as Hel. cbn [deadline captured] in Hel.
  destruct (Z.leb_spec (clock w + 2000) (clock wc + Z.max 0 dt2)); [|lia].
  destruct Hel as (Ht & Hs & Hl & _); [lia|].
  rewrite saveGameState_eq in Hs, Hl. cbn zeta in Hs, Hl. fold payload in Hs, Hl.
  rewrite Hq in Hs, Hl. cbn [fst snd] in Hs, Hl.
  split_and!.
  - rewrite hasSavedGame_eq, Hstc, lookup_delete_eq. done.
  - by eexists.
  - done.
  - rewrite hasSavedGame_eq, Hs, lookup_insert_eq. done.
  - by rewrite Hl, Hlogc.
  - intros acts' a h tm Hnot Hh. apply pending_kept_or_run; [|done..].
    apply one_slot_run, one_slot_boot.
Qed.
End auto_save.

(** * The properties on the sample data *)

Section samples.
Import Sample.
#[local] Existing Instance RefHost.host.

(** C1: the claim as stated fails in both directions. On a user partition
    that cannot be decoded [getAllUsers] absorbs the decode error, so
    [saveUser] returns true and overwrites the partition, where the claim
    says it returns false and leaves the partition unchanged. On a
    partition that decodes, to [null], with a store that accepts every
    write, [saveUser] returns false, where the claim says it returns
    true. *)
Lemma saveUser_undecodable_counterexample :
  undecodable_users !! STORAGE_KEYS.USER_DATA = Some garbage
  ∧ JSON_parse garbage = None
  ∧ UserManager.saveUser (VObj ana) undecodable_users
    = (Normal true,
       {[ STORAGE_KEYS.USER_DATA := JSON_stringify (VArr [VObj ana]) ]})
  ∧ (UserManager.saveUser (VObj ana) undecodable_users).1 ≠ Normal false
  ∧ (UserManager.saveUser (VObj ana) undecodable_users).2 ≠ undecodable_users
  ∧ Sample2.users_null !! STORAGE_KEYS.USER_DATA = Some (JSON_stringify VNull)
  ∧ JSON_parse (JSON_stringify VNull) = Some VNull
  ∧ UserManager.saveUser (VObj ana) Sample2.users_null
    = (Normal false, Sample2.users_null).
Proof.
  assert (Hrun : UserManager.saveUser (VObj ana) undecodable_users
    = (Normal true,
       {[ STORAGE_KEYS.USER_DATA := JSON_stringify (VArr [VObj ana]) ]})).
  { rewrite saveUser_eq.
    rewrite (decode_or_empty_undecodable _ _ garbage) by done.
    cbn [as_array mbind completion_bind first_index app quota RefHost.host].
    f_equal. }
  assert (Hnull : decode_or_empty STORAGE_KEYS.USER_DATA Sample2.users_null = VNull)
    by reflexivity.
  split_and!; [done..| | |reflexivity|reflexivity|].
  - rewrite Hrun. done.
  - rewrite Hrun. cbn [fst snd].
    intros Heq. apply (f_equal (.!! STORAGE_KEYS.USER_DATA)) in Heq.
    unfold undecodable_users in Heq. rewrite !lookup_singleton_eq in Heq.
    by vm_compute in Heq.
  - rewrite saveUser_eq, Hnull. reflexivity.
Qed.

(** C1 on the sample data: over an undecodable partition [saveUser] writes
    the one-record list and returns true; on a full store it returns false
    and changes nothing. *)
Lemma saveUser_boolean_no_partial_write_witness :
  undecodable_users !! STORAGE_KEYS.USER_DATA = Some garbage
  ∧ JSON_parse garbage = None
  ∧ (∃ b st',
       UserManager.saveUser (VObj ana) undecodable_users = (Normal b, st')
       ∧ b = true
       ∧ st' = <[STORAGE_KEYS.USER_DATA := JSON_stringify (VArr [VObj ana])]>
                 undecodable_users)
  ∧ @UserManager.saveUser RefHost.full_host (VObj ana) two_users
    = (Normal false, two_users).
Proof.
  split; [reflexivity|]. split; [reflexivity|]. split.
  - destruct (saveUser_boolean_no_partial_write (VObj ana) undecodable_users)
      as (b & st' & Hrun & _ & _ & _ & _ & _ & _ & Hund).
    destruct (Hund garbage eq_refl eq_refl) as (_ & Hb & Hst').
    exists b, st'. split; [exact Hrun|]. split; [exact Hb|]. exact (Hst' Hb).
  - destruct (saveUser_boolean_no_partial_write
                (H:=RefHost.full_host) (VObj ana) two_users)
      as (b & st' & Hrun & _ & Hfalse & Hnot & Hscan & Hupd & Hcover & _).
    assert (Hb : b = false).
    { destruct Hcover as [Hna|(arr & Harr & [Hs|[l Hl]])].
      - exact (Hnot Hna).
      - exact (Hscan arr Harr Hs).
      - exact (proj1 (Hupd arr l Harr Hl)). }
    rewrite Hrun, (Hfalse Hb), Hb. reflexivity.
Defined.

(** C2 on the sample data: sixty calls on the empty store. *)
Lemma history_bounded_newest_first_witness :
  GameHistoryManager.getHistory (∅ : gmap string string) = (Normal (VArr []), ∅)
  ∧ length ([] : list value) ≤ 50
  ∧ history_bounded (add_games sixty_calls ∅)
  ∧ ∃ l, GameHistoryManager.getHistory (add_games sixty_calls ∅)
         = (Normal (VArr l), add_games sixty_calls ∅)
         ∧ length l = 50 ∧ l !! 0 = Some (entry_of (call 60)).
Proof.
  assert (Hempty : GameHistoryManager.getHistory (∅ : gmap string string)
                   = (Normal (VArr []), ∅)) by reflexivity.
  assert (Hlen : length ([] : list value) ≤ 50) by (simpl; lia).
  destruct (history_bounded_newest_first sixty_calls ∅ [] Hempty Hlen)
    as [Hbounded Haccepted].
  split; [exact Hempty|]. split; [exact Hlen|]. split; [exact Hbounded|].
  destruct (Haccepted (λ _ _ _, eq_refl)) as (_ & _ & Hsixty).
  apply (Hsixty sixty_calls (call 60) ∅); reflexivity.
Defined.

(** C3 on the sample data: [autoSave(s1)], 500 ms, [autoSave(s2)], 2100 ms
    on a freshly loaded page. *)
Lemma autoSave_trailing_debounce_witness :
  (1500 < 2000)%Z
  ∧ autosaved (elapse 1500 (GameStateManager.autoSave s1 (boot 0 ∅))) = []
  ∧ autosaved (run (boot 0 ∅) [AutoSave s1; Elapse 500; AutoSave s2; Elapse 2100])
    = [(2500%Z, s2, true)]
  ∧ timers (run (boot 0 ∅) [AutoSave s1; Elapse 500; AutoSave s2; Elapse 2100]) = ∅
  ∧ storage (run (boot 0 ∅) [AutoSave s1; Elapse 500; AutoSave s2; Elapse 2100])
    = {[ STORAGE_KEYS.GAME_STATE :=
           JSON_stringify (GameStateManager.stateToSave 2500 s2) ]}.
Proof.
  assert (Hdt : (1500 < 2000)%Z) by lia.
  destruct (autoSave_trailing_debounce 0 ∅ [] s1 s1 s2 1500)
    as (_ & _ & _ & Hquiet & _ & ok & _ & _ & _ & _ & Hlog & Htimers & Hpersisted).
  destruct (Hpersisted eq_refl) as [-> Hstorage].
  split; [exact Hdt|]. split; [exact (proj1 (Hquiet Hdt))|].
  split; [exact Hlog|]. split; [exact Htimers|exact Hstorage].
Defined.

(** C4 on the sample data: a new password for a stored user keeps the
    stored statistics. *)
Lemma saveUser_getUser_merge_idempotent_witness :
  ana_patch !! "username" = Some (VStr "ana")
  ∧ (UserManager.saveUser (VObj ana_patch) two_users).1 = Normal true
  ∧ (∃ old merged,
       UserManager.getUser "ana" two_users = (Normal old, two_users)
       ∧ UserManager.getUser "ana" (UserManager.saveUser (VObj ana_patch) two_users).2
         = (Normal (VObj merged), (UserManager.saveUser (VObj ana_patch) two_users).2)
       ∧ merged = ana_patch ∪ own_props old
       ∧ (∀ k x, ana_patch !! k = Some x → merged !! k = Some x)
       ∧ (∀ k, ana_patch !! k = None → merged !! k = own_props old !! k))
  ∧ (UserManager.saveUser (VObj ana_patch)
       (UserManager.saveUser (VObj ana_patch) two_users).2).2
    = (UserManager.saveUser (VObj ana_patch) two_users).2.
Proof.
  assert (Hname : ana_patch !! "username" = Some (VStr "ana")) by reflexivity.
  assert (Hsaved : (UserManager.saveUser (VObj ana_patch) two_users).1 = Normal true)
    by (vm_compute; reflexivity).
  destruct (saveUser_getUser_merge_idempotent ana_patch "ana" Hname two_users)
    as [Hmerge Hidem].
  split; [exact Hname|]. split; [exact Hsaved|].
  split; [exact (Hmerge Hsaved)|exact Hidem].
Defined.

(** C5 on the sample data. *)
Lemma saveGameState_loadGameState_roundtrip_witness :
  GameStateManager.saveGameState 1700000000000 (VObj board) ∅
  = (Normal true,
     <[STORAGE_KEYS.GAME_STATE :=
         JSON_stringify (GameStateManager.stateToSave 1700000000000 (VObj board))]> ∅)
  ∧ GameStateManager.loadGameState
      (<[STORAGE_KEYS.GAME_STATE :=
           JSON_stringify (GameStateManager.stateToSave 1700000000000 (VObj board))]> ∅)
    = (Normal (VObj (<["version" := VStr "1.0"]>
                       (<["timestamp" := VStr (toISOString 1700000000000)]> board))),
       <[STORAGE_KEYS.GAME_STATE :=
           JSON_stringify (GameStateManager.stateToSave 1700000000000 (VObj board))]> ∅).
Proof.
  assert (Hsave : GameStateManager.saveGameState 1700000000000 (VObj board) ∅
    = (Normal true,
       <[STORAGE_KEYS.GAME_STATE :=
           JSON_stringify (GameStateManager.stateToSave 1700000000000 (VObj board))]> ∅))
    by reflexivity.
  split; [exact Hsave|].
  exact (proj1 (saveGameState_loadGameState_roundtrip board 1700000000000 ∅ _ Hsave)).
Defined.

(** C6 on the sample data: the empty store, and the store after
    [saveSettings({difficulty: "hard"})]. *)
Lemma loadSettings_defaults_merge_witness :
  SettingsManager.loadSettings (∅ : gmap string string)
  = (Normal (VObj {[ "soundEnabled" := VBool true; "autoSave" := VBool true;
                     "difficulty" := VStr "medium" ]}), ∅)
  ∧ SettingsManager.loadSettings
      (SettingsManager.saveSettings (VObj {[ "difficulty" := VStr "hard" ]}) ∅).2
    = (Normal (VObj {[ "soundEnabled" := VBool true; "autoSave" := VBool true;
                       "difficulty" := VStr "hard" ]}),
       (SettingsManager.saveSettings (VObj {[ "difficulty" := VStr "hard" ]}) ∅).2).
Proof.
  destruct (loadSettings_defaults_merge ∅) as (Habsent & _ & _ & _ & Hhard).
  split; [exact (Habsent eq_refl)|exact (Hhard eq_refl)].
Defined.

Lemma two_users_UserStore : UserStore [VObj ana; VObj bob].
Proof.
  split.
  - repeat constructor; by eexists.
  - intros i j u v name Hi Hj.
    destruct i as [|[|i]], j as [|[|j]]; simplify_eq/=; try done;
      by intros [= <-] [=].
Qed.

(** C7 on the sample data: two stored users. *)
Lemma authenticate_iff_credentials_match_witness :
  UserManager.getAllUsers two_users = (Normal (VArr [VObj ana; VObj bob]), two_users)
  ∧ UserStore [VObj ana; VObj bob]
  ∧ UserManager.authenticate "ana" "pw" two_users = (Normal (VObj ana), two_users)
  ∧ UserManager.authenticate "ana" "hunter2" two_users = (Normal VNull, two_users).
Proof.
  assert (Hall : UserManager.getAllUsers two_users
                 = (Normal (VArr [VObj ana; VObj bob]), two_users))
    by (vm_compute; reflexivity).
  destruct (authenticate_iff_credentials_match "ana" "pw" two_users _ Hall
              two_users_UserStore) as (r & Hrun & Hiff & _ & Hpw & _).
  assert (Hr : r = VObj ana ∧ VObj ana ≠ VNull).
  { apply Hiff. split; [left|]. exists ana. split_and!; reflexivity. }
  destruct Hr as [-> Hne].
  split; [exact Hall|]. split; [exact two_users_UserStore|].
  split; [exact Hrun|]. apply Hpw; [discriminate|exact Hne].
Defined.

(** C9 on the sample data. *)
Lemma addGameToHistory_replaces_undecodable_witness :
  undecodable_history !! STORAGE_KEYS.GAME_HISTORY = Some garbage
  ∧ JSON_parse garbage = None
  ∧ quota undecodable_history STORAGE_KEYS.GAME_HISTORY
      (JSON_stringify (VArr [entry_of (call 1)])) = true
  ∧ GameHistoryManager.getHistory undecodable_history
    = (Normal (VArr []), undecodable_history)
  ∧ GameHistoryManager.addGameToHistory 1001 1001 (game 1) undecodable_history
    = (Normal (),
       <[STORAGE_KEYS.GAME_HISTORY := JSON_stringify (VArr [entry_of (call 1)])]>
         undecodable_history)
  ∧ GameHistoryManager.getHistory
      (GameHistoryManager.addGameToHistory 1001 1001 (game 1) undecodable_history).2
    = (Normal (VArr [entry_of (call 1)]),
       (GameHistoryManager.addGameToHistory 1001 1001 (game 1) undecodable_history).2).
Proof.
  assert (Hd : undecodable_history !! STORAGE_KEYS.GAME_HISTORY = Some garbage)
    by reflexivity.
  assert (Hp : JSON_parse garbage = None) by reflexivity.
  assert (Hq : quota undecodable_history STORAGE_KEYS.GAME_HISTORY
                 (JSON_stringify (VArr [entry_of (call 1)])) = true) by reflexivity.
  destruct (addGameToHistory_replaces_undecodable 1001 1001 (game 1)
              undecodable_history garbage Hd Hp Hq)
    as (Hget & Hadd & Hafter).
  split; [exact Hd|]. split; [exact Hp|]. split; [exact Hq|].
  split; [exact Hget|]. split; [exact Hadd|]. exact (Hafter ref_host_laws).
Defined.

(** C10 on the sample data: [autoSave(s1)], 500 ms, [clearGameState()],
    1500 ms on a freshly loaded page. *)
Lemma autoSave_survives_clearGameState_witness :
  (0 ≤ 500 < 2000)%Z ∧ (2000 ≤ 500 + 1500)%Z
  ∧ GameStateManager.hasSavedGame
      (storage (run (boot 0 ∅) [AutoSave s1; Elapse 500; ClearGameState]))
    = (Normal false, storage (run (boot 0 ∅) [AutoSave s1; Elapse 500; ClearGameState]))
  ∧ GameStateManager.hasSavedGame
      (storage (run (boot 0 ∅) [AutoSave s1; Elapse 500; ClearGameState; Elapse 1500]))
    = (Normal true,
       storage (run (boot 0 ∅) [AutoSave s1; Elapse 500; ClearGameState; Elapse 1500])).
Proof.
  assert (Hdt1 : (0 ≤ 500 < 2000)%Z) by lia.
  assert (Hdt2 : (2000 ≤ 500 + 1500)%Z) by lia.
  assert (Hq : quota (storage (run (boot 0 ∅) [AutoSave s1; Elapse 500; ClearGameState]))
                 STORAGE_KEYS.GAME_STATE
                 (JSON_stringify (GameStateManager.stateToSave (clock (run (boot 0 ∅) []) + 2000) s1))
               = true) by reflexivity.
  destruct (autoSave_survives_clearGameState 0 ∅ [] s1 500 1500 Hdt1 Hdt2 Hq)
    as (Hcleared & _ & _ & Hsaved & _).
  split; [exact Hdt1|]. split; [exact Hdt2|].
  split; [exact Hcleared|exact Hsaved].
Defined.
End samples.

(** * Further properties of the managers *)

(** ** What [getUser] can return *)

Section user_lookup.
Context `{H : Host}.

Lemma pretty_N_go_not_letter (c : ascii) (x : N) (s t : string) :
  (∀ d, pretty_N_char d ≠ c) → s ≠ String c t → pretty_N_go x s ≠ String c t.
Proof.
  intros Hc. revert s. induction (N.lt_wf_0 x) as [x _ IH]; intros s Hs.
  assert (x = 0 ∨ 0 < x)%N as [->|Hx] by lia.
  - by rewrite pretty_N_go_0.
  - rewrite pretty_N_go_step by done. apply IH.
    { by apply N.div_lt. }
    intros [= Hd _]. by destruct (Hc _ Hd).
Qed.

Lemma pretty_nat_not_username (i : nat) : pretty i ≠ "username".
Proof.
  unfold pretty, pretty_nat, pretty, pretty_N.
  case_decide; [done|].
  apply pretty_N_go_not_letter; [|done].
  intros d. unfold pretty_N_char. by repeat case_match.
Qed.

Lemma list_to_map_imap_None {A} (f : nat → A → string * value) (l : list A) k :
  (∀ i x, (f i x).1 ≠ k) → (list_to_map (imap f l) : gmap string value) !! k = None.
Proof.
  revert f. induction l as [|x l IH]; intros f Hf; [done|].
  cbn [imap list_to_map foldr]. rewrite lookup_insert_ne by apply Hf.
  apply IH. intros i y. apply Hf.
Qed.

(** Only an object carries a [username]. *)
Lemma get_prop_username_record u name :
  get_prop u "username" = Normal (Some (VStr name)) →
  ∃ m, u = VObj m ∧ m !! "username" = Some (VStr name).
Proof.
  destruct u as [|b|n|s|l|m]; simpl; try done.
  - unfold char_props. rewrite list_to_map_imap_None; [done|].
    intros i x. apply pretty_nat_not_username.
  - unfold index_props. rewrite list_to_map_imap_None; [done|].
    intros i x. apply pretty_nat_not_username.
  - intros [= Hm]. by exists m.
Qed.

Lemma first_index_has_username name l n :
  first_index (UserManager.has_username name) l = Normal (Some n) →
  ∃ m, l !! n = Some (VObj m) ∧ m !! "username" = Some (VStr name).
Proof.
  intros (u & Hu & Hpu & _)%first_index_Some.
  apply has_username_true_get_prop, get_prop_username_record in Hpu as (m & -> & Hm).
  by exists m.
Qed.

Lemma getUser_Normal_inv username st u st' :
  UserManager.getUser username st = (Normal u, st') →
  st' = st ∧ (u = VNull ∨ ∃ m, u = VObj m ∧ m !! "username" = Some (VStr username)).
Proof.
  rewrite getUser_eq.
  destruct (decode_or_empty _ st) as [| | | |arr|]; cbn [as_array mbind completion_bind];
    try done.
  destruct (first_index _ arr) as [[n|]|e] eqn:Ho; cbn [mbind completion_bind];
    intros [= <- <-]; (split; [done|]); [|by left].
  destruct (first_index_has_username _ _ _ Ho) as (m & -> & Hm).
  right. by exists m.
Qed.

(** X1. Whatever the store holds, when [getUser] returns it returns [null]
    or an object whose [username] is the requested one, and [authenticate]
    returns [null] or an object with the requested username and password;
    neither changes the store. *)
Theorem getUser_null_or_record (username password : string) (st : gmap string string) :
  (∀ u st', UserManager.getUser username st = (Normal u, st') →
     st' = st ∧ (u = VNull ∨ ∃ m, u = VObj m ∧ m !! "username" = Some (VStr username)))
  ∧ (∀ u st', UserManager.authenticate username password st = (Normal u, st') →
       st' = st ∧ (u = VNull ∨ has_credentials username password u)).
Proof.
  assert (Hget : ∀ u st', UserManager.getUser username st = (Normal u, st') →
     st' = st ∧ (u = VNull ∨ ∃ m, u = VObj m ∧ m !! "username" = Some (VStr username)))
    by (intros u st'; apply getUser_Normal_inv).
  split; [done|].
  intros u st'. rewrite authenticate_eq.
  destruct (UserManager.getUser username st) as [[user|e] st''] eqn:Hu; [|done].
  destruct (Hget user st'' eq_refl) as [-> [->|(m & -> & Hm)]]; simpl.
  - intros [= <- <-]. split; [done|by left].
  - destruct (strict_eq (m !! "password") (Some (VStr password))) eqn:Hpw;
      intros [= <- <-]; (split; [done|]); [|by left].
    right. exists m. split_and!; [done..|]. by apply strict_eq_str.
Qed.
End user_lookup.

(** ** [saveUser] and the other users *)

Section user_updates.
Context `{H : Host}.

(** What a successful [saveUser] wrote. *)
Lemma saveUser_true_inv userData st st' :
  UserManager.saveUser userData st = (Normal true, st') →
  ∃ arr o,
    decode_or_empty STORAGE_KEYS.USER_DATA st = VArr arr
    ∧ first_index (UserManager.same_username userData) arr = Normal o
    ∧ st' = <[STORAGE_KEYS.USER_DATA :=
               JSON_stringify (VArr match o with
                 | Some n => <[n := spread2 (default VNull (arr !! n)) userData]> arr
                 | None => arr ++ [userData]
                 end)]> st.
Proof.
  rewrite saveUser_eq.
  destruct (decode_or_empty _ st) as [| | | |arr|]; cbn [as_array mbind completion_bind];
    try done.
  destruct (first_index _ arr) as [o|e] eqn:Ho; cbn [mbind completion_bind]; [|done].
  destruct (quota _ _ _); [|done]. intros [= <-]. by exists arr, o.
Qed.

Lemma saveUser_not_true_unchanged userData st :
  (UserManager.saveUser userData st).1 ≠ Normal true →
  (UserManager.saveUser userData st).2 = st.
Proof.
  rewrite saveUser_eq.
  destruct (decode_or_empty _ st) as [| | | |arr|]; cbn [as_array mbind completion_bind];
    try done.
  destruct (first_index _ arr) as [o|e]; cbn [mbind completion_bind]; [|done].
  by destruct (quota _ _ _).
Qed.

Lemma first_index_insert_same p l n u x :
  l !! n = Some u → p x = p u → first_index p (<[n:=x]> l) = first_index p l.
Proof.
  revert n. induction l as [|y l IH]; intros [|n] Hn Hp; simplify_eq/=.
  - by rewrite Hp.
  - by rewrite (IH n).
Qed.

Lemma first_index_app_false p l x :
  p x = Normal false →
  first_index p (l ++ [x]) = first_index p l.
Proof.
  intros Hx. induction l as [|y l IH]; simpl; [by rewrite Hx|].
  by rewrite IH.
Qed.

(** X2. When the user partition decodes to something that is not an array,
    [getAllUsers] returns that value as it is, [getUser], [authenticate] and
    [updateStats] raise a TypeError to their caller, and [saveUser] returns
    false; the store is left as it was. *)
Theorem user_partition_not_an_array
    (st : gmap string string) (d : string) (v userData stats : value)
    (username password : string) :
  st !! STORAGE_KEYS.USER_DATA = Some d → d ≠ "" →
  JSON_parse d = Some v → (∀ l, v ≠ VArr l) →
  UserManager.getAllUsers st = (Normal v, st)
  ∧ UserManager.getUser username st = (Abrupt TypeError, st)
  ∧ UserManager.authenticate username password st = (Abrupt TypeError, st)
  ∧ updateStats username stats st = (Abrupt TypeError, st)
  ∧ UserManager.saveUser userData st = (Normal false, st).
Proof.
  intros Hd Hne Hp Hv.
  assert (Hdec : decode_or_empty STORAGE_KEYS.USER_DATA st = v).
  { unfold decode_or_empty. rewrite Hd, Hp. by destruct (String.eqb_spec d ""). }
  assert (Hget : UserManager.getUser username st = (Abrupt TypeError, st)).
  { rewrite getUser_eq, Hdec. destruct v; try done. by destruct (Hv l). }
  split_and!.
  - by rewrite getAllUsers_eq, Hdec.
  - done.
  - by rewrite authenticate_eq, Hget.
  - unfold updateStats, mbind, js_bind. by rewrite Hget.
  - rewrite saveUser_eq, Hdec. destruct v; try done. by destruct (Hv l).
Qed.

Section with_laws.
Context `{!JsonLaws H}.

Lemma getAllUsers_after_saveUser userData st st' :
  UserManager.saveUser userData st = (Normal true, st') →
  ∃ arr o,
    UserManager.getAllUsers st = (Normal (VArr arr), st)
    ∧ first_index (UserManager.same_username userData) arr = Normal o
    ∧ UserManager.getAllUsers st'
      = (Normal (VArr match o with
           | Some n => <[n := spread2 (default VNull (arr !! n)) userData]> arr
           | None => arr ++ [userData]
           end), st').
Proof.
  intros (arr & o & Hdec & Ho & ->)%saveUser_true_inv. exists arr, o.
  rewrite !getAllUsers_eq, Hdec, decode_or_empty_insert. done.
Qed.

(** X4. [saveUser] keeps the order of the stored records: a record whose
    username is not stored yet is appended at the end, and a record whose
    username is stored replaces, merged, the first record with that
    username, every other position staying as it was. *)
Theorem saveUser_appends_or_updates_in_place
    (r : gmap string value) (name : string) (st st' : gmap string string) :
  r !! "username" = Some (VStr name) →
  UserManager.saveUser (VObj r) st = (Normal true, st') →
  ∃ l l', UserManager.getAllUsers st = (Normal (VArr l), st)
    ∧ UserManager.getAllUsers st' = (Normal (VArr l'), st')
    ∧ ((UserManager.getUser name st = (Normal VNull, st) ∧ l' = l ++ [VObj r])
       ∨ (∃ n old,
            UserManager.getUser name st = (Normal (VObj old), st)
            ∧ l !! n = Some (VObj old)
            ∧ l' = <[n := VObj (r ∪ old)]> l
            ∧ length l' = length l
            ∧ ∀ i, i ≠ n → l' !! i = l !! i)).
Proof.
  intros Hr (arr & o & Hall & Ho & Hall')%getAllUsers_after_saveUser.
  exists arr. eexists. split; [done|]. split; [done|].
  pose proof Hall as Hdec. rewrite getAllUsers_eq in Hdec. injection Hdec as Hdec.
  rewrite (first_index_ext _ (UserManager.has_username name)) in Ho
    by (intros u; by apply same_username_has_username).
  rewrite getUser_eq, Hdec. cbn [as_array mbind completion_bind]. rewrite Ho.
  cbn [mbind completion_bind].
  destruct o as [n|]; [right|by left].
  destruct (first_index_has_username _ _ _ Ho) as (old & Hn & Hold).
  exists n, old. simpl. rewrite Hn. simpl. split_and!; [done..| |].
  - by rewrite length_insert.
  - intros i Hi. by rewrite list_lookup_insert_ne.
Qed.

(** X5. [saveUser] does not disturb the other users: for any other
    username [getUser] gives after the save what it gave before, whatever
    the store held and whether or not the write went through. *)
Theorem saveUser_other_users_unchanged
    (r : gmap string value) (name other : string) (st : gmap string string) :
  r !! "username" = Some (VStr name) → other ≠ name →
  (UserManager.getUser other (UserManager.saveUser (VObj r) st).2).1
  = (UserManager.getUser other st).1.
Proof.
  intros Hr Hne.
  destruct (UserManager.saveUser (VObj r) st) as [[[|]|e] st'] eqn:Hsave; cbn [snd];
    [|by rewrite <-(saveUser_not_true_unchanged (VObj r) st), Hsave by by rewrite Hsave..].
  - destruct (getAllUsers_after_saveUser _ _ _ Hsave) as (arr & o & Hall & Ho & Hall').
    rewrite getAllUsers_eq in Hall, Hall'.
    injection Hall as Hdec. injection Hall' as Hdec'.
    rewrite !getUser_eq, Hdec, Hdec'. cbn [as_array mbind completion_bind].
    assert (Hq : ∀ m, m !! "username" = Some (VStr name) →
              UserManager.has_username other (VObj m) = Normal false).
    { intros m Hm. unfold UserManager.has_username. simpl. rewrite Hm. simpl.
      f_equal. apply bool_decide_eq_false. congruence. }
    rewrite (first_index_ext _ (UserManager.has_username name)) in Ho
      by (intros u; by apply same_username_has_username).
    destruct o as [n|].
    + destruct (first_index_has_username _ _ _ Ho) as (old & Hn & Hold).
      rewrite Hn. cbn [default from_option id].
      rewrite (first_index_insert_same _ _ _ (VObj old)); [|done|].
      2:{ unfold spread2. cbn [own_props]. rewrite !Hq; [done..|].
          by apply lookup_union_Some_l. }
      destruct (first_index (UserManager.has_username other) arr) as [[i|]|e] eqn:Hi;
        cbn [mbind completion_bind fst]; [|done..].
      destruct (first_index_has_username _ _ _ Hi) as (m & Him & Hm).
      assert (i ≠ n) by (intros ->; congruence).
      simpl. by rewrite list_lookup_insert_ne.
    + rewrite first_index_app_false by by apply Hq.
      destruct (first_index (UserManager.has_username other) arr) as [[i|]|e] eqn:Hi;
        cbn [mbind completion_bind fst]; [|done..].
      destruct (first_index_has_username _ _ _ Hi) as (m & Him & Hm).
      simpl. rewrite lookup_app_l; [done|]. by eapply lookup_lt_Some.
Qed.

(** [getUser] after a successful [saveUser] of a record with a string
    username. *)
Lemma getUser_after_saveUser (r : gmap string value) name st st' :
  r !! "username" = Some (VStr name) →
  UserManager.saveUser (VObj r) st = (Normal true, st') →
  ∃ old, UserManager.getUser name st = (Normal old, st)
         ∧ (old = VNull ∨ ∃ m, old = VObj m)
         ∧ UserManager.getUser name st' = (Normal (VObj (r ∪ own_props old)), st').
Proof.
  intros Hr (arr & o & Hall & Ho & Hall')%getAllUsers_after_saveUser.
  rewrite getAllUsers_eq in Hall, Hall'.
  injection Hall as Hdec. injection Hall' as Hdec'.
  assert (Hext : ∀ u, UserManager.same_username (VObj r) u
                      = UserManager.has_username name u)
    by (intros u; by apply same_username_has_username).
  rewrite (first_index_ext _ _ _ Hext) in Ho.
  rewrite !getUser_eq, Hdec, Hdec'. cbn [as_array mbind completion_bind].
  rewrite Ho. cbn [mbind completion_bind].
  assert (Hself : ∀ m, UserManager.has_username name (VObj (r ∪ m)) = Normal true).
  { intros m. apply has_username_true_get_prop. simpl. f_equal.
    by apply lookup_union_Some_l. }
  destruct o as [n|].
  - destruct (first_index_has_username _ _ _ Ho) as (old & Hn & Hold).
    destruct (first_index_Some _ _ _ Ho) as (_ & _ & _ & Hins).
    cbn [mbind option_bind]. rewrite !Hn. cbn [default from_option id or_null truthy].
    exists (VObj old). split; [done|]. split; [right; by eexists|].
    unfold spread2. cbn [own_props]. rewrite (Hins _ (Hself old)).
    cbn [mbind completion_bind option_bind]. rewrite list_lookup_insert_eq; [done|].
    by eapply lookup_lt_Some.
  - exists VNull. split; [done|]. split; [by left|].
    rewrite (first_index_None _ _ (VObj r) Ho).
    2:{ rewrite <-(map_union_empty r). apply Hself. }
    cbn [mbind completion_bind option_bind]. rewrite list_lookup_middle by done.
    cbn [or_null truthy own_props]. by rewrite map_union_empty.
Qed.

(** X6. Saving a record and then authenticating with its username and
    password succeeds: [authenticate] returns the stored, merged record;
    with any other password it returns [null]. *)
Theorem saveUser_then_authenticate
    (r : gmap string value) (name pw : string) (st st' : gmap string string) :
  r !! "username" = Some (VStr name) →
  r !! "password" = Some (VStr pw) →
  UserManager.saveUser (VObj r) st = (Normal true, st') →
  (∃ merged, UserManager.authenticate name pw st' = (Normal (VObj merged), st')
             ∧ UserManager.getUser name st' = (Normal (VObj merged), st')
             ∧ ∀ k x, r !! k = Some x → merged !! k = Some x)
  ∧ ∀ pw', pw' ≠ pw → UserManager.authenticate name pw' st' = (Normal VNull, st').
Proof.
  intros Hr Hpw Hsave.
  destruct (getUser_after_saveUser r name st st' Hr Hsave) as (old & _ & _ & Hget).
  assert (Hmpw : (r ∪ own_props old) !! "password" = Some (VStr pw))
    by by apply lookup_union_Some_l.
  split.
  - eexists. split_and!; [|done|].
    + rewrite authenticate_eq, Hget. cbn [truthy get_prop]. rewrite Hmpw.
      assert (strict_eq (Some (VStr pw)) (Some (VStr pw)) = true) as ->
        by by apply strict_eq_str.
      done.
    + intros k x Hk. by apply lookup_union_Some_l.
  - intros pw' Hne. rewrite authenticate_eq, Hget. cbn [truthy get_prop]. rewrite Hmpw.
    destruct (strict_eq (Some (VStr pw)) (Some (VStr pw'))) eqn:Heq; [|done].
    apply strict_eq_str in Heq. congruence.
Qed.

(** X7. Records without a [username] field are all taken for the same
    user: on a store without users that accepts the writes, saving two
    such records leaves a single record, their merge, and no [getUser]
    call finds it. *)
Theorem saveUser_without_username_collapses
    (r1 r2 : gmap string value) (st : gmap string string) :
  r1 !! "username" = None → r2 !! "username" = None →
  st !! STORAGE_KEYS.USER_DATA = None →
  (∀ s k v, quota s k v = true) →
  let st2 := (UserManager.saveUser (VObj r2) (UserManager.saveUser (VObj r1) st).2).2 in
  UserManager.getAllUsers st2 = (Normal (VArr [VObj (r2 ∪ r1)]), st2)
  ∧ ∀ name, UserManager.getUser name st2 = (Normal VNull, st2).
Proof.
  intros Hr1 Hr2 Hst Hq st2. subst st2.
  assert (Hone : UserManager.saveUser (VObj r1) st
    = (Normal true, <[STORAGE_KEYS.USER_DATA := JSON_stringify (VArr [VObj r1])]> st)).
  { rewrite saveUser_eq, (decode_or_empty_absent _ _ Hst).
    cbn [as_array mbind completion_bind first_index app]. by rewrite Hq. }
  rewrite Hone. cbn [snd].
  assert (Htwo : UserManager.saveUser (VObj r2)
      (<[STORAGE_KEYS.USER_DATA := JSON_stringify (VArr [VObj r1])]> st)
    = (Normal true, <[STORAGE_KEYS.USER_DATA := JSON_stringify (VArr [VObj (r2 ∪ r1)])]> st)).
  { rewrite saveUser_eq, decode_or_empty_insert.
    cbn [as_array mbind completion_bind first_index UserManager.same_username get_prop].
    rewrite Hr1, Hr2. cbn [mret completion_ret strict_eq mbind completion_bind].
    cbn [lookup list_lookup default from_option id insert list_insert spread2 own_props].
    rewrite Hq. by rewrite insert_insert_eq. }
  rewrite Htwo. cbn [snd]. split.
  - by rewrite getAllUsers_eq, decode_or_empty_insert.
  - intros name. rewrite getUser_eq, decode_or_empty_insert.
    cbn [as_array mbind completion_bind first_index UserManager.has_username get_prop].
    rewrite lookup_union_None_2 by done. done.
Qed.

Lemma saveUser_Normal userData st :
  ∃ b, UserManager.saveUser userData st = (Normal b, (UserManager.saveUser userData st).2).
Proof.
  rewrite saveUser_eq.
  destruct (decode_or_empty _ st) as [| | | |arr|]; cbn [as_array mbind completion_bind];
    try by eexists.
  destruct (first_index _ arr) as [o|e]; cbn [mbind completion_bind]; [|by eexists].
  destruct (quota _ _ _); by eexists.
Qed.

Lemma updateStats_eq username stats st :
  updateStats username stats st =
  match UserManager.getUser username st with
  | (Normal user, st1) =>
      if truthy user then
        match get_prop user "stats" with
        | Normal old =>
            (Normal (),
             (UserManager.saveUser
                (set_prop user "stats" (spread_undefined old stats)) st1).2)
        | Abrupt e => (Abrupt e, st1)
        end
      else (Normal (), st1)
  | (Abrupt e, st1) => (Abrupt e, st1)
  end.
Proof.
  unfold updateStats. unfold mbind at 1, js_bind.
  destruct (UserManager.getUser username st) as [[user|e] st1]; [|done].
  destruct (truthy user); [|done].
  unfold mbind at 1, js_bind, lift.
  destruct (get_prop user "stats") as [old|e]; [|done].
  unfold mbind, js_bind.
  destruct (saveUser_Normal (set_prop user "stats" (spread_undefined old stats)) st1)
    as [b ->]. done.
Qed.

(** X8. [updateStats] does nothing when the user is not found. When the
    user is found and the store accepts the write, the stored record gets
    as [stats] the shallow merge of the patch over its previous [stats]
    (none when it had no such field), and every other field of the record,
    the password included, stays as it was. *)
Theorem updateStats_merges_stats
    (username : string) (stats : value) (st : gmap string string) :
  (UserManager.getUser username st = (Normal VNull, st) →
   updateStats username stats st = (Normal (), st))
  ∧ (∀ m, UserManager.getUser username st = (Normal (VObj m), st) →
       (∀ v, quota st STORAGE_KEYS.USER_DATA v = true) →
       ∃ st' merged,
         updateStats username stats st = (Normal (), st')
         ∧ UserManager.getUser username st' = (Normal (VObj merged), st')
         ∧ merged !! "stats"
           = Some (VObj (own_props stats ∪ from_option own_props ∅ (m !! "stats")))
         ∧ ∀ k, k ≠ "stats" → merged !! k = m !! k).
Proof.
  split.
  - intros Hget. by rewrite updateStats_eq, Hget.
  - intros m Hget Hq.
    destruct (getUser_Normal_inv _ _ _ _ Hget) as [_ [|(m' & [= <-] & Hname)]]; [done|].
    rewrite updateStats_eq, Hget. cbn [truthy get_prop set_prop].
    set (new := spread_undefined (m !! "stats") stats).
    assert (Hname' : <["stats" := new]> m !! "username" = Some (VStr username))
      by by rewrite lookup_insert_ne.
    assert (Hsave : UserManager.saveUser (VObj (<["stats" := new]> m)) st
              = (Normal true, (UserManager.saveUser (VObj (<["stats" := new]> m)) st).2)).
    { destruct (saveUser_Normal (VObj (<["stats" := new]> m)) st) as [[|] Hb]; [done|].
      exfalso. revert Hb. rewrite saveUser_eq.
      pose proof Hget as Hget'. rewrite getUser_eq in Hget'.
      destruct (decode_or_empty _ st) as [| | | |arr|];
        cbn [as_array mbind completion_bind] in *; try done.
      rewrite (first_index_ext _ (UserManager.has_username username))
        by (intros u; by apply same_username_has_username).
      destruct (first_index _ arr) as [o|e]; cbn [mbind completion_bind] in *; [|done].
      by rewrite Hq. }
    destruct (getUser_after_saveUser _ _ _ _ Hname' Hsave) as (old & Hold & _ & Hafter).
    rewrite Hget in Hold. injection Hold as <-.
    eexists _, _. split; [done|]. split; [exact Hafter|]. cbn [own_props]. split.
    + apply lookup_union_Some_l. by rewrite lookup_insert_eq.
    + intros k Hk.
      destruct (m !! k) as [x|] eqn:Hmk.
      * apply lookup_union_Some_l. by rewrite lookup_insert_ne.
      * apply lookup_union_None_2; [by rewrite lookup_insert_ne|done].
Qed.
End with_laws.
End user_updates.

(** ** Partitions *)

Section partitions.
Context `{H : Host}.

(** X9. Every manager writes its own partition only: for a key other than
    the manager's, the store after [saveUser], [updateStats],
    [saveGameState], [clearGameState], [addGameToHistory], [clearHistory] or
    [saveSettings] holds what it held before. The readers [getAllUsers],
    [getUser], [authenticate], [loadGameState], [hasSavedGame], [getHistory]
    and [loadSettings] leave the whole store as it was, also when they
    raise. *)
Theorem managers_touch_only_their_partition (st : gmap string string) (k : string) :
  (k ≠ STORAGE_KEYS.USER_DATA →
     (∀ u, (UserManager.saveUser u st).2 !! k = st !! k)
     ∧ (∀ name stats, (updateStats name stats st).2 !! k = st !! k))
  ∧ (k ≠ STORAGE_KEYS.GAME_STATE →
       (∀ now g, (GameStateManager.saveGameState now g st).2 !! k = st !! k)
       ∧ (GameStateManager.clearGameState st).2 !! k = st !! k)
  ∧ (k ≠ STORAGE_KEYS.GAME_HISTORY →
       (∀ now1 now2 g,
          (GameHistoryManager.addGameToHistory now1 now2 g st).2 !! k = st !! k)
       ∧ (GameHistoryManager.clearHistory st).2 !! k = st !! k)
  ∧ (k ≠ STORAGE_KEYS.SETTINGS →
       ∀ v, (SettingsManager.saveSettings v st).2 !! k = st !! k)
  ∧ (UserManager.getAllUsers st).2 = st
  ∧ (∀ name, (UserManager.getUser name st).2 = st)
  ∧ (∀ name pw, (UserManager.authenticate name pw st).2 = st)
  ∧ (GameStateManager.loadGameState st).2 = st
  ∧ (GameStateManager.hasSavedGame st).2 = st
  ∧ (GameHistoryManager.getHistory st).2 = st
  ∧ (SettingsManager.loadSettings st).2 = st.
Proof.
  assert (Hsave : ∀ u st0, k ≠ STORAGE_KEYS.USER_DATA →
            (UserManager.saveUser u st0).2 !! k = st0 !! k).
  { intros u st0 Hk. rewrite saveUser_eq.
    destruct (decode_or_empty _ st0) as [| | | |arr|];
      cbn [as_array mbind completion_bind]; try done.
    destruct (first_index _ arr) as [o|e]; cbn [mbind completion_bind]; [|done].
    destruct (quota _ _ _); cbn [snd]; [|done]. by rewrite lookup_insert_ne. }
  assert (Hget : ∀ name, (UserManager.getUser name st).2 = st).
  { intros name. rewrite getUser_eq. by destruct (_ ≫= _). }
  split_and!.
  - intros Hk. split; [intros u; by apply Hsave|].
    intros name stats. rewrite updateStats_eq.
    pose proof (Hget name) as Hst.
    destruct (UserManager.getUser name st) as [[user|e] st1]; cbn [snd] in *; subst st1;
      [|done].
    destruct (truthy user); [|done].
    destruct (get_prop user "stats"); cbn [snd]; [|done]. by apply Hsave.
  - intros Hk. split.
    + intros now g. rewrite saveGameState_eq. cbn zeta.
      destruct (quota _ _ _); cbn [snd]; [|done]. by rewrite lookup_insert_ne.
    + unfold GameStateManager.clearGameState, localStorage.removeItem. cbn [snd].
      by rewrite lookup_delete_ne.
  - intros Hk. split.
    + intros now1 now2 g. rewrite addGameToHistory_eq. cbn [snd].
      destruct (decode_or_empty _ st); try done. cbn zeta.
      destruct (quota _ _ _); [|done]. by rewrite lookup_insert_ne.
    + unfold GameHistoryManager.clearHistory, localStorage.removeItem. cbn [snd].
      by rewrite lookup_delete_ne.
  - intros Hk v. rewrite saveSettings_eq. cbn [snd].
    destruct (quota _ _ _); [|done]. by rewrite lookup_insert_ne.
  - by rewrite getAllUsers_eq.
  - done.
  - intros name pw. rewrite authenticate_eq. pose proof (Hget name) as Hst.
    destruct (UserManager.getUser name st) as [[user|e] st1]; cbn [snd] in *; subst st1;
      [|done].
    destruct (truthy user); [|done]. by destruct (get_prop user "password").
  - by rewrite loadGameState_eq.
  - by rewrite hasSavedGame_eq.
  - by rewrite getHistory_eq.
  - by rewrite loadSettings_eq.
Qed.
End partitions.

(** ** The snapshot, further *)

Section snapshot.
Context `{H : Host}.

(** X10. [loadGameState] never raises, and whenever it returns a snapshot
    [hasSavedGame] is true. The converse fails: over a stored payload that
    is empty, cannot be decoded or decodes to [null], [hasSavedGame] is true
    while [loadGameState] returns [null]. *)
Theorem hasSavedGame_does_not_validate (st : gmap string string) :
  (∃ v, GameStateManager.loadGameState st = (Normal v, st)
        ∧ (v ≠ VNull → GameStateManager.hasSavedGame st = (Normal true, st)))
  ∧ (∀ d, st !! STORAGE_KEYS.GAME_STATE = Some d →
       d = "" ∨ JSON_parse d = None ∨ JSON_parse d = Some VNull →
       GameStateManager.hasSavedGame st = (Normal true, st)
       ∧ GameStateManager.loadGameState st = (Normal VNull, st)).
Proof.
  rewrite loadGameState_eq, hasSavedGame_eq. split.
  - eexists. split; [done|]. intros Hv.
    destruct (st !! STORAGE_KEYS.GAME_STATE); [|done]. do 2 f_equal.
  - intros d -> Hd. split; [do 2 f_equal|].
    destruct (String.eqb_spec d ""); [done|].
    by destruct Hd as [?|[->| ->]].
Qed.

(** X11. The snapshot is replaced as a whole: after two successful saves
    [loadGameState] returns the second state, stamped, with nothing left of
    the first. A save that the store refuses returns false and leaves the
    previous snapshot loadable. *)
Theorem saveGameState_overwrites_or_keeps `{!JsonLaws H}
    (s1 s2 : gmap string value) (t1 t2 : Z) (st st1 : gmap string string) :
  GameStateManager.saveGameState t1 (VObj s1) st = (Normal true, st1) →
  ∃ b st2, GameStateManager.saveGameState t2 (VObj s2) st1 = (Normal b, st2)
    ∧ (b = true →
       GameStateManager.loadGameState st2
       = (Normal (GameStateManager.stateToSave t2 (VObj s2)), st2))
    ∧ (b = false →
       st2 = st1
       ∧ GameStateManager.loadGameState st2
         = (Normal (GameStateManager.stateToSave t1 (VObj s1)), st2)).
Proof.
  rewrite !saveGameState_eq. cbn zeta.
  destruct (quota st _ _); [|done]. intros [= <-].
  destruct (quota _ _ _); eexists _, _; (split; [done|]); split; try done.
  - intros _. rewrite loadGameState_eq, lookup_insert_eq, stringify_nonempty.
    by rewrite parse_stringify.
  - intros _. split; [done|].
    rewrite loadGameState_eq, lookup_insert_eq, stringify_nonempty.
    by rewrite parse_stringify.
Qed.
End snapshot.

(** ** The history, further *)

Section history_more.
Context `{H : Host}.

(** X12. When the history partition decodes to something that is not an
    array, [addGameToHistory] swallows the TypeError and writes nothing:
    whatever is added, the store stays as it is and [getHistory] keeps
    returning that value. Only [clearHistory] gets out of this state: after
    it [getHistory] is empty and an accepted [addGameToHistory] stores its
    entry. *)
Theorem history_not_an_array_is_never_repaired
    (st : gmap string string) (d : string) (v : value) (calls : list history_call) :
  st !! STORAGE_KEYS.GAME_HISTORY = Some d → d ≠ "" →
  JSON_parse d = Some v → (∀ l, v ≠ VArr l) →
  GameHistoryManager.getHistory st = (Normal v, st)
  ∧ (∀ now1 now2 g,
       GameHistoryManager.addGameToHistory now1 now2 g st = (Normal (), st))
  ∧ add_games calls st = st
  ∧ (let st0 := (GameHistoryManager.clearHistory st).2 in
     GameHistoryManager.getHistory st0 = (Normal (VArr []), st0)
     ∧ ∀ now1 now2 g,
         let entry := GameHistoryManager.gameRecord now1 now2 g in
         quota st0 STORAGE_KEYS.GAME_HISTORY (JSON_stringify (VArr [entry])) = true →
         GameHistoryManager.addGameToHistory now1 now2 g st0
         = (Normal (), <[STORAGE_KEYS.GAME_HISTORY := JSON_stringify (VArr [entry])]> st0)).
Proof.
  intros Hd Hne Hp Hv.
  assert (Hdec : decode_or_empty STORAGE_KEYS.GAME_HISTORY st = v).
  { unfold decode_or_empty. rewrite Hd, Hp. by destruct (String.eqb_spec d ""). }
  assert (Hadd : ∀ now1 now2 g,
            GameHistoryManager.addGameToHistory now1 now2 g st = (Normal (), st)).
  { intros now1 now2 g. rewrite addGameToHistory_eq, Hdec.
    destruct v; try done. by destruct (Hv l). }
  split_and!.
  - by rewrite getHistory_eq, Hdec.
  - done.
  - unfold add_games. induction calls as [|c calls IH]; [done|].
    cbn [foldl]. by rewrite Hadd.
  - assert (Habsent : (GameHistoryManager.clearHistory st).2
                        !! STORAGE_KEYS.GAME_HISTORY = None).
    { unfold GameHistoryManager.clearHistory, localStorage.removeItem. cbn [snd].
      apply lookup_delete_eq. }
    cbn zeta. split.
    + by rewrite getHistory_eq, decode_or_empty_absent.
    + intros now1 now2 g Hq. rewrite addGameToHistory_eq, decode_or_empty_absent by done.
      cbn zeta. cbn [take]. by rewrite Hq.
Qed.

(** X13. One [addGameToHistory] on a stored sequence never raises. When the
    store accepts the write the new entry is at index 0, every earlier entry
    has moved one place down, and what would sit beyond index 49 is dropped,
    so that a sequence of 50 loses its last, oldest entry and even an
    over-long stored sequence comes back with 50 entries. When the store
    refuses the write the history stays as it was and the entry is lost. *)
Theorem addGameToHistory_shifts_and_evicts `{!JsonLaws H}
    (now1 now2 : Z) (g : value) (st : gmap string string) (l : list value) :
  GameHistoryManager.getHistory st = (Normal (VArr l), st) →
  let entry := GameHistoryManager.gameRecord now1 now2 g in
  ∃ st', GameHistoryManager.addGameToHistory now1 now2 g st = (Normal (), st')
    ∧ (quota st STORAGE_KEYS.GAME_HISTORY (JSON_stringify (VArr (take 50 (entry :: l))))
       = true →
       ∃ l', GameHistoryManager.getHistory st' = (Normal (VArr l'), st')
         ∧ l' !! 0 = Some entry
         ∧ (∀ i, i < 49 → l' !! S i = l !! i)
         ∧ (∀ i, 49 ≤ i → l' !! S i = None)
         ∧ length l' = Nat.min 50 (S (length l)))
    ∧ (quota st STORAGE_KEYS.GAME_HISTORY (JSON_stringify (VArr (take 50 (entry :: l))))
       = false → st' = st).
Proof.
  intros Hl entry. rewrite getHistory_eq in Hl. injection Hl as Hdec.
  rewrite addGameToHistory_eq, Hdec. cbn zeta. fold entry.
  destruct (quota _ _ _); eexists; (split; [done|]); split; try done.
  intros _. eexists. rewrite getHistory_eq, decode_or_empty_insert.
  split; [done|]. split_and!.
  - done.
  - intros i Hi. cbn [take]. by apply (lookup_take_lt l 49 i).
  - intros i Hi. cbn [take]. by apply (lookup_take_ge l 49 i).
  - rewrite length_take. simpl. lia.
Qed.
End history_more.

(** ** The settings, further *)

Section settings_more.
Context `{H : Host}.

Lemma union_defaults_id (m : gmap string value) :
  is_Some (m !! "soundEnabled") → is_Some (m !! "autoSave") →
  is_Some (m !! "difficulty") →
  m ∪ own_props SettingsManager.defaults = m.
Proof.
  intros [x1 H1] [x2 H2] [x3 H3]. apply map_eq. intros k.
  destruct (m !! k) as [x|] eqn:Hk; [by apply lookup_union_Some_l|].
  apply lookup_union_None_2; [done|]. cbn [own_props SettingsManager.defaults].
  rewrite !lookup_insert. repeat case_decide; simplify_eq; done.
Qed.

(** X14. After an accepted [saveSettings(m)], [loadSettings] returns [m]
    completed with the defaults of the fields it lacks, hence [m] itself
    when it has the three known fields; saving again what [loadSettings]
    returned changes nothing for the next [loadSettings]. A [saveSettings]
    that the store refuses returns normally and leaves the store as it was.
    A stored payload that decodes to [null], a boolean or a number gives the
    defaults. *)
Theorem settings_roundtrip `{!JsonLaws H} (m : gmap string value) (st : gmap string string) :
  (quota st STORAGE_KEYS.SETTINGS (JSON_stringify (VObj m)) = true →
   let st' := (SettingsManager.saveSettings (VObj m) st).2 in
   SettingsManager.loadSettings st'
   = (Normal (VObj (m ∪ own_props SettingsManager.defaults)), st')
   ∧ (is_Some (m !! "soundEnabled") → is_Some (m !! "autoSave") →
      is_Some (m !! "difficulty") →
      SettingsManager.loadSettings st' = (Normal (VObj m), st')))
  ∧ (∀ v, SettingsManager.loadSettings st = (Normal v, st) →
       quota st STORAGE_KEYS.SETTINGS (JSON_stringify v) = true →
       SettingsManager.loadSettings (SettingsManager.saveSettings v st).2
       = (Normal v, (SettingsManager.saveSettings v st).2))
  ∧ (∀ v, quota st STORAGE_KEYS.SETTINGS (JSON_stringify v) = false →
       SettingsManager.saveSettings v st = (Normal (), st))
  ∧ (∀ d v, st !! STORAGE_KEYS.SETTINGS = Some d → d ≠ "" → JSON_parse d = Some v →
       v = VNull ∨ (∃ b, v = VBool b) ∨ (∃ n, v = VNum n) →
       SettingsManager.loadSettings st = (Normal SettingsManager.defaults, st)).
Proof.
  assert (Hload : ∀ v st0,
            quota st0 STORAGE_KEYS.SETTINGS (JSON_stringify v) = true →
            SettingsManager.loadSettings (SettingsManager.saveSettings v st0).2
            = (Normal (spread2 SettingsManager.defaults v),
               (SettingsManager.saveSettings v st0).2)).
  { intros v st0 Hq. rewrite saveSettings_eq, Hq. cbn [snd].
    by rewrite loadSettings_eq, lookup_insert_eq, stringify_nonempty, parse_stringify. }
  split_and!.
  - intros Hq st'. subst st'. rewrite (Hload _ _ Hq). split; [done|].
    intros H1 H2 H3. unfold spread2. cbn [own_props].
    by rewrite union_defaults_id.
  - intros v Hv Hq. rewrite (Hload _ _ Hq). do 2 f_equal.
    rewrite loadSettings_eq in Hv. injection Hv as <-.
    assert (Hdefaults : spread2 SettingsManager.defaults SettingsManager.defaults
                        = SettingsManager.defaults).
    { unfold spread2. cbn [own_props SettingsManager.defaults]. f_equal. }
    destruct (st !! STORAGE_KEYS.SETTINGS) as [d|]; [|done].
    destruct (String.eqb d ""); [done|].
    destruct (JSON_parse d) as [stored|]; [|done].
    unfold spread2. cbn [own_props]. f_equal.
    by rewrite <-(assoc_L (∪)), (idemp_L (∪)).
  - intros v Hq. by rewrite saveSettings_eq, Hq.
  - intros d v Hd Hne Hp Hv. rewrite loadSettings_eq, Hd, Hp.
    destruct (String.eqb_spec d ""); [done|].
    destruct Hv as [->|[[b ->]|[z ->]]]; unfold spread2; cbn [own_props];
      by rewrite map_empty_union.
Qed.
End settings_more.

(** ** The auto-save, further *)

Section auto_save_more.
Context `{H : Host}.

Lemma run_app w acts1 acts2 : run w (acts1 ++ acts2) = run (run w acts1) acts2.
Proof. unfold run. apply foldl_app. Qed.

Lemma burst_cons c calls :
  burst (c :: calls) = [AutoSave c.1; Elapse c.2] ++ burst calls.
Proof. done. Qed.

(** A burst of calls less than 2000 ms apart writes nothing. *)
Lemma burst_quiet calls w :
  one_slot w → Forall (λ c, (c.2 < 2000)%Z) calls →
  autosaved (run w (burst calls)) = autosaved w
  ∧ storage (run w (burst calls)) = storage w
  ∧ clock (run w (burst calls)) = (clock w + burst_duration calls)%Z
  ∧ one_slot (run w (burst calls)).
Proof.
  intros Hinv Hcalls. revert w Hinv.
  induction Hcalls as [|c calls Hc _ IH]; intros w Hinv.
  { simpl. split_and!; [done..|lia|done]. }
  rewrite burst_cons, run_app. cbn [run foldl step].
  destruct (autoSave_quiet c.1 w c.2 Hinv Hc) as (Hlog & Hst & _ & _ & Hclock).
  set (w1 := elapse c.2 (GameStateManager.autoSave c.1 w)) in *.
  assert (Hinv1 : one_slot w1).
  { by apply (one_slot_step _ (Elapse c.2)), one_slot_autoSave. }
  destruct (IH w1 Hinv1) as (Hlog' & Hst' & Hclock' & Hinv').
  fold (run w1 (burst calls)).
  rewrite Hlog', Hst', Hclock', Hlog, Hst, Hclock. split_and!; [done..| |done].
  simpl. lia.
Qed.

(** X15. The auto-save can be starved: while [autoSave] calls keep coming
    less than 2000 ms apart, however many, nothing is written. Once 2000 ms
    pass after the last call, exactly one write has been made, of the state
    of that last call, 2000 ms after it; the states of the earlier calls are
    never written. *)
Theorem autoSave_burst_collapses
    (t0 : Z) (st0 : gmap string string) (acts : list action)
    (calls : list (value * Z)) (g : value) (dt : Z) :
  let w := run (boot t0 st0) acts in
  Forall (λ c, (c.2 < 2000)%Z) calls → (2000 ≤ dt)%Z →
  autosaved (run w (burst calls)) = autosaved w
  ∧ storage (run w (burst calls)) = storage w
  ∧ ∃ ok,
      let w' := run w (burst calls ++ [AutoSave g; Elapse dt]) in
      let fired := (clock w + burst_duration calls + 2000)%Z in
      autosaved w' = autosaved w ++ [(fired, g, ok)]
      ∧ GameStateManager.saveGameState fired g (storage w) = (Normal ok, storage w')
      ∧ timers w' = ∅.
Proof.
  intros w Hcalls Hdt.
  assert (Hinv : one_slot w) by apply one_slot_run, one_slot_boot.
  destruct (burst_quiet calls w Hinv Hcalls) as (Hlog & Hst & Hclock & Hinv').
  split; [done|]. split; [done|].
  destruct (autoSave_fires g _ dt Hinv' Hdt) as (ok & Hsave & Hlog' & Htimers & _).
  exists ok. cbn zeta. rewrite run_app. cbn [run foldl step].
  fold (run w (burst calls)).
  rewrite Hclock, Hst in Hsave. rewrite Hclock, Hlog in Hlog'. done.
Qed.

Lemma elapse_no_timer dt w :
  timers w = ∅ →
  elapse dt w = set_clock (clock w + Z.max 0 dt) w.
Proof.
  intros Hempty. unfold elapse. by rewrite Hempty, map_size_empty.
Qed.

(** X16. A pending auto-save overwrites a later manual save with its older
    state: after [autoSave(g1)], a [saveGameState(g2)] made within the
    2000 ms, and the rest of the 2000 ms, on a store that accepts the
    writes, the snapshot is the one of [g1]. *)
Theorem stale_autoSave_overwrites_manual_save `{!JsonLaws H}
    (t0 : Z) (st0 : gmap string string) (acts : list action) (g1 g2 : value)
    (dt1 dt2 : Z) :
  let w := run (boot t0 st0) acts in
  let w1 := run w [AutoSave g1; Elapse dt1; SaveGameState g2] in
  let w2 := step w1 (Elapse dt2) in
  (0 ≤ dt1 < 2000)%Z → (2000 ≤ dt1 + dt2)%Z →
  (∀ s k v, quota s k v = true) →
  GameStateManager.loadGameState (storage w1)
  = (Normal (GameStateManager.stateToSave (clock w + dt1) g2), storage w1)
  ∧ GameStateManager.loadGameState (storage w2)
    = (Normal (GameStateManager.stateToSave (clock w + 2000) g1), storage w2).
Proof.
  intros w w1 w2 Hdt1 Hdt2 Hq.
  assert (Hinv : one_slot w) by apply one_slot_run, one_slot_boot.
  subst w1 w2. cbn [run foldl]. cbn [step].
  set (wa := GameStateManager.autoSave g1 w).
  set (wb := elapse dt1 wa).
  destruct (autoSave_timers g1 w Hinv) as [Hone _].
  destruct (autoSave_quiet g1 w dt1 Hinv) as (Hlogb & Hstb & Htb & _ & Hclockb); [lia|].
  fold wa wb in Hlogb, Hstb, Htb, Hclockb. fold wa in Hone.
  rewrite Z.max_r in Hclockb by lia.
  set (wc := set_storage _ wb).
  assert (Htc : timers wc = {[next_handle w := mkTimer (clock w + 2000) g1]}).
  { subst wc. unfold set_storage. cbn [timers]. by rewrite Htb, Hone. }
  assert (Hstc : storage wc
            = <[STORAGE_KEYS.GAME_STATE :=
                  JSON_stringify (GameStateManager.stateToSave (clock w + dt1) g2)]>
                (storage w)).
  { subst wc. unfold set_storage. cbn [storage]. rewrite saveGameState_eq. cbn zeta.
    by rewrite Hq, Hclockb, Hstb. }
  assert (Hclockc : clock wc = (clock w + dt1)%Z).
  { subst wc. unfold set_storage. cbn [clock]. done. }
  split.
  - rewrite Hstc, loadGameState_eq, lookup_insert_eq, stringify_nonempty.
    by rewrite parse_stringify.
  - pose proof (elapse_single dt2 wc _ _ Htc) as Hel. cbn [deadline captured] in Hel.
    destruct (Z.leb_spec (clock w + 2000) (clock wc + Z.max 0 dt2)); [|lia].
    destruct Hel as (_ & Hs & _); [lia|].
    rewrite saveGameState_eq in Hs. cbn zeta in Hs. rewrite Hq in Hs. cbn [snd] in Hs.
    rewrite Hs, loadGameState_eq, lookup_insert_eq, stringify_nonempty.
    by rewrite parse_stringify.
Qed.

(** X17. An auto-save that the store refuses is not tried again: when the
    timer fires on a store that refuses the write, the callback has run
    once with result false, the store is as it was, no timer is pending,
    and any further time passing changes nothing. *)
Theorem refused_autoSave_is_not_retried
    (t0 : Z) (st0 : gmap string string) (acts : list action) (g : value)
    (dt dt' : Z) :
  let w := run (boot t0 st0) acts in
  let w1 := run w [AutoSave g; Elapse dt] in
  (2000 ≤ dt)%Z →
  (∀ v, quota (storage w) STORAGE_KEYS.GAME_STATE v = false) →
  autosaved w1 = autosaved w ++ [((clock w + 2000)%Z, g, false)]
  ∧ storage w1 = storage w
  ∧ timers w1 = ∅
  ∧ autosaved (step w1 (Elapse dt')) = autosaved w1
  ∧ storage (step w1 (Elapse dt')) = storage w1
  ∧ timers (step w1 (Elapse dt')) = ∅.
Proof.
  intros w w1 Hdt Hq.
  assert (Hinv : one_slot w) by apply one_slot_run, one_slot_boot.
  subst w1. cbn [run foldl]. cbn [step].
  destruct (autoSave_fires g w dt Hinv Hdt) as (ok & Hsave & Hlog & Htimers & _).
  set (w1 := elapse dt (GameStateManager.autoSave g w)) in *.
  rewrite saveGameState_eq in Hsave. cbn zeta in Hsave. rewrite Hq in Hsave.
  injection Hsave as <- Hst.
  rewrite (elapse_no_timer dt' w1 Htimers). unfold set_clock.
  cbn [autosaved storage timers]. rewrite Hlog, Htimers. split_and!; try done.
Qed.
End auto_save_more.

(** * The further properties on the sample data *)

Section more_samples.
Import Sample Sample2.
#[local] Existing Instance RefHost.host.

(** X2 on a user partition holding [null]. *)
Lemma user_partition_not_an_array_witness :
  users_null !! STORAGE_KEYS.USER_DATA = Some (JSON_stringify VNull)
  ∧ JSON_stringify VNull ≠ ""
  ∧ JSON_parse (JSON_stringify VNull) = Some VNull
  ∧ UserManager.getUser "ana" users_null = (Abrupt TypeError, users_null)
  ∧ UserManager.authenticate "ana" "pw" users_null = (Abrupt TypeError, users_null)
  ∧ updateStats "ana" patch users_null = (Abrupt TypeError, users_null)
  ∧ UserManager.saveUser (VObj ana) users_null = (Normal false, users_null).
Proof.
  assert (Hd : users_null !! STORAGE_KEYS.USER_DATA = Some (JSON_stringify VNull))
    by reflexivity.
  assert (Hne : JSON_stringify VNull ≠ "") by discriminate.
  assert (Hp : JSON_parse (JSON_stringify VNull) = Some VNull) by reflexivity.
  assert (Hv : ∀ l, VNull ≠ VArr l) by discriminate.
  destruct (user_partition_not_an_array users_null _ VNull (VObj ana) patch "ana" "pw"
              Hd Hne Hp Hv) as (_ & Hget & Hauth & Hupd & Hsave).
  split; [exact Hd|]. split; [exact Hne|]. split; [exact Hp|].
  split; [exact Hget|]. split; [exact Hauth|]. split; [exact Hupd|exact Hsave].
Defined.

(** X3 on the two stored users. *)
Lemma saveUser_preserves_UserStore_witness :
  ana_patch !! "username" = Some (VStr "ana")
  ∧ UserManager.getAllUsers two_users = (Normal (VArr [VObj ana; VObj bob]), two_users)
  ∧ UserStore [VObj ana; VObj bob]
  ∧ ∃ l', UserManager.getAllUsers (UserManager.saveUser (VObj ana_patch) two_users).2
          = (Normal (VArr l'), (UserManager.saveUser (VObj ana_patch) two_users).2)
          ∧ UserStore l'.
Proof.
  assert (Hname : ana_patch !! "username" = Some (VStr "ana")) by reflexivity.
  assert (Hall : UserManager.getAllUsers two_users
                 = (Normal (VArr [VObj ana; VObj bob]), two_users))
    by (vm_compute; reflexivity).
  split; [exact Hname|]. split; [exact Hall|]. split; [exact two_users_UserStore|].
  exact (saveUser_preserves_UserStore ana_patch "ana" Hname two_users _ Hall
           two_users_UserStore).
Defined.

(** X4 on the two stored users: the record of ana is updated in place. *)
Lemma saveUser_appends_or_updates_in_place_witness :
  ana_patch !! "username" = Some (VStr "ana")
  ∧ UserManager.saveUser (VObj ana_patch) two_users
    = (Normal true, (UserManager.saveUser (VObj ana_patch) two_users).2)
  ∧ ∃ l l',
      UserManager.getAllUsers two_users = (Normal (VArr l), two_users)
      ∧ UserManager.getAllUsers (UserManager.saveUser (VObj ana_patch) two_users).2
        = (Normal (VArr l'), (UserManager.saveUser (VObj ana_patch) two_users).2)
      ∧ ((UserManager.getUser "ana" two_users = (Normal VNull, two_users)
          ∧ l' = l ++ [VObj ana_patch])
         ∨ (∃ n old,
              UserManager.getUser "ana" two_users = (Normal (VObj old), two_users)
              ∧ l !! n = Some (VObj old)
              ∧ l' = <[n := VObj (ana_patch ∪ old)]> l
              ∧ length l' = length l
              ∧ ∀ i, i ≠ n → l' !! i = l !! i)).
Proof.
  assert (Hname : ana_patch !! "username" = Some (VStr "ana")) by reflexivity.
  assert (Hsave : UserManager.saveUser (VObj ana_patch) two_users
    = (Normal true, (UserManager.saveUser (VObj ana_patch) two_users).2))
    by (vm_compute; reflexivity).
  split; [exact Hname|]. split; [exact Hsave|].
  exact (saveUser_appends_or_updates_in_place ana_patch "ana" two_users _ Hname Hsave).
Defined.

(** X5 on the two stored users: saving ana leaves bob as found before. *)
Lemma saveUser_other_users_unchanged_witness :
  ana_patch !! "username" = Some (VStr "ana")
  ∧ "bob" ≠ "ana"
  ∧ (UserManager.getUser "bob" (UserManager.saveUser (VObj ana_patch) two_users).2).1
    = (UserManager.getUser "bob" two_users).1.
Proof.
  assert (Hname : ana_patch !! "username" = Some (VStr "ana")) by reflexivity.
  assert (Hne : "bob" ≠ "ana") by discriminate.
  split; [exact Hname|]. split; [exact Hne|].
  exact (saveUser_other_users_unchanged ana_patch "ana" "bob" two_users Hname Hne).
Defined.

(** X6 on the empty store. *)
Lemma saveUser_then_authenticate_witness :
  ana !! "username" = Some (VStr "ana")
  ∧ ana !! "password" = Some (VStr "pw")
  ∧ UserManager.saveUser (VObj ana) ∅
    = (Normal true, (UserManager.saveUser (VObj ana) ∅).2)
  ∧ (∃ merged,
       UserManager.authenticate "ana" "pw" (UserManager.saveUser (VObj ana) ∅).2
       = (Normal (VObj merged), (UserManager.saveUser (VObj ana) ∅).2)
       ∧ UserManager.getUser "ana" (UserManager.saveUser (VObj ana) ∅).2
         = (Normal (VObj merged), (UserManager.saveUser (VObj ana) ∅).2)
       ∧ ∀ k x, ana !! k = Some x → merged !! k = Some x)
  ∧ UserManager.authenticate "ana" "guess" (UserManager.saveUser (VObj ana) ∅).2
    = (Normal VNull, (UserManager.saveUser (VObj ana) ∅).2).
Proof.
  assert (Hname : ana !! "username" = Some (VStr "ana")) by reflexivity.
  assert (Hpw : ana !! "password" = Some (VStr "pw")) by reflexivity.
  assert (Hsave : UserManager.saveUser (VObj ana) ∅
    = (Normal true, (UserManager.saveUser (VObj ana) ∅).2)) by reflexivity.
  destruct (saveUser_then_authenticate ana "ana" "pw" ∅ _ Hname Hpw Hsave)
    as [Hok Hbad].
  split; [exact Hname|]. split; [exact Hpw|]. split; [exact Hsave|].
  split; [exact Hok|]. apply Hbad. discriminate.
Defined.

(** X7 on two records without a username. *)
Lemma saveUser_without_username_collapses_witness :
  no_name1 !! "username" = None
  ∧ no_name2 !! "username" = None
  ∧ (∅ : gmap string string) !! STORAGE_KEYS.USER_DATA = None
  ∧ UserManager.getAllUsers
      (UserManager.saveUser (VObj no_name2) (UserManager.saveUser (VObj no_name1) ∅).2).2
    = (Normal (VArr [VObj (no_name2 ∪ no_name1)]),
       (UserManager.saveUser (VObj no_name2) (UserManager.saveUser (VObj no_name1) ∅).2).2).
Proof.
  assert (H1 : no_name1 !! "username" = None) by reflexivity.
  assert (H2 : no_name2 !! "username" = None) by reflexivity.
  assert (H3 : (∅ : gmap string string) !! STORAGE_KEYS.USER_DATA = None) by reflexivity.
  split; [exact H1|]. split; [exact H2|]. split; [exact H3|].
  exact (proj1 (saveUser_without_username_collapses no_name1 no_name2 ∅ H1 H2 H3
                  (λ _ _ _, eq_refl))).
Defined.

(** X8 on the two stored users: a patch of the statistics of ana. *)
Lemma updateStats_merges_stats_witness :
  UserManager.getUser "ana" two_users = (Normal (VObj ana), two_users)
  ∧ ∃ st' merged,
      updateStats "ana" patch two_users = (Normal (), st')
      ∧ UserManager.getUser "ana" st' = (Normal (VObj merged), st')
      ∧ merged !! "stats" = Some (VObj {[ "wins" := VNum 2; "losses" := VNum 1 ]})
      ∧ merged !! "password" = Some (VStr "pw").
Proof.
  assert (Hget : UserManager.getUser "ana" two_users = (Normal (VObj ana), two_users))
    by (vm_compute; reflexivity).
  split; [exact Hget|].
  destruct (proj2 (updateStats_merges_stats "ana" patch two_users) ana Hget
              (λ _, eq_refl)) as (st' & merged & Hupd & Hafter & Hstats & Hother).
  exists st', merged. split; [exact Hupd|]. split; [exact Hafter|]. split.
  - rewrite Hstats. vm_compute. reflexivity.
  - rewrite Hother by discriminate. reflexivity.
Defined.

(** X11 on the empty store. *)
Lemma saveGameState_overwrites_or_keeps_witness :
  GameStateManager.saveGameState 1000 (VObj board) ∅
  = (Normal true, (GameStateManager.saveGameState 1000 (VObj board) ∅).2)
  ∧ ∃ b st2,
      GameStateManager.saveGameState 2000 (VObj board2)
        (GameStateManager.saveGameState 1000 (VObj board) ∅).2 = (Normal b, st2)
      ∧ b = true
      ∧ GameStateManager.loadGameState st2
        = (Normal (GameStateManager.stateToSave 2000 (VObj board2)), st2).
Proof.
  assert (Hsave : GameStateManager.saveGameState 1000 (VObj board) ∅
    = (Normal true, (GameStateManager.saveGameState 1000 (VObj board) ∅).2))
    by reflexivity.
  split; [exact Hsave|].
  destruct (saveGameState_overwrites_or_keeps board board2 1000 2000 ∅ _ Hsave)
    as (b & st2 & Hrun & Htrue & _).
  assert (Hb : b = true).
  { rewrite saveGameState_eq in Hrun. simpl in Hrun. by injection Hrun as <- _. }
  exists b, st2. split; [exact Hrun|]. split; [exact Hb|exact (Htrue Hb)].
Defined.

(** X12 on a history partition holding an object. *)
Lemma history_not_an_array_is_never_repaired_witness :
  history_object !! STORAGE_KEYS.GAME_HISTORY = Some (JSON_stringify (VObj ∅))
  ∧ JSON_stringify (VObj ∅) ≠ ""
  ∧ JSON_parse (JSON_stringify (VObj ∅)) = Some (VObj ∅)
  ∧ GameHistoryManager.getHistory history_object = (Normal (VObj ∅), history_object)
  ∧ add_games sixty_calls history_object = history_object.
Proof.
  assert (Hd : history_object !! STORAGE_KEYS.GAME_HISTORY
               = Some (JSON_stringify (VObj ∅))) by reflexivity.
  assert (Hne : JSON_stringify (VObj ∅) ≠ "") by discriminate.
  assert (Hp : JSON_parse (JSON_stringify (VObj ∅)) = Some (VObj ∅)) by reflexivity.
  assert (Hv : ∀ l, VObj ∅ ≠ VArr l) by discriminate.
  destruct (history_not_an_array_is_never_repaired history_object _ (VObj ∅) sixty_calls
              Hd Hne Hp Hv) as (Hget & _ & Hstuck & _).
  split; [exact Hd|]. split; [exact Hne|]. split; [exact Hp|].
  split; [exact Hget|exact Hstuck].
Defined.

(** X13 on the empty store. *)
Lemma addGameToHistory_shifts_and_evicts_witness :
  GameHistoryManager.getHistory (∅ : gmap string string) = (Normal (VArr []), ∅)
  ∧ ∃ st', GameHistoryManager.addGameToHistory 1001 1001 (game 1) ∅ = (Normal (), st')
      ∧ ∃ l', GameHistoryManager.getHistory st' = (Normal (VArr l'), st')
              ∧ l' !! 0 = Some (entry_of (call 1)) ∧ length l' = 1.
Proof.
  assert (Hempty : GameHistoryManager.getHistory (∅ : gmap string string)
                   = (Normal (VArr []), ∅)) by reflexivity.
  split; [exact Hempty|].
  destruct (addGameToHistory_shifts_and_evicts 1001 1001 (game 1) ∅ [] Hempty)
    as (st' & Hadd & Haccepted & _).
  exists st'. split; [exact Hadd|].
  destruct (Haccepted eq_refl) as (l' & Hget & Hhead & _ & _ & Hlen).
  exists l'. split; [exact Hget|]. split; [exact Hhead|exact Hlen].
Defined.

(** X14 on the empty store. *)
Lemma settings_roundtrip_witness :
  quota (∅ : gmap string string) STORAGE_KEYS.SETTINGS (JSON_stringify (VObj hard)) = true
  ∧ SettingsManager.loadSettings (SettingsManager.saveSettings (VObj hard) ∅).2
    = (Normal (VObj (hard ∪ own_props SettingsManager.defaults)),
       (SettingsManager.saveSettings (VObj hard) ∅).2).
Proof.
  assert (Hq : quota (∅ : gmap string string) STORAGE_KEYS.SETTINGS
                 (JSON_stringify (VObj hard)) = true) by reflexivity.
  split; [exact Hq|].
  exact (proj1 (proj1 (settings_roundtrip hard ∅) Hq)).
Defined.

(** X15 on a freshly loaded page: three calls 500 ms and 1999 ms apart. *)
Lemma autoSave_burst_collapses_witness :
  Forall (λ c : value * Z, (c.2 < 2000)%Z) [(s1, 500%Z); (s2, 1999%Z)]
  ∧ (2000 ≤ 2000)%Z
  ∧ autosaved (run (boot 0 ∅) (burst [(s1, 500%Z); (s2, 1999%Z)])) = []
  ∧ ∃ ok,
      autosaved (run (boot 0 ∅)
                   (burst [(s1, 500%Z); (s2, 1999%Z)] ++ [AutoSave s1; Elapse 2000]))
      = [(4499%Z, s1, ok)].
Proof.
  assert (Hcalls : Forall (λ c : value * Z, (c.2 < 2000)%Z) [(s1, 500%Z); (s2, 1999%Z)]).
  { repeat constructor; simpl; lia. }
  assert (Hdt : (2000 ≤ 2000)%Z) by lia.
  destruct (autoSave_burst_collapses 0 ∅ [] _ s1 2000 Hcalls Hdt)
    as (Hquiet & _ & ok & Hlog & _).
  split; [exact Hcalls|]. split; [exact Hdt|]. split; [exact Hquiet|].
  exists ok. exact Hlog.
Defined.

(** X16 on a freshly loaded page. *)
Lemma stale_autoSave_overwrites_manual_save_witness :
  (0 ≤ 500 < 2000)%Z ∧ (2000 ≤ 500 + 1500)%Z
  ∧ GameStateManager.loadGameState
      (storage (run (boot 0 ∅) [AutoSave s1; Elapse 500; SaveGameState s2]))
    = (Normal (GameStateManager.stateToSave 500 s2),
       storage (run (boot 0 ∅) [AutoSave s1; Elapse 500; SaveGameState s2]))
  ∧ GameStateManager.loadGameState
      (storage (run (boot 0 ∅) [AutoSave s1; Elapse 500; SaveGameState s2; Elapse 1500]))
    = (Normal (GameStateManager.stateToSave 2000 s1),
       storage (run (boot 0 ∅) [AutoSave s1; Elapse 500; SaveGameState s2; Elapse 1500])).
Proof.
  assert (Hdt1 : (0 ≤ 500 < 2000)%Z) by lia.
  assert (Hdt2 : (2000 ≤ 500 + 1500)%Z) by lia.
  assert (Hq : ∀ s k v, @quota RefHost.host s k v = true) by (intros; reflexivity).
  destruct (stale_autoSave_overwrites_manual_save (H:=RefHost.host)
              0 ∅ [] s1 s2 500 1500 Hdt1 Hdt2 Hq) as [Hmanual Hstale].
  split; [exact Hdt1|]. split; [exact Hdt2|]. split; [exact Hmanual|exact Hstale].
Defined.

(** X17 on a freshly loaded page whose store is full. *)
Lemma refused_autoSave_is_not_retried_witness :
  (2000 ≤ 2500)%Z
  ∧ autosaved (@run RefHost.full_host (boot 0 ∅) [AutoSave s1; Elapse 2500])
    = [(2000%Z, s1, false)]
  ∧ storage (@run RefHost.full_host (boot 0 ∅) [AutoSave s1; Elapse 2500]) = ∅
  ∧ timers (@run RefHost.full_host (boot 0 ∅) [AutoSave s1; Elapse 2500]) = ∅.
Proof.
  assert (Hdt : (2000 ≤ 2500)%Z) by lia.
  destruct (refused_autoSave_is_not_retried (H:=RefHost.full_host) 0 ∅ [] s1 2500 1000
              Hdt (λ _, eq_refl)) as (Hlog & Hst & Htimers & _).
  split; [exact Hdt|]. split; [exact Hlog|]. split; [exact Hst|exact Htimers].
Defined.
End more_samples.

(** * The save and load buttons *)

Section buttons.
Import SaveLoadButtons.

Lemma fire_pending_fields target q p :
  messageText (fire_pending target q p) = message_after target q (messageText p)
  ∧ saveIndicator (fire_pending target q p) = display_after target q (saveIndicator p)
  ∧ pending (fire_pending target q p) = still_pending target q
  ∧ next_id (fire_pending target q p) = next_id p
  ∧ autoSaveTimeout (fire_pending target q p) = autoSaveTimeout p.
Proof.
  revert p. induction q as [|[[h t] cb] q IH]; intros p; [done|].
  cbn [fire_pending message_after display_after still_pending fst snd].
  destruct (t <=? target)%Z; [|done].
  destruct (IH (run_callback cb
    (mkPage (Z.max (page_clock p) t) (saveIndicator p) (messageText p)
       (rollDisabled p) (alerts p) q (next_id p) (autoSaveTimeout p))))
    as (-> & -> & -> & -> & ->).
  by destruct cb.
Qed.

Lemma elapse_fields dt p :
  let target := (page_clock p + Z.max 0 dt)%Z in
  messageText (elapse dt p) = message_after target (pending p) (messageText p)
  ∧ saveIndicator (elapse dt p) = display_after target (pending p) (saveIndicator p)
  ∧ pending (elapse dt p) = still_pending target (pending p)
  ∧ page_clock (elapse dt p) = target
  ∧ next_id (elapse dt p) = next_id p
  ∧ autoSaveTimeout (elapse dt p) = autoSaveTimeout p.
Proof.
  intros target. unfold elapse. fold target. cbn [messageText saveIndicator pending
    page_clock next_id autoSaveTimeout].
  destruct (fire_pending_fields target (pending p) p) as (-> & -> & -> & -> & ->).
  done.
Qed.

Variable gl : GameLogic.
Hypothesis game_active : gameActive gl = true.
Hypothesis save_succeeds : ∀ p, saveGame gl p = (true, p).

(** What a successful save click does to the page. *)
Lemma click_save_fields p :
  page_clock (click_save (Some gl) p) = page_clock p
  ∧ saveIndicator (click_save (Some gl) p)
    = match saveIndicator p with Some _ => Some "block" | None => None end
  ∧ messageText (click_save (Some gl) p)
    = match messageText p with Some _ => Some saved_text | None => None end
  ∧ pending (click_save (Some gl) p)
    = let q1 :=
        match saveIndicator p with
        | Some _ => enqueue (next_id p, (page_clock p + 3000)%Z, HideIndicator) (pending p)
        | None => pending p
        end in
      match messageText p with
      | Some text =>
          enqueue (match saveIndicator p with
                   | Some _ => Pos.succ (next_id p)
                   | None => next_id p
                   end, (page_clock p + 2000)%Z, RestoreMessage text) q1
      | None => q1
      end.
Proof using game_active save_succeeds.
  unfold click_save. rewrite game_active, save_succeeds. cbn [negb].
  unfold flash_message. destruct p as [c [display|] [text|] roll al q nid ast]; done.
Qed.

Ltac decide_leb :=
  repeat match goal with
  | |- context [(?a <=? ?b)%Z] =>
      first
        [ assert ((a <=? b)%Z = true) as -> by (apply Z.leb_le; lia)
        | assert ((a <=? b)%Z = false) as -> by (apply Z.leb_gt; lia)
        | destruct (Z.leb_spec a b) ]
  end.

Ltac queue_simpl :=
  repeat progress
    (cbn [enqueue message_after display_after still_pending fst snd]; decide_leb).

(** X18. After one successful save click the message shows the success text
    until 2000 ms have passed, and its previous text from then on. After a
    second successful click made before that, [d1] ms after the first, the
    message shows the success text again; the timer of the first click puts
    the previous text back 2000 ms after the first click, and the timer of
    the second click, which captured the success text, puts that back
    2000 ms after the second click. From then on the message shows the
    success text, the previous text is lost, and once 3000 ms have passed no
    timer is left to change it. *)
Theorem second_save_click_loses_the_message
    (p : Page) (text : string) (d1 d2 d : Z) :
  messageText p = Some text → pending p = [] →
  (0 ≤ d1 < 2000)%Z → (3000 ≤ d2)%Z →
  let p1 := click_save (Some gl) p in
  let p2 := click_save (Some gl) (elapse d1 p1) in
  messageText p1 = Some saved_text
  ∧ ((d < 2000)%Z → messageText (elapse d p1) = Some saved_text)
  ∧ ((2000 ≤ d)%Z → messageText (elapse d p1) = Some text)
  ∧ pending (elapse d2 p1) = []
  ∧ messageText p2 = Some saved_text
  ∧ ((d < 2000 - d1)%Z → messageText (elapse d p2) = Some saved_text)
  ∧ ((2000 - d1 ≤ d < 2000)%Z → messageText (elapse d p2) = Some text)
  ∧ ((2000 ≤ d)%Z → messageText (elapse d p2) = Some saved_text)
  ∧ pending (elapse d2 p2) = [].
Proof using game_active save_succeeds.
  intros Hmsg Hq Hd1 Hd2 p1 p2.
  destruct (click_save_fields p) as (Hc1 & Hi1 & Hm1 & Hq1). fold p1 in Hc1, Hi1, Hm1, Hq1.
  rewrite Hmsg in Hm1. rewrite Hmsg, Hq in Hq1. cbn zeta in Hq1.
  assert (Hel1 : ∀ x, messageText (elapse x p1)
             = message_after (page_clock p + Z.max 0 x) (pending p1) (Some saved_text)).
  { intros x. destruct (elapse_fields x p1) as (Hme & _). cbn zeta in Hme.
    by rewrite Hme, Hc1, Hm1. }
  destruct (elapse_fields d1 p1) as (_ & Hie & Hqe & Hce & _). cbn zeta in *.
  destruct (elapse_fields d2 p1) as (_ & _ & Hqe' & _). cbn zeta in *.
  rewrite Hc1, Hq1, Hi1 in Hie. rewrite Hc1, Hq1 in Hqe. rewrite Hc1, Hq1 in Hqe'.
  rewrite Hc1 in Hce.
  rewrite Z.max_r in Hie, Hqe, Hce by lia. rewrite Z.max_r in Hqe' by lia.
  assert (Hsaved : messageText (elapse d1 p1) = Some saved_text
                   ∧ pending (elapse d1 p1) = pending p1
                   ∧ saveIndicator (elapse d1 p1) = saveIndicator p1).
  { rewrite Hel1, Hqe, Hie, Hq1, Hi1. destruct (saveIndicator p); queue_simpl; done. }
  destruct Hsaved as (Hsaved & Hkept & Hind).
  destruct (click_save_fields (elapse d1 p1)) as (Hc2 & Hi2 & Hm2 & Hq2).
  fold p2 in Hc2, Hi2, Hm2, Hq2. cbn zeta in Hq2.
  rewrite Hsaved in Hm2. rewrite Hsaved, Hkept, Hind, Hq1, Hi1, Hce in Hq2.
  rewrite Hce in Hc2.
  assert (Hel2 : ∀ x, messageText (elapse x p2)
             = message_after (page_clock p + d1 + Z.max 0 x) (pending p2)
                 (Some saved_text)).
  { intros x. destruct (elapse_fields x p2) as (Hme & _). cbn zeta in Hme.
    by rewrite Hme, Hc2, Hm2. }
  destruct (elapse_fields d2 p2) as (_ & _ & Hqe2 & _). cbn zeta in Hqe2.
  rewrite Hc2, Hq2, Z.max_r in Hqe2 by lia.
  split_and!.
  - done.
  - intros Hd. rewrite Hel1, Hq1. destruct (saveIndicator p); queue_simpl; try done; lia.
  - intros Hd. rewrite Hel1, Hq1. destruct (saveIndicator p); queue_simpl; try done; lia.
  - rewrite Hqe'. destruct (saveIndicator p); queue_simpl; done.
  - done.
  - intros Hd. rewrite Hel2, Hq2. destruct (saveIndicator p); queue_simpl; try done; lia.
  - intros Hd. rewrite Hel2, Hq2. destruct (saveIndicator p); queue_simpl; try done; lia.
  - intros Hd. rewrite Hel2, Hq2. destruct (saveIndicator p); queue_simpl; try done; lia.
  - rewrite Hqe2. destruct (saveIndicator p); queue_simpl; done.
Qed.

(** X19. The save indicator is not debounced: a successful save click shows
    it and a timer hides it 3000 ms later; when a second successful click
    comes within those 3000 ms the timer of the first click still fires, so
    the indicator is hidden 3000 ms after the first click, before 3000 ms
    have passed since the second. *)
Theorem save_indicator_is_not_debounced
    (p : Page) (display : string) (d1 d : Z) :
  saveIndicator p = Some display → pending p = [] →
  (0 ≤ d1 < 3000)%Z →
  let p1 := click_save (Some gl) p in
  let p2 := click_save (Some gl) (elapse d1 p1) in
  saveIndicator p1 = Some "block"
  ∧ ((d < 3000)%Z → saveIndicator (elapse d p1) = Some "block")
  ∧ ((3000 ≤ d)%Z → saveIndicator (elapse d p1) = Some "none")
  ∧ saveIndicator p2 = Some "block"
  ∧ saveIndicator (elapse (3000 - d1) p2) = Some "none".
Proof using game_active save_succeeds.
  intros Hind Hq Hd1 p1 p2.
  destruct (click_save_fields p) as (Hc1 & Hi1 & Hm1 & Hq1). fold p1 in Hc1, Hi1, Hm1, Hq1.
  rewrite Hind in Hi1. rewrite Hind, Hq in Hq1. cbn zeta in Hq1.
  assert (Hel : ∀ x, saveIndicator (elapse x p1)
            = display_after (page_clock p + Z.max 0 x) (pending p1) (Some "block")).
  { intros x. destruct (elapse_fields x p1) as (_ & Hie & _). cbn zeta in Hie.
    by rewrite Hie, Hc1, Hi1. }
  destruct (elapse_fields d1 p1) as (Hme & _ & Hqe & Hce & _). cbn zeta in *.
  rewrite Hc1 in Hme, Hqe, Hce. rewrite Z.max_r in Hme, Hqe, Hce by lia.
  destruct (click_save_fields (elapse d1 p1)) as (Hc2 & Hi2 & Hm2 & Hq2).
  fold p2 in Hc2, Hi2, Hm2, Hq2. cbn zeta in Hq2.
  destruct (elapse_fields (3000 - d1) p2) as (_ & Hie2 & _). cbn zeta in Hie2.
  assert (Hshown : saveIndicator (elapse d1 p1) = Some "block").
  { rewrite Hel, Hq1, Z.max_r by lia. destruct (messageText p); queue_simpl; done. }
  rewrite Hshown in Hi2, Hq2. rewrite Hc2, Hi2, Hq2, Hce, Hqe, Hme, Hq1, Hm1 in Hie2.
  rewrite Z.max_r in Hie2 by lia.
  split; [done|]. split_and!.
  - intros Hd. rewrite Hel, Hq1. destruct (messageText p); queue_simpl; try done; lia.
  - intros Hd. rewrite Hel, Hq1. destruct (messageText p); queue_simpl; try done; lia.
  - done.
  - rewrite Hie2. destruct (messageText p); queue_simpl; try done; lia.
Qed.

Hypothesis autoSave_keeps_page : ∀ p, autoSaveGame gl p = p.

Lemma autoSaveGame_wrapped_fields p display :
  saveIndicator p = Some display →
  page_clock (autoSaveGame_wrapped gl p) = page_clock p
  ∧ saveIndicator (autoSaveGame_wrapped gl p) = Some "block"
  ∧ messageText (autoSaveGame_wrapped gl p) = messageText p
  ∧ pending (autoSaveGame_wrapped gl p)
    = enqueue (next_id p, (page_clock p + 2000)%Z, HideIndicator)
        match autoSaveTimeout p with
        | Some h => filter (λ t, t.1.1 ≠ h) (pending p)
        | None => pending p
        end
  ∧ next_id (autoSaveGame_wrapped gl p) = Pos.succ (next_id p)
  ∧ autoSaveTimeout (autoSaveGame_wrapped gl p) = Some (next_id p).
Proof using autoSave_keeps_page.
  intros Hind. unfold autoSaveGame_wrapped. rewrite autoSave_keeps_page, Hind.
  by destruct (autoSaveTimeout p).
Qed.

(** X20. The indicator of the wrapped [autoSaveGame] is debounced: each
    call cancels the hiding timer of the previous call, so after two calls
    less than 2000 ms apart a single timer is pending and the indicator
    stays shown until 2000 ms after the second call. A timer left by a save
    click is not cancelled, though: it hides the indicator 3000 ms after
    that click even when an auto-save showed it less than 2000 ms before. *)
Theorem autoSave_indicator_is_debounced
    (p : Page) (display : string) (d1 d : Z) :
  saveIndicator p = Some display → pending p = [] → autoSaveTimeout p = None →
  let p1 := autoSaveGame_wrapped gl p in
  let p2 := autoSaveGame_wrapped gl (elapse d1 p1) in
  let q2 := autoSaveGame_wrapped gl (elapse d1 (click_save (Some gl) p)) in
  ((0 ≤ d1 < 2000)%Z →
   pending p2 = [(Pos.succ (next_id p), (page_clock p + d1 + 2000)%Z, HideIndicator)]
   ∧ ((d < 2000)%Z → saveIndicator (elapse d p2) = Some "block")
   ∧ ((2000 ≤ d)%Z → saveIndicator (elapse d p2) = Some "none"))
  ∧ ((1000 < d1 < 3000)%Z →
     saveIndicator q2 = Some "block"
     ∧ saveIndicator (elapse (3000 - d1) q2) = Some "none").
Proof using game_active save_succeeds autoSave_keeps_page.
  intros Hind Hq Hast p1 p2 q2. split.
  - intros Hd1.
    destruct (autoSaveGame_wrapped_fields p display Hind)
      as (Hc1 & Hi1 & _ & Hq1 & Hn1 & Ha1). fold p1 in Hc1, Hi1, Hq1, Hn1, Ha1.
    rewrite Hast, Hq in Hq1. cbn [enqueue] in Hq1.
    destruct (elapse_fields d1 p1) as (_ & Hie & Hqe & Hce & Hne & Hae). cbn zeta in *.
    rewrite Hc1, Hq1, Hi1 in Hie. rewrite Hc1, Hq1 in Hqe. rewrite Hc1 in Hce.
    rewrite Hn1 in Hne. rewrite Ha1 in Hae.
    rewrite Z.max_r in Hie, Hqe, Hce by lia.
    assert (Hkept : saveIndicator (elapse d1 p1) = Some "block"
                    ∧ pending (elapse d1 p1)
                      = [(next_id p, (page_clock p + 2000)%Z, HideIndicator)]).
    { rewrite Hie, Hqe. queue_simpl. done. }
    destruct Hkept as [Hie' Hqe'].
    destruct (autoSaveGame_wrapped_fields (elapse d1 p1) _ Hie')
      as (Hc2 & Hi2 & _ & Hq2 & _). fold p2 in Hc2, Hi2, Hq2.
    rewrite Hae, Hqe', Hne, Hce in Hq2. cbn [filter list_filter fst snd] in Hq2.
    rewrite decide_False in Hq2 by (intros Hne'; by apply Hne'). cbn [enqueue] in Hq2.
    split; [done|].
    assert (Hel : ∀ x, saveIndicator (elapse x p2)
              = display_after (page_clock p + d1 + Z.max 0 x) (pending p2) (Some "block")).
    { intros x. destruct (elapse_fields x p2) as (_ & Hie2 & _). cbn zeta in Hie2.
      by rewrite Hie2, Hc2, Hi2, Hce. }
    split; intros Hd; rewrite Hel, Hq2; queue_simpl; try done; lia.
  - intros Hd1.
    destruct (click_save_fields p) as (Hc1 & Hi1 & Hm1 & Hq1).
    rewrite Hind in Hi1. rewrite Hind, Hq in Hq1. cbn zeta in Hq1.
    set (p0 := click_save (Some gl) p) in *.
    assert (Ha1 : autoSaveTimeout p0 = None).
    { subst p0. unfold click_save. rewrite game_active, save_succeeds. cbn [negb].
      unfold flash_message. rewrite Hind.
      destruct p as [c ind [text|] roll al q nid ast]; cbn in *; done. }
    destruct (elapse_fields d1 p0) as (_ & Hie & Hqe & Hce & _ & Hae). cbn zeta in *.
    rewrite Hc1, Hi1 in Hie. rewrite Hc1 in Hqe. rewrite Hc1 in Hce. rewrite Ha1 in Hae.
    rewrite Z.max_r in Hie, Hqe, Hce by lia.
    assert (Hshown : saveIndicator (elapse d1 p0) = Some "block").
    { rewrite Hie, Hq1. destruct (messageText p); queue_simpl; try done; lia. }
    destruct (autoSaveGame_wrapped_fields (elapse d1 p0) _ Hshown)
      as (Hc2 & Hi2 & _ & Hq2 & _). fold q2 in Hc2, Hi2, Hq2.
    rewrite Hae in Hq2.
    split; [done|].
    destruct (elapse_fields (3000 - d1) q2) as (_ & Hie2 & _). cbn zeta in Hie2.
    rewrite Hie2, Hc2, Hi2, Hq2, Hce, Hqe, Hq1, Z.max_r by lia.
    destruct (messageText p); queue_simpl; try done; lia.
Qed.

Hypothesis has_saved_game : ∀ p, hasSavedGame gl p = (true, p).
Hypothesis load_succeeds : ∀ p, loadGame gl p = (true, p).

Lemma click_load_fields p :
  page_clock (click_load (Some gl) true p) = page_clock p
  ∧ saveIndicator (click_load (Some gl) true p) = saveIndicator p
  ∧ rollDisabled (click_load (Some gl) true p)
    = match rollDisabled p with Some _ => Some false | None => None end
  ∧ messageText (click_load (Some gl) true p)
    = match messageText p with Some _ => Some loaded_text | None => None end
  ∧ pending (click_load (Some gl) true p)
    = match messageText p with
      | Some text =>
          enqueue (next_id p, (page_clock p + 2000)%Z, RestoreMessage text) (pending p)
      | None => pending p
      end.
Proof using game_active has_saved_game load_succeeds.
  unfold click_load. rewrite has_saved_game, game_active, load_succeeds. cbn [negb andb].
  unfold flash_message, enable_roll.
  destruct p as [c ind [text|] roll al q nid ast]; done.
Qed.

(** X21. The load button: while a game is active nothing at all happens
    unless the user confirms. A confirmed, successful load enables the roll
    button and shows its success text until 2000 ms have passed, and the
    previous text from then on. When the load follows a successful save
    click by [d1] ms, less than 2000, the timer of the save click puts the
    original text back 2000 ms after the save click, and the timer of the
    load, which captured the success text of the save, puts that back
    2000 ms after the load; from then on it stays, and once 3000 ms have
    passed no timer is left to change it. *)
Theorem load_click_after_save_click
    (p : Page) (text : string) (d1 d2 d : Z) :
  messageText p = Some text → pending p = [] →
  (0 ≤ d1 < 2000)%Z → (3000 ≤ d2)%Z →
  let p1 := click_load (Some gl) true p in
  let p2 := click_load (Some gl) true (elapse d1 (click_save (Some gl) p)) in
  click_load (Some gl) false p = p
  ∧ rollDisabled p1 = match rollDisabled p with Some _ => Some false | None => None end
  ∧ messageText p1 = Some loaded_text
  ∧ ((d < 2000)%Z → messageText (elapse d p1) = Some loaded_text)
  ∧ ((2000 ≤ d)%Z → messageText (elapse d p1) = Some text)
  ∧ messageText p2 = Some loaded_text
  ∧ ((d < 2000 - d1)%Z → messageText (elapse d p2) = Some loaded_text)
  ∧ ((2000 - d1 ≤ d < 2000)%Z → messageText (elapse d p2) = Some text)
  ∧ ((2000 ≤ d)%Z → messageText (elapse d p2) = Some saved_text)
  ∧ pending (elapse d2 p2) = [].
Proof using game_active save_succeeds has_saved_game load_succeeds.
  intros Hmsg Hq Hd1 Hd2 p1 p2.
  destruct (click_load_fields p) as (Hc1 & _ & Hr1 & Hm1 & Hq1).
  fold p1 in Hc1, Hr1, Hm1, Hq1. rewrite Hmsg in Hm1. rewrite Hmsg, Hq in Hq1.
  assert (Hel1 : ∀ x, messageText (elapse x p1)
             = message_after (page_clock p + Z.max 0 x) (pending p1) (Some loaded_text)).
  { intros x. destruct (elapse_fields x p1) as (Hme & _). cbn zeta in Hme.
    by rewrite Hme, Hc1, Hm1. }
  destruct (click_save_fields p) as (Hc0 & Hi0 & Hm0 & Hq0).
  set (p0 := click_save (Some gl) p) in *.
  rewrite Hmsg in Hm0. rewrite Hmsg, Hq in Hq0. cbn zeta in Hq0.
  destruct (elapse_fields d1 p0) as (Hme & _ & Hqe & Hce & _). cbn zeta in *.
  rewrite Hc0, Hq0, Hm0 in Hme. rewrite Hc0, Hq0 in Hqe. rewrite Hc0 in Hce.
  rewrite Z.max_r in Hme, Hqe, Hce by lia.
  assert (Hkept : messageText (elapse d1 p0) = Some saved_text
                  ∧ pending (elapse d1 p0) = pending p0).
  { rewrite Hme, Hqe, Hq0. destruct (saveIndicator p); queue_simpl; done. }
  destruct Hkept as [Hme' Hqe'].
  destruct (click_load_fields (elapse d1 p0)) as (Hc2 & _ & _ & Hm2 & Hq2).
  fold p2 in Hc2, Hm2, Hq2. rewrite Hme' in Hm2. rewrite Hme', Hqe', Hq0, Hce in Hq2.
  rewrite Hce in Hc2.
  assert (Hel2 : ∀ x, messageText (elapse x p2)
             = message_after (page_clock p + d1 + Z.max 0 x) (pending p2)
                 (Some loaded_text)).
  { intros x. destruct (elapse_fields x p2) as (Hme2 & _). cbn zeta in Hme2.
    by rewrite Hme2, Hc2, Hm2. }
  destruct (elapse_fields d2 p2) as (_ & _ & Hqe2 & _). cbn zeta in Hqe2.
  rewrite Hc2, Hq2, Z.max_r in Hqe2 by lia.
  split_and!.
  - unfold click_load. by rewrite has_saved_game, game_active.
  - done.
  - done.
  - intros Hd. rewrite Hel1, Hq1. queue_simpl; try done; lia.
  - intros Hd. rewrite Hel1, Hq1. queue_simpl; try done; lia.
  - done.
  - intros Hd. rewrite Hel2, Hq2. destruct (saveIndicator p); queue_simpl; try done; lia.
  - intros Hd. rewrite Hel2, Hq2. destruct (saveIndicator p); queue_simpl; try done; lia.
  - intros Hd. rewrite Hel2, Hq2. destruct (saveIndicator p); queue_simpl; try done; lia.
  - rewrite Hqe2. destruct (saveIndicator p); queue_simpl; done.
Qed.
End buttons.

Section button_samples.
Import SaveLoadButtons Sample3.

(** X18 on the sample page: a second click 500 ms after the first. *)
Lemma second_save_click_loses_the_message_witness :
  messageText page = Some "Sua vez" ∧ pending page = []
  ∧ (0 ≤ 500 < 2000)%Z ∧ (3000 ≤ 3000)%Z
  ∧ messageText (elapse 1999 (click_save (Some logic) page)) = Some saved_text
  ∧ messageText (elapse 2000 (click_save (Some logic) page)) = Some "Sua vez"
  ∧ messageText
      (elapse 1499 (click_save (Some logic) (elapse 500 (click_save (Some logic) page))))
    = Some saved_text
  ∧ messageText
      (elapse 1500 (click_save (Some logic) (elapse 500 (click_save (Some logic) page))))
    = Some "Sua vez"
  ∧ messageText
      (elapse 2000 (click_save (Some logic) (elapse 500 (click_save (Some logic) page))))
    = Some saved_text
  ∧ pending
      (elapse 3000 (click_save (Some logic) (elapse 500 (click_save (Some logic) page))))
    = [].
Proof.
  assert (Hmsg : messageText page = Some "Sua vez") by reflexivity.
  assert (Hq : pending page = []) by reflexivity.
  assert (Hd1 : (0 ≤ 500 < 2000)%Z) by lia.
  assert (Hd2 : (3000 ≤ 3000)%Z) by lia.
  pose proof (λ d, second_save_click_loses_the_message logic eq_refl (λ _, eq_refl)
                     page "Sua vez" 500 3000 d Hmsg Hq Hd1 Hd2) as Hthm.
  destruct (Hthm 1999%Z) as (_ & Hshown & _).
  destruct (Hthm 2000%Z) as (_ & _ & Hback & _ & _ & _ & _ & Hstuck & Hnone).
  destruct (Hthm 1499%Z) as (_ & _ & _ & _ & _ & Hagain & _).
  destruct (Hthm 1500%Z) as (_ & _ & _ & _ & _ & _ & Hbrief & _).
  split; [exact Hmsg|]. split; [exact Hq|]. split; [exact Hd1|]. split; [exact Hd2|].
  split; [exact (Hshown ltac:(lia))|]. split; [exact (Hback ltac:(lia))|].
  split; [exact (Hagain ltac:(lia))|]. split; [exact (Hbrief ltac:(lia))|].
  split; [exact (Hstuck ltac:(lia))|exact Hnone].
Defined.

(** X19 on the sample page: a second click 2500 ms after the first; the
    indicator is hidden 500 ms later. *)
Lemma save_indicator_is_not_debounced_witness :
  saveIndicator page = Some "none" ∧ pending page = [] ∧ (0 ≤ 2500 < 3000)%Z
  ∧ saveIndicator (click_save (Some logic) (elapse 2500 (click_save (Some logic) page)))
    = Some "block"
  ∧ saveIndicator
      (elapse (3000 - 2500)
         (click_save (Some logic) (elapse 2500 (click_save (Some logic) page))))
    = Some "none".
Proof.
  assert (Hind : saveIndicator page = Some "none") by reflexivity.
  assert (Hq : pending page = []) by reflexivity.
  assert (Hd1 : (0 ≤ 2500 < 3000)%Z) by lia.
  destruct (save_indicator_is_not_debounced logic eq_refl (λ _, eq_refl)
              page "none" 2500 0 Hind Hq Hd1)
    as (_ & _ & _ & Hshown & Hhidden).
  split; [exact Hind|]. split; [exact Hq|]. split; [exact Hd1|].
  split; [exact Hshown|exact Hhidden].
Defined.

(** X20 on the sample page: two auto-saves 1500 ms apart, and an auto-save
    1500 ms after a save click. *)
Lemma autoSave_indicator_is_debounced_witness :
  saveIndicator page = Some "none" ∧ pending page = [] ∧ autoSaveTimeout page = None
  ∧ (0 ≤ 1500 < 2000)%Z ∧ (1000 < 1500 < 3000)%Z
  ∧ pending (autoSaveGame_wrapped logic (elapse 1500 (autoSaveGame_wrapped logic page)))
    = [(2%positive, 3500%Z, HideIndicator)]
  ∧ saveIndicator
      (elapse (3000 - 1500)
         (autoSaveGame_wrapped logic (elapse 1500 (click_save (Some logic) page))))
    = Some "none".
Proof.
  assert (Hind : saveIndicator page = Some "none") by reflexivity.
  assert (Hq : pending page = []) by reflexivity.
  assert (Hast : autoSaveTimeout page = None) by reflexivity.
  assert (Hd1 : (0 ≤ 1500 < 2000)%Z) by lia.
  assert (Hd1' : (1000 < 1500 < 3000)%Z) by lia.
  destruct (autoSave_indicator_is_debounced logic eq_refl (λ _, eq_refl) (λ _, eq_refl)
              page "none" 1500 0 Hind Hq Hast) as [Hdebounced Hclick].
  destruct (Hdebounced Hd1) as (Hone & _).
  destruct (Hclick Hd1') as (_ & Hhidden).
  split; [exact Hind|]. split; [exact Hq|]. split; [exact Hast|].
  split; [exact Hd1|]. split; [exact Hd1'|]. split; [exact Hone|exact Hhidden].
Defined.

(** X21 on the sample page: a load 500 ms after a save click. *)
Lemma load_click_after_save_click_witness :
  messageText page = Some "Sua vez" ∧ pending page = []
  ∧ (0 ≤ 500 < 2000)%Z ∧ (3000 ≤ 3000)%Z
  ∧ click_load (Some logic) false page = page
  ∧ rollDisabled (click_load (Some logic) true page) = Some false
  ∧ messageText (elapse 1999 (click_load (Some logic) true page)) = Some loaded_text
  ∧ messageText (elapse 2000 (click_load (Some logic) true page)) = Some "Sua vez"
  ∧ messageText
      (elapse 1500
         (click_load (Some logic) true (elapse 500 (click_save (Some logic) page))))
    = Some "Sua vez"
  ∧ messageText
      (elapse 2000
         (click_load (Some logic) true (elapse 500 (click_save (Some logic) page))))
    = Some saved_text.
Proof.
  assert (Hmsg : messageText page = Some "Sua vez") by reflexivity.
  assert (Hq : pending page = []) by reflexivity.
  assert (Hd1 : (0 ≤ 500 < 2000)%Z) by lia.
  assert (Hd2 : (3000 ≤ 3000)%Z) by lia.
  pose proof (λ d, load_click_after_save_click logic eq_refl (λ _, eq_refl)
                     (λ _, eq_refl) (λ _, eq_refl) page "Sua vez" 500 3000 d
                     Hmsg Hq Hd1 Hd2) as Hthm.
  destruct (Hthm 1999%Z) as (Hrefused & Hroll & _ & Hshown & _).
  destruct (Hthm 2000%Z) as (_ & _ & _ & _ & Hback & _ & _ & _ & Hstuck & _).
  destruct (Hthm 1500%Z) as (_ & _ & _ & _ & _ & _ & _ & Hbrief & _).
  split; [exact Hmsg|]. split; [exact Hq|]. split; [exact Hd1|]. split; [exact Hd2|].
  split; [exact Hrefused|]. split; [exact Hroll|].
  split; [exact (Hshown ltac:(lia))|]. split; [exact (Hback ltac:(lia))|].
  split; [exact (Hbrief ltac:(lia))|exact (Hstuck ltac:(lia))].
Defined.
End button_samples.
